(** * HTMLzip2mHTML: the conversion pipeline of [mhtml_from_zip.py]

    A shallow embedding of the functions of [src/mhtml_from_zip.py] and the
    properties of its encoding detector, path resolver, archive navigator,
    HTML selector, reference rewriter, MIME packager and command line.

    Conventions of the embedding.
    - A Python [str] is a [string]; its characters are the code points
      below 256.  The case mapping and the regular-expression classes
      [\w] and [\s] are the ones Python applies to these code points.
    - A Python [bytes] is a [list byte].
    - [os.path] is [posixpath], the implementation on POSIX systems.
    - Exceptions are values of [exn]; a call that can raise returns a
      [result]. *)

From Stdlib Require Import ZArith Ascii String List Lia Bool.
From Stdlib Require Strings.Byte.
From stdpp Require Import base option relations list gmap strings.
Import ListNotations.

Local Open Scope string_scope.

(** ** Python string operations *)

Module PyStr.

Definition chr (c : ascii) : string := String c EmptyString.

(** [c.lower()] on one character: the letters A to Z and the capital
    letters of the upper half, 192 to 214 and 216 to 222. *)
Definition lower_char (c : ascii) : ascii :=
  let n := nat_of_ascii c in
  if (65 <=? n)%nat && (n <=? 90)%nat
     || (192 <=? n)%nat && (n <=? 214)%nat
     || (216 <=? n)%nat && (n <=? 222)%nat
  then ascii_of_nat (n + 32) else c.

(** [s.lower()] *)
Fixpoint lower (s : string) : string :=
  match s with
  | EmptyString => EmptyString
  | String c s' => String (lower_char c) (lower s')
  end.

(** [s.startswith(p)] *)
Fixpoint startswith (p s : string) : bool :=
  match p, s with
  | EmptyString, _ => true
  | String a p', String b s' => Ascii.eqb a b && startswith p' s'
  | String _ _, EmptyString => false
  end.

(** [s.endswith(suf)]: some suffix of [s] is [suf]. *)
Fixpoint endswith (suf s : string) : bool :=
  if String.eqb s suf then true
  else match s with
       | EmptyString => false
       | String _ s' => endswith suf s'
       end.

(** [s.replace(a, b)] for one-character [a] and [b]. *)
Fixpoint replace (a b : ascii) (s : string) : string :=
  match s with
  | EmptyString => EmptyString
  | String c s' => String (if Ascii.eqb c a then b else c) (replace a b s')
  end.

(** [s.split(sep, 1)[0]]: the text before the first [sep], all of [s] when
    there is none. *)
Fixpoint before_first (sep : ascii) (s : string) : string :=
  match s with
  | EmptyString => EmptyString
  | String c s' => if Ascii.eqb c sep then EmptyString
                   else String c (before_first sep s')
  end.

(** [s.split(sep, 1)]: one element when [sep] does not occur, two when it
    does. *)
Fixpoint split1 (sep : ascii) (s : string) : list string :=
  match s with
  | EmptyString => [EmptyString]
  | String c s' =>
      if Ascii.eqb c sep then [EmptyString; s']
      else match split1 sep s' with
           | h :: t => String c h :: t
           | [] => [chr c]
           end
  end.

(** [s.split(sep)] *)
Fixpoint split (sep : ascii) (s : string) : list string :=
  match s with
  | EmptyString => [EmptyString]
  | String c s' =>
      if Ascii.eqb c sep then EmptyString :: split sep s'
      else match split sep s' with
           | h :: t => String c h :: t
           | [] => [chr c]
           end
  end.

(** [sep.join(l)] *)
Fixpoint join (sep : string) (l : list string) : string :=
  match l with
  | [] => EmptyString
  | [x] => x
  | x :: l' => x ++ sep ++ join sep l'
  end.

(** [s.lstrip(chars)], the set [chars] given by its membership test. *)
Fixpoint lstrip (chars : ascii -> bool) (s : string) : string :=
  match s with
  | EmptyString => EmptyString
  | String c s' => if chars c then lstrip chars s' else s
  end.

(** [s.rstrip(chars)] *)
Fixpoint rstrip (chars : ascii -> bool) (s : string) : string :=
  match s with
  | EmptyString => EmptyString
  | String c s' =>
      match rstrip chars s' with
      | EmptyString => if chars c then EmptyString else chr c
      | r => String c r
      end
  end.

(** [s.rfind(c)]: the index of the last [c], [-1] when there is none. *)
Fixpoint rfind (c : ascii) (s : string) : Z :=
  match s with
  | EmptyString => (-1)%Z
  | String a s' =>
      let r := rfind c s' in
      if (0 <=? r)%Z then (r + 1)%Z
      else if Ascii.eqb a c then 0%Z else (-1)%Z
  end.

(** [s[:i]] for [0 <= i]. *)
Fixpoint take (i : nat) (s : string) : string :=
  match i, s with
  | S i', String c s' => String c (take i' s')
  | _, _ => EmptyString
  end.

(** [c * n] *)
Fixpoint repeat (c : ascii) (n : nat) : string :=
  match n with
  | O => EmptyString
  | S n' => String c (repeat c n')
  end.

(** every character of [s] satisfies [p] *)
Fixpoint all (p : ascii -> bool) (s : string) : bool :=
  match s with
  | EmptyString => true
  | String c s' => p c && all p s'
  end.

(** the longest prefix of [s] whose characters satisfy [p], and the rest *)
Fixpoint span (p : ascii -> bool) (s : string) : string * string :=
  match s with
  | EmptyString => (EmptyString, EmptyString)
  | String c s' =>
      if p c then let '(a, b) := span p s' in (String c a, b)
      else (EmptyString, s)
  end.

Definition nonempty (s : string) : bool :=
  match s with EmptyString => false | _ => true end.

(** [s[i:]] for [0 <= i]. *)
Fixpoint drop (i : nat) (s : string) : string :=
  match i, s with
  | S i', String c s' => drop i' s'
  | _, _ => s
  end.

(** [c in s] *)
Fixpoint mem (c : ascii) (s : string) : bool :=
  match s with
  | EmptyString => false
  | String a s' => Ascii.eqb a c || mem c s'
  end.

End PyStr.

(** ** [posixpath] *)

Module PosixPath.

Definition sep : ascii := "/"%char.
Definition is_sep (c : ascii) : bool := Ascii.eqb c sep.

(** [posixpath.dirname]:
    [i = p.rfind(sep) + 1; head = p[:i];
     if head and head != sep*len(head): head = head.rstrip(sep)] *)
Definition dirname (p : string) : string :=
  let i := (PyStr.rfind sep p + 1)%Z in
  let head := PyStr.take (Z.to_nat i) p in
  if PyStr.nonempty head
     && negb (String.eqb head (PyStr.repeat sep (String.length head)))
  then PyStr.rstrip is_sep head
  else head.

(** [posixpath.basename]: [i = p.rfind(sep) + 1; return p[i:]] *)
Definition basename (p : string) : string :=
  let i := (PyStr.rfind sep p + 1)%Z in
  PyStr.drop (Z.to_nat i) p.

(** [posixpath.join(a, b)] with one component [b]. *)
Definition join (a b : string) : string :=
  if PyStr.startswith "/" b then b
  else if negb (PyStr.nonempty a) || PyStr.endswith "/" a then a ++ b
  else a ++ "/" ++ b.

(** One iteration of the loop of [posixpath.normpath] over [comps]. *)
Definition normpath_step (initial_slashes : nat) (new_comps : list string)
    (comp : string) : list string :=
  if String.eqb comp EmptyString || String.eqb comp "." then new_comps
  else if negb (String.eqb comp "..")
          || ((initial_slashes =? 0)%nat && bool_decide (new_comps = []))
          || (match last new_comps with
              | Some l => String.eqb l ".."
              | None => false
              end)
  then new_comps ++ [comp]
  else if bool_decide (new_comps = []) then new_comps
  else removelast new_comps.

Definition normpath_comps (initial_slashes : nat) (comps : list string)
    : list string :=
  fold_left (normpath_step initial_slashes) comps [].

(** [initial_slashes]: 0, 1, or 2 for exactly two leading slashes. *)
Definition initial_slashes_of (path : string) : nat :=
  if PyStr.startswith "/" path then
    if PyStr.startswith "//" path && negb (PyStr.startswith "///" path)
    then 2 else 1
  else 0.

(** [posixpath.normpath] *)
Definition normpath (path : string) : string :=
  if String.eqb path EmptyString then "."
  else
    let initial_slashes := initial_slashes_of path in
    let comps := normpath_comps initial_slashes (PyStr.split sep path) in
    let path' := PyStr.repeat sep initial_slashes ++ PyStr.join "/" comps in
    if PyStr.nonempty path' then path' else ".".

End PosixPath.

(** ** Path Resolver *)

(** [normalize_zip_path]: [p.replace("\\", "/")] *)
Definition normalize_zip_path (p : string) : string :=
  PyStr.replace "\"%char "/"%char p.

Definition is_slash (c : ascii) : bool :=
  Ascii.eqb c "/"%char || Ascii.eqb c "\"%char.

(** [ref_path.startswith(("/", "\\"))] *)
Definition starts_with_slash (ref_path : string) : bool :=
  PyStr.startswith "/" ref_path || PyStr.startswith "\" ref_path.

(** [resolve_rel_path] *)
Definition resolve_rel_path (base_html ref_path : string) : string :=
  let base_dir := PosixPath.dirname base_html in
  let joined :=
    if starts_with_slash ref_path
    then PosixPath.normpath (PyStr.lstrip is_slash ref_path)
    else PosixPath.normpath (PosixPath.join base_dir ref_path) in
  normalize_zip_path joined.


(** ** Exceptions *)

(** The three [RuntimeError]s [process_zip] raises, told apart by their
    messages. *)
Inductive runtime_error :=
  | NoHtmlLayerFound      (* no .html/.htm in the ZIP or its nested ZIPs *)
  | HtmlOverrideNotFound  (* the --html name is not in the ZIP *)
  | NoHtmlFound.          (* no .html/.htm in the ZIP *)

Inductive exn :=
  | BadZipFile                       (* zipfile.BadZipFile *)
  | KeyError                         (* no such archive member *)
  | LookupError                      (* unknown encoding *)
  | ValueError                       (* unpacking a list of the wrong length *)
  | RuntimeError (e : runtime_error)
  | OtherException (class_name : string).  (* any other exception *)

Inductive result (A : Type) :=
  | Ok (a : A)
  | Err (e : exn).
Arguments Ok {A} a.
Arguments Err {A} e.

(** ** Bytes *)

Abbreviation bytes := (list Init.Byte.byte).

Definition BOM_UTF8 : bytes := [Init.Byte.xef; Init.Byte.xbb; Init.Byte.xbf].
Definition BOM_UTF16_LE : bytes := [Init.Byte.xff; Init.Byte.xfe].
Definition BOM_UTF16_BE : bytes := [Init.Byte.xfe; Init.Byte.xff].

(** [b.startswith(p)] on bytes *)
Fixpoint bytes_startswith (p b : bytes) : bool :=
  match p, b with
  | [], _ => true
  | x :: p', y :: b' => Strings.Byte.eqb x y && bytes_startswith p' b'
  | _ :: _, [] => false
  end.

(** [b.decode("ascii", errors="ignore")]: the bytes below 128, as
    characters; the others are dropped. *)
Fixpoint decode_ascii_ignore (b : bytes) : string :=
  match b with
  | [] => EmptyString
  | x :: b' =>
      if (Strings.Byte.to_nat x <? 128)%nat
      then String (ascii_of_byte x) (decode_ascii_ignore b')
      else decode_ascii_ignore b'
  end.

(** ** Character classes and case-insensitive literals *)

Definition in_range (lo hi : nat) (c : ascii) : bool :=
  let n := nat_of_ascii c in (lo <=? n)%nat && (n <=? hi)%nat.

Definition is_upper (c : ascii) : bool := in_range 65 90 c.
Definition is_lower (c : ascii) : bool := in_range 97 122 c.
Definition is_digit (c : ascii) : bool := in_range 48 57 c.

Definition double_quote : ascii := ascii_of_nat 34.
Definition single_quote : ascii := ascii_of_nat 39.
Definition newline : ascii := ascii_of_nat 10.

(** The class of the two quote characters, double and single. *)
Definition is_quote (c : ascii) : bool :=
  Ascii.eqb c double_quote || Ascii.eqb c single_quote.

(** [[A-Za-z0-9_\-]] *)
Definition is_token_char (c : ascii) : bool :=
  is_upper c || is_lower c || is_digit c
  || Ascii.eqb c "_"%char || Ascii.eqb c "-"%char.

(** [\w]: the letters, the digits and the underscore, and in the upper
    half the letters (170, 181, 186, 192 to 214, 216 to 246, 248 to 255)
    and the numeric characters (178, 179, 185, 188 to 190). *)
Definition is_word (c : ascii) : bool :=
  is_upper c || is_lower c || is_digit c || Ascii.eqb c "_"%char
  || in_range 170 170 c || in_range 178 179 c || in_range 181 181 c
  || in_range 185 186 c || in_range 188 190 c
  || in_range 192 214 c || in_range 216 246 c || in_range 248 255 c.

(** [\s]: tab, line feed, vertical tab, form feed, carriage return, the
    separators 28 to 31, space, and in the upper half the next-line
    character 133 and the no-break space 160. *)
Definition is_space (c : ascii) : bool :=
  in_range 9 13 c || in_range 28 31 c || Ascii.eqb c " "%char
  || in_range 133 133 c || in_range 160 160 c.

(** A literal of a pattern compiled with [re.I], matched at the start of
    [s]: the matched text and the rest. *)
Fixpoint match_literal_ci (lit s : string) : option (string * string) :=
  match lit, s with
  | EmptyString, _ => Some (EmptyString, s)
  | String a lit', String b s' =>
      if Ascii.eqb (PyStr.lower_char a) (PyStr.lower_char b) then
        match match_literal_ci lit' s' with
        | Some (m, r) => Some (String b m, r)
        | None => None
        end
      else None
  | String _ _, EmptyString => None
  end.

(** ** Encoding Detector *)

(** [[A-Za-z0-9_\-]+] at the start of [s], greedy. *)
Definition charset_token (s : string) : option string :=
  let tok := fst (PyStr.span is_token_char s) in
  if PyStr.nonempty tok then Some tok else None.

(** The pattern [charset=Q?([A-Za-z0-9_\-]+)] with [re.I], where [Q] is
    the class of the two quote characters, matched at the start of [s];
    the result is group 1.  The optional quote is tried first, then the
    match without it. *)
Definition charset_match_at (s : string) : option string :=
  match match_literal_ci "charset=" s with
  | None => None
  | Some (_, r) =>
      match r with
      | String q r' =>
          if is_quote q then
            match charset_token r' with
            | Some tok => Some tok
            | None => charset_token r
            end
          else charset_token r
      | EmptyString => charset_token r
      end
  end.

(** [re.search] of that pattern: the match at the leftmost position. *)
Fixpoint charset_search (s : string) : option string :=
  match charset_match_at s with
  | Some tok => Some tok
  | None =>
      match s with
      | EmptyString => None
      | String _ s' => charset_search s'
      end
  end.

(** [detect_encoding] *)
Definition detect_encoding (html_bytes : bytes) : string :=
  if bytes_startswith BOM_UTF8 html_bytes then "utf-8"
  else if bytes_startswith BOM_UTF16_LE html_bytes then "utf-16le"
  else if bytes_startswith BOM_UTF16_BE html_bytes then "utf-16be"
  else
    let head := decode_ascii_ignore (take (Z.to_nat 8192) html_bytes) in
    match charset_search head with
    | Some tok => PyStr.lower tok
    | None => "utf-8"
    end.

(** ** The patterns of the Reference Rewriter *)

(** [external_scheme_re.match]: [^(https?:|data:|cid:|//)] with [re.I]. *)
Definition external_scheme_re_match (s : string) : bool :=
  match match_literal_ci "http" s with
  | Some (_, r) =>
      match match_literal_ci "s" r with
      | Some (_, r') => PyStr.startswith ":" r' || PyStr.startswith ":" r
      | None => PyStr.startswith ":" r
      end
  | None => false
  end
  || bool_decide (is_Some (match_literal_ci "data:" s))
  || bool_decide (is_Some (match_literal_ci "cid:" s))
  || PyStr.startswith "//" s.

(** One match of [essential_img_src_re]: group 1 (the tag up to and
    including the attribute assignment), group 2 (the quote) and group 3
    (the quoted value); group 4 is the quote again. *)
Record img_match := {
  m_prefix : string;
  m_quote : ascii;
  m_path : string
}.

(** [m.group(0)] *)
Definition group0 (m : img_match) : string :=
  m_prefix m ++ PyStr.chr (m_quote m) ++ m_path m ++ PyStr.chr (m_quote m).

(** The tail of [(.+?)(\2)] after the first character of group 3: lazily
    up to the first quote [q], over characters other than the newline.
    Returns the rest of group 3 and the text after the closing quote. *)
Fixpoint lazy_value (q : ascii) (s : string) : option (string * string) :=
  match s with
  | EmptyString => None
  | String c s' =>
      if Ascii.eqb c q then Some (EmptyString, s')
      else if Ascii.eqb c newline then None
      else match lazy_value q s' with
           | Some (v, r) => Some (String c v, r)
           | None => None
           end
  end.

(** [(Q)(.+?)(\2)] at the start of [s], [Q] the class of the two quote
    characters. *)
Definition quoted_value (s : string) : option (ascii * string * string) :=
  match s with
  | String q (String c s') =>
      if is_quote q && negb (Ascii.eqb c newline) then
        match lazy_value q s' with
        | Some (v, r) => Some (q, String c v, r)
        | None => None
        end
      else None
  | _ => None
  end.

(** [src\s*=\s*(Q)(.+?)(\2)] at the start of [s]: the text of the
    attribute assignment, the quote, the value and the rest. *)
Definition src_attr_at (s : string)
    : option (string * ascii * string * string) :=
  match match_literal_ci "src" s with
  | None => None
  | Some (src, r) =>
      let '(sp1, r1) := PyStr.span is_space r in
      match r1 with
      | String c r2 =>
          if Ascii.eqb c "="%char then
            let '(sp2, r3) := PyStr.span is_space r2 in
            match quoted_value r3 with
            | Some (q, v, rest) =>
                Some (src ++ sp1 ++ "=" ++ sp2, q, v, rest)
            | None => None
            end
          else None
      | EmptyString => None
      end
  end.

(** [[^>]*?\bsrc...]: lazily, the attribute is tried at the current
    position (a word boundary when the previous character [prev] is not a
    word character), then after one more character other than [>]. *)
Fixpoint lazy_attr (prev : ascii) (s : string)
    : option (string * ascii * string * string) :=
  match (if is_word prev then None else src_attr_at s) with
  | Some r => Some r
  | None =>
      match s with
      | EmptyString => None
      | String c s' =>
          if Ascii.eqb c ">"%char then None
          else match lazy_attr c s' with
               | Some (a, q, v, r) => Some (String c a, q, v, r)
               | None => None
               end
      end
  end.

(** [essential_img_src_re] matched at the start of [s]: the match and the
    text after it. *)
Definition img_src_match_at (s : string) : option (img_match * string) :=
  match match_literal_ci "<img" s with
  | None => None
  | Some (tag, r) =>
      (* \b after [<img]: the next character is not a word character *)
      if match r with String c _ => is_word c | EmptyString => false end
      then None
      else match lazy_attr "g"%char r with
           | Some (a, q, v, rest) =>
               Some ({| m_prefix := tag ++ a; m_quote := q; m_path := v |},
                     rest)
           | None => None
           end
  end.

(** The text as [re.sub] sees it: matches, left to right and not
    overlapping, and the text between them. *)
Inductive piece :=
  | Text (s : string)
  | Img (m : img_match).

(** [skip] counts the characters of the current match still to pass. *)
Fixpoint scan_img_src (skip : nat) (s : string) : list piece :=
  match s with
  | EmptyString => []
  | String c s' =>
      match skip with
      | S k => scan_img_src k s'
      | O =>
          match img_src_match_at s with
          | Some (m, _) =>
              Img m :: scan_img_src (String.length (group0 m) - 1) s'
          | None => Text (PyStr.chr c) :: scan_img_src 0 s'
          end
      end
  end.

(** The text a list of pieces stands for. *)
Definition piece_text (p : piece) : string :=
  match p with
  | Text s => s
  | Img m => group0 m
  end.

Fixpoint concat_strings (l : list string) : string :=
  match l with
  | [] => EmptyString
  | x :: l' => x ++ concat_strings l'
  end.

Definition pieces_text (ps : list piece) : string :=
  concat_strings (map piece_text ps).

(** ** Collaborators

    The library calls the program makes, taken as an interface. *)

(** An opened [zipfile.ZipFile]: [zf.namelist()] and [zf.read(name)]. *)
Record ZipFile := {
  namelist : list string;
  read : string -> result bytes
}.

(** ** MIME messages *)

(** A resource dictionary: the keys [cid] and [data] are read with
    [res[...]], the keys [name] and [mime] with [res.get(..., default)]. *)
Record resource := {
  res_name : option string;
  res_cid : string;
  res_data : bytes;
  res_mime : option string
}.

(** The payload of a part as the source gives it: the two arguments
    [_text] and [_charset] of [MIMEText] (the charset the headers of the
    serialized part name is chosen by the email package from [_charset]),
    or the bytes given to [set_payload] and [encode_base64]. *)
Inductive payload :=
  | TextPayload (text charset : string)
  | Base64Payload (data : bytes).

Record mime_part := {
  part_maintype : string;
  part_subtype : string;
  part_headers : list (string * string);
  part_payload : payload
}.

(** The [MIMEMultipart] message [build_mhtml] hands to
    [BytesGenerator(policy=SMTP).flatten]. *)
Record mime_multipart := {
  mp_subtype : string;
  mp_headers : list (string * string);
  mp_params : list (string * string);
  mp_parts : list mime_part
}.

(** ** The libraries *)

Class Library := {
  (** [zipfile.ZipFile(BytesIO(b), 'r')] *)
  zip_open : bytes -> result ZipFile;
  (** [urllib.parse.unquote]; [None] when it raises *)
  unquote : string -> option string;
  (** [mimetypes.guess_type(path)[0]] *)
  guess_type : string -> option string;
  (** [uuid.uuid4().hex], the n-th one drawn in a conversion *)
  uuid4_hex : nat -> string;
  (** [b.decode(name, errors="replace")]: the text, or the exception it
      raises, a [LookupError] for a name that is no text encoding among
      them *)
  decode : string -> bytes -> result string;
  (** the exception [MIMEText(text, "html", _charset=charset)] raises, if
      any: the text is encoded in the charset when the part is built *)
  mime_text_error : string -> string -> option exn;
  (** [BytesGenerator(bio, policy=policy.SMTP).flatten(root)] and
      [bio.getvalue()]: the bytes of the message, or the exception the
      serialization raises *)
  flatten : mime_multipart -> result bytes
}.

(** ** HTML Selector *)

(** [n.lower().endswith((".html", ".htm"))] *)
Definition is_html_name (n : string) : bool :=
  let ln := PyStr.lower n in
  PyStr.endswith ".html" ln || PyStr.endswith ".htm" ln.

(** [pick_main_html] *)
Fixpoint pick_main_html (names : list string) : string :=
  match names with
  | [] => EmptyString
  | n :: names' => if is_html_name n then n else pick_main_html names'
  end.

(** The choice of the main HTML in [process_zip]:
    [if html_name_override: ... else: ...].  An override that is [None] or
    the empty string is false. *)
Definition select_main_html (names : list string)
    (html_name_override : option string) : result string :=
  let pick :=
    let html_name := pick_main_html names in
    if PyStr.nonempty html_name then Ok html_name
    else Err (RuntimeError NoHtmlFound) in
  match html_name_override with
  | Some o =>
      if PyStr.nonempty o then
        if bool_decide (o ∈ names) then Ok o
        else Err (RuntimeError HtmlOverrideNotFound)
      else pick
  | None => pick
  end.

(** ** MIME Packager *)

(** [maintype, subtype = (mime.split("/", 1) + ["octet-stream"])[:2]] *)
Definition split_mime (mime : string) : result (string * string) :=
  match take 2 (PyStr.split1 "/"%char mime ++ ["octet-stream"])%list with
  | [maintype; subtype] => Ok (maintype, subtype)
  | _ => Err ValueError
  end.

(** The body of the loop [for res in resources]. *)
Definition resource_part (res : resource) : result mime_part :=
  let mime := default "application/octet-stream" (res_mime res) in
  match split_mime mime with
  | Err e => Err e
  | Ok (maintype, subtype) =>
      Ok {| part_maintype := maintype;
            part_subtype := subtype;
            part_headers :=
              [("Content-ID", "<" ++ res_cid res ++ ">");
               ("Content-Location", default EmptyString (res_name res))];
            part_payload := Base64Payload (res_data res) |}
  end.

Fixpoint resource_parts (resources : list resource)
    : result (list mime_part) :=
  match resources with
  | [] => Ok []
  | res :: resources' =>
      match resource_part res with
      | Err e => Err e
      | Ok part =>
          match resource_parts resources' with
          | Err e => Err e
          | Ok parts => Ok (part :: parts)
          end
      end
  end.

(** The document part: [MIMEText(html_text, "html", _charset=charset)]
    with its Content-Location. *)
Definition document_part (html_text html_name charset : string)
    : mime_part :=
  let location :=
    let b := PosixPath.basename html_name in
    if PyStr.nonempty b then b else "index.html" in
  {| part_maintype := "text";
     part_subtype := "html";
     part_headers := [("Content-Location", location)];
     part_payload := TextPayload html_text charset |}.

(** The message [root] with the document part and the parts of the
    resources attached. *)
Definition root_message (html_text html_name charset : string)
    (parts : list mime_part) : mime_multipart :=
  {| mp_subtype := "related";
     mp_headers := [("MIME-Version", "1.0")];
     mp_params := [("type", "text/html")];
     mp_parts := document_part html_text html_name charset :: parts |}.

Section Packager.
Context `{Library}.

(** [build_mhtml]: the message it builds, whose bytes, [flatten] of it,
    the source returns.  It raises what [MIMEText] raises when the document
    part is built, and what the serialization raises. *)
Definition build_mhtml (html_text html_name : string)
    (resources : list resource) (charset : string) : result mime_multipart :=
  match mime_text_error html_text charset with
  | Some e => Err e
  | None =>
      match resource_parts resources with
      | Err e => Err e
      | Ok parts =>
          let root := root_message html_text html_name charset parts in
          match flatten root with
          | Err e => Err e
          | Ok _ => Ok root
          end
      end
  end.

End Packager.

(** ** Archive Navigator *)

(** [any(n.lower().endswith((".html", ".htm")) for n in names)] *)
Definition has_html (names : list string) : bool :=
  existsb is_html_name names.

(** [n.lower().endswith('.zip')] *)
Definition is_zip_name (n : string) : bool :=
  PyStr.endswith ".zip" (PyStr.lower n).

(** The names of a layer: [[normalize_zip_path(n) for n in zf.namelist()]] *)
Definition layer_names (zf : ZipFile) : list string :=
  map normalize_zip_path (namelist zf).

(** The set [seen] of [helper]: pairs (name, length). *)
Abbreviation seen_set := (gset (string * nat)).

(** [except zipfile.BadZipFile: return None] *)
Definition except_BadZipFile {S : Type} (r : result (option bytes) * S)
    : result (option bytes) * S :=
  match r with
  | (Err BadZipFile, s) => (Ok None, s)
  | _ => r
  end.

Section Navigator.
Context `{Library}.

(** The loop [for n in names] of [helper]; [rec] is [helper] at
    [depth + 1].  The set [seen] is shared by all calls, so it is passed
    in and returned, also when an exception is raised. *)
Fixpoint helper_loop
    (rec : bytes -> seen_set -> result (option bytes) * seen_set)
    (zf : ZipFile) (names : list string) (seen : seen_set)
    : result (option bytes) * seen_set :=
  match names with
  | [] => (Ok None, seen)
  | n :: names' =>
      if negb (is_zip_name n) then helper_loop rec zf names' seen
      else
        match read zf n with
        | Err KeyError => helper_loop rec zf names' seen
        | Err e => (Err e, seen)
        | Ok child =>
            let key := (n, length child) in
            if bool_decide (key ∈ seen) then helper_loop rec zf names' seen
            else
              match rec child ({[key]} ∪ seen) with
              | (Ok None, seen') => helper_loop rec zf names' seen'
              | res => res
              end
        end
  end.

(** The body of [with zipfile.ZipFile(BytesIO(b), 'r') as zf:]. *)
Definition helper_body
    (rec : bytes -> seen_set -> result (option bytes) * seen_set)
    (b : bytes) (seen : seen_set) : result (option bytes) * seen_set :=
  match zip_open b with
  | Err e => (Err e, seen)
  | Ok zf =>
      let names := layer_names zf in
      if has_html names then (Ok (Some b), seen)
      else helper_loop rec zf names seen
  end.

(** [helper] of [find_leaf_zip_with_html], with [max_depth] of the
    enclosing call.  The recursion is on [fuel]; a call at [depth] needs
    [max_depth - depth + 1] of it, which [find_leaf_zip_with_html] gives,
    so the test [depth > max_depth] ends the descent before the fuel
    does. *)
Fixpoint helper (fuel : nat) (max_depth : Z) (b : bytes) (depth : Z)
    (seen : seen_set) : result (option bytes) * seen_set :=
  if (max_depth <? depth)%Z then (Ok None, seen)
  else
    match fuel with
    | O => (Ok None, seen)
    | S fuel' =>
        except_BadZipFile
          (helper_body (fun child => helper fuel' max_depth child (depth + 1))
             b seen)
    end.

(** [find_leaf_zip_with_html]: [seen = set(); return helper(zip_bytes, 0)] *)
Definition find_leaf_zip_with_html (zip_bytes : bytes) (max_depth : Z)
    : result (option bytes) :=
  fst (helper (Z.to_nat (max_depth + 1)) max_depth zip_bytes 0 ∅).

End Navigator.

(** ** Reference Rewriter *)

(** The lists and the dictionary [replace_img_src] updates, and the number
    of identifiers drawn so far. *)
Record rewriter_state := {
  resources : list resource;
  cid_map : gmap string string;
  inlined : list string;
  uuid_calls : nat
}.

Definition initial_state : rewriter_state :=
  {| resources := []; cid_map := ∅; inlined := []; uuid_calls := 0 |}.

Section Rewriter.
Context `{Library}.
Variable zf : ZipFile.
Variable html_name : string.
Variable name_set : gset string.

(** [path.split("#", 1)[0]], then [.split("?", 1)[0]] *)
Definition path_core_of (path : string) : string :=
  PyStr.before_first "?"%char (PyStr.before_first "#"%char path).

(** The list [candidates]: the path core, and its decoded form when
    [unquote] returns a different string. *)
Definition candidates_of (path_core : string) : list string :=
  path_core ::
    match unquote path_core with
    | Some decoded =>
        if negb (String.eqb decoded path_core) then [decoded] else []
    | None => []
    end.

(** [f"{prefix}{quote}cid:{cid}{quote}"] *)
Definition cid_reference (m : img_match) (cid : string) : string :=
  m_prefix m ++ PyStr.chr (m_quote m) ++ "cid:" ++ cid
    ++ PyStr.chr (m_quote m).

(** [mimetypes.guess_type(rel)[0] or "application/octet-stream"] *)
Definition mime_of (rel : string) : string :=
  match guess_type rel with
  | Some t => if PyStr.nonempty t then t else "application/octet-stream"
  | None => "application/octet-stream"
  end.

(** The body of [if rel in name_set:].  [name_map] maps every name to
    itself, so [name_map[rel]] is [rel]. *)
Definition inline_resource (m : img_match) (rel : string)
    (st : rewriter_state) : result (string * rewriter_state) :=
  match cid_map st !! rel with
  | Some cid => Ok (cid_reference m cid, st)
  | None =>
      let cid := uuid4_hex (uuid_calls st) ++ "@mhtml" in
      match read zf rel with
      | Err e => Err e
      | Ok data =>
          let mime := mime_of rel in
          let res := {| res_name := Some rel; res_cid := cid;
                        res_data := data; res_mime := Some mime |} in
          Ok (cid_reference m cid,
              {| resources := resources st ++ [res];
                 cid_map := <[rel := cid]> (cid_map st);
                 inlined := inlined st ++ [rel];
                 uuid_calls := S (uuid_calls st) |})
      end
  end.

(** The loop [for cand in candidates], and [return m.group(0)] after it. *)
Fixpoint for_candidates (m : img_match) (cands : list string)
    (st : rewriter_state) : result (string * rewriter_state) :=
  match cands with
  | [] => Ok (group0 m, st)
  | cand :: cands' =>
      let rel := resolve_rel_path html_name cand in
      if bool_decide (rel ∈ name_set) then inline_resource m rel st
      else for_candidates m cands' st
  end.

(** [replace_img_src] *)
Definition replace_img_src (m : img_match) (st : rewriter_state)
    : result (string * rewriter_state) :=
  let path_core := path_core_of (m_path m) in
  if external_scheme_re_match path_core then Ok (group0 m, st)
  else for_candidates m (candidates_of path_core) st.

(** [essential_img_src_re.sub(replace_img_src, html_text)] over the pieces
    of the text: the replacements, piece by piece, and the final state. *)
Fixpoint sub_pieces (ps : list piece) (st : rewriter_state)
    : result (list string * rewriter_state) :=
  match ps with
  | [] => Ok ([], st)
  | Text s :: ps' =>
      match sub_pieces ps' st with
      | Err e => Err e
      | Ok (out, st') => Ok (s :: out, st')
      end
  | Img m :: ps' =>
      match replace_img_src m st with
      | Err e => Err e
      | Ok (s, st1) =>
          match sub_pieces ps' st1 with
          | Err e => Err e
          | Ok (out, st') => Ok (s :: out, st')
          end
      end
  end.

Definition sub_img_src (html_text : string) (st : rewriter_state)
    : result (string * rewriter_state) :=
  match sub_pieces (scan_img_src 0 html_text) st with
  | Err e => Err e
  | Ok (out, st') => Ok (concat_strings out, st')
  end.

End Rewriter.

(** ** Conversion Orchestrator *)

Section Orchestrator.
Context `{Library}.

(** [process_zip] after the choice of the main HTML: from
    [html_bytes = zf.read(html_name)] to the end. *)
Definition convert_document (zf : ZipFile) (names : list string)
    (html_name : string) : result (string * list string * mime_multipart) :=
  match read zf html_name with
  | Err e => Err e
  | Ok html_bytes =>
      let charset := detect_encoding html_bytes in
      match decode charset html_bytes with
      | Err e => Err e
      | Ok html_text =>
          let name_set : gset string := list_to_set names in
          match sub_img_src zf html_name name_set html_text
                  initial_state with
          | Err e => Err e
          | Ok (new_html_text, st) =>
              match build_mhtml new_html_text html_name
                      (resources st) charset with
              | Err e => Err e
              | Ok mhtml => Ok (html_name, inlined st, mhtml)
              end
          end
      end
  end.

(** [process_zip], from the bytes of the outermost ZIP to the message
    written to the output, with the returned pair. *)
Definition process_zip (root_bytes : bytes)
    (html_name_override : option string)
    : result (string * list string * mime_multipart) :=
  match find_leaf_zip_with_html root_bytes 10 with
  | Err e => Err e
  | Ok None => Err (RuntimeError NoHtmlLayerFound)
  | Ok (Some leaf_bytes) =>
      match zip_open leaf_bytes with
      | Err e => Err e
      | Ok zf =>
          let names := layer_names zf in
          match select_main_html names html_name_override with
          | Err e => Err e
          | Ok html_name => convert_document zf names html_name
          end
      end
  end.

End Orchestrator.

(** ** A small world of archives

    One instance of the collaborators, used to run the pipeline on
    concrete archives.  Archive bytes are short tags; [zip_open] is a
    table from tags to listings. *)

Module Demo.

Definition bytes_of_string (s : string) : bytes :=
  map byte_of_ascii (list_ascii_of_string s).

Definition string_of_bytes (b : bytes) : string :=
  string_of_list_ascii (map ascii_of_byte b).

Definition dq : string := PyStr.chr double_quote.

(** The document of the flat archive. *)
Definition index_html : string :=
  "<html><body>"
  ++ "<img src=" ++ dq ++ "img/a.png" ++ dq ++ ">"
  ++ "<img alt='same' src='./img/a.png'>"
  ++ "<img src=" ++ dq ++ "https://x/y.png" ++ dq ++ ">"
  ++ "<img src=" ++ dq ++ "missing/not-there.png" ++ dq ++ ">"
  ++ "<img src=" ++ dq ++ "img/a%20b.png#top" ++ dq ++ ">"
  ++ "</body></html>".

Definition a_png : bytes := bytes_of_string "PNG-A".
Definition ab_png : bytes := bytes_of_string "PNG-AB".

Fixpoint bytes_eqb (a b : bytes) : bool :=
  match a, b with
  | [], [] => true
  | x :: a', y :: b' => Strings.Byte.eqb x y && bytes_eqb a' b'
  | _, _ => false
  end.

(** The member of that name, the last one when the name is repeated. *)
Fixpoint member (name : string) (entries : list (string * bytes))
    : option bytes :=
  match entries with
  | [] => None
  | (n, data) :: entries' =>
      match member name entries' with
      | Some d => Some d
      | None => if String.eqb n name then Some data else None
      end
  end.

Definition table (entries : list (string * bytes)) : ZipFile :=
  {| namelist := map fst entries;
     read := fun name =>
       match member name entries with
       | Some data => Ok data
       | None => Err KeyError
       end |}.

Definition flat_zip : bytes := bytes_of_string "FLAT".
Definition flat_entries : list (string * bytes) :=
  [("index.html", bytes_of_string index_html);
   ("img/a.png", a_png);
   ("img/a b.png", ab_png)].

(** An archive whose only entry is the flat archive. *)
Definition outer_zip : bytes := bytes_of_string "OUTER".
Definition outer_entries : list (string * bytes) := [("pack.zip", flat_zip)].

(** Two sibling archives, each holding an [inner.zip] of the same length;
    only the second [inner.zip] holds a document. *)
Definition root_zip : bytes := bytes_of_string "ROOT".
Definition x_zip : bytes := bytes_of_string "XZIP".
Definition y_zip : bytes := bytes_of_string "YZIP".
Definition inner_a : bytes := bytes_of_string "IN-A".
Definition inner_b : bytes := bytes_of_string "IN-B".
Definition root_entries : list (string * bytes) :=
  [("x.zip", x_zip); ("y.zip", y_zip)].
Definition x_entries : list (string * bytes) := [("inner.zip", inner_a)].
Definition y_entries : list (string * bytes) := [("inner.zip", inner_b)].
Definition inner_a_entries : list (string * bytes) :=
  [("a.txt", bytes_of_string "text")].
Definition inner_b_entries : list (string * bytes) :=
  [("a.htm", bytes_of_string "<p>hello</p>")].

Definition archives : list (bytes * list (string * bytes)) :=
  [(flat_zip, flat_entries); (outer_zip, outer_entries);
   (root_zip, root_entries); (x_zip, x_entries); (y_zip, y_entries);
   (inner_a, inner_a_entries); (inner_b, inner_b_entries)].

Fixpoint find_archive (b : bytes)
    (l : list (bytes * list (string * bytes))) : result ZipFile :=
  match l with
  | [] => Err BadZipFile
  | (tag, entries) :: l' =>
      if bytes_eqb tag b then Ok (table entries) else find_archive b l'
  end.

(** Three archives with a member that cannot be read: reading
    [broken.zip] raises [BadZipFile], reading [locked.zip] raises another
    exception, reading [gone.zip] raises [KeyError]; each is followed by
    [good.zip], the flat archive. *)
Definition bad_member_zip : bytes := bytes_of_string "BADM".
Definition locked_member_zip : bytes := bytes_of_string "LOCK".
Definition missing_member_zip : bytes := bytes_of_string "GONE".

Definition faulty (first : string) (e : exn) : ZipFile :=
  {| namelist := [first; "good.zip"];
     read := fun name =>
       if String.eqb name first then Err e
       else if String.eqb name "good.zip" then Ok flat_zip
       else Err KeyError |}.

Definition demo_zip_open (b : bytes) : result ZipFile :=
  if bytes_eqb b bad_member_zip then Ok (faulty "broken.zip" BadZipFile)
  else if bytes_eqb b locked_member_zip
  then Ok (faulty "locked.zip" (OtherException "RuntimeError"))
  else if bytes_eqb b missing_member_zip then Ok (faulty "gone.zip" KeyError)
  else find_archive b archives.

Definition hex_value (c : ascii) : option nat :=
  let n := nat_of_ascii c in
  if is_digit c then Some (n - 48)
  else if in_range 65 70 c then Some (n - 55)
  else if in_range 97 102 c then Some (n - 87)
  else None.

(** Percent-decoding of the escapes below [%80]; the others stay. *)
Fixpoint demo_unquote (s : string) : string :=
  match s with
  | String "%" (String h (String l s') as r) =>
      match hex_value h, hex_value l with
      | Some a, Some b =>
          if (a <? 8)%nat then String (ascii_of_nat (16 * a + b))
                                      (demo_unquote s')
          else String "%" (demo_unquote r)
      | _, _ => String "%" (demo_unquote r)
      end
  | String c s' => String c (demo_unquote s')
  | EmptyString => EmptyString
  end.

Definition demo_guess_type (path : string) : option string :=
  let l := PyStr.lower path in
  if PyStr.endswith ".png" l then Some "image/png"
  else if PyStr.endswith ".jpg" l then Some "image/jpeg"
  else if PyStr.endswith ".gif" l then Some "image/gif"
  else None.

Definition demo_uuid4_hex (n : nat) : string :=
  nth n ["3f2b8c1e9d4a4f6e8b7a1c2d3e4f5a6b";
         "9a8b7c6d5e4f4a3b8c2d1e0f9a8b7c6d";
         "0f1e2d3c4b5a49788796a5b4c3d2e1f0"]
        "5d6e7f8091a24b3c8d4e5f60718293a4".

(** Decoding with some names Python knows, each here mapping a byte to
    the character of the same code; [undefined] is a codec that rejects
    every input, and any other name is unknown. *)
Definition demo_decode (name : string) (b : bytes) : result string :=
  if bool_decide (name ∈ ["utf-8"; "utf-16le"; "utf-16be"; "ascii";
                          "latin-1"; "gb2312"; "gbk"; "big5"])
  then Ok (string_of_bytes b)
  else if String.eqb name "undefined"
  then Err (OtherException "UnicodeError")
  else Err LookupError.

(** [MIMEText] with the charset [ascii] raises for a text with a
    character of the upper half. *)
Definition is_ascii_char (c : ascii) : bool := (nat_of_ascii c <? 128)%nat.

Definition demo_mime_text_error (text charset : string) : option exn :=
  if String.eqb charset "ascii" && negb (PyStr.all is_ascii_char text)
  then Some (OtherException "UnicodeEncodeError")
  else None.

(** A stand-in for the serialization: the content type, the headers and
    the payload of every part, in order; it raises for a header value with
    a character of the upper half. *)
Definition part_text (p : mime_part) : string :=
  "Content-Type: " ++ part_maintype p ++ "/" ++ part_subtype p ++ "; "
  ++ concat_strings
       (map (fun h => fst h ++ ": " ++ snd h ++ "; ") (part_headers p))
  ++ match part_payload p with
     | TextPayload text _ => text
     | Base64Payload data => string_of_bytes data
     end.

Definition ascii_headers (p : mime_part) : bool :=
  forallb (fun h => PyStr.all is_ascii_char (snd h)) (part_headers p).

Definition demo_flatten (m : mime_multipart) : result bytes :=
  if forallb ascii_headers (mp_parts m)
  then Ok (bytes_of_string
             (concat_strings (map (fun p => part_text p ++ "|") (mp_parts m))))
  else Err (OtherException "UnicodeEncodeError").

(** The opened flat archive, its names, and the pieces of its document. *)
Definition flat_zf : ZipFile := table flat_entries.
Definition flat_name_set : gset string := list_to_set (layer_names flat_zf).
Definition index_pieces : list piece := scan_img_src 0 index_html.

(** The matches of the external and of the missing image. *)
Definition img_external : img_match :=
  {| m_prefix := "<img src="; m_quote := double_quote;
     m_path := "https://x/y.png" |}.
Definition img_missing : img_match :=
  {| m_prefix := "<img src="; m_quote := double_quote;
     m_path := "missing/not-there.png" |}.

(** Documents with a charset declaration: one in upper case, one cut
    short after the keyword, one naming no codec. *)
Definition meta_gb2312 : bytes :=
  bytes_of_string
    ("<html><meta charset=" ++ dq ++ "GB2312" ++ dq ++ "></html>").
Definition meta_truncated : bytes :=
  bytes_of_string ("<html><meta charset=" ++ dq ++ dq ++ "><p>charset=").
Definition meta_unknown : bytes :=
  bytes_of_string
    ("<html><meta charset=" ++ dq ++ "X-None" ++ dq ++ "></html>").

(** A declaration whose keyword has a byte of the upper half in it, and a
    declaration that the window of 8192 bytes cuts after the first
    character of its token. *)
Definition meta_interrupted : bytes :=
  (bytes_of_string "<meta char" ++ [Init.Byte.xe9]
   ++ bytes_of_string "set=GBK>")%list.
Definition cut_declaration : bytes :=
  (replicate (Z.to_nat 8183) Init.Byte.x20
   ++ bytes_of_string "charset=gb2312")%list.

(** A resource whose MIME string has no slash. *)
Definition odd_resource : resource :=
  {| res_name := Some "img/a.bin"; res_cid := "c1@mhtml";
     res_data := []; res_mime := Some "image" |}.

(** A resource whose entry name holds a character of the upper half. *)
Definition accented_resource : resource :=
  {| res_name := Some ("img/" ++ String (ascii_of_nat 233) ".png");
     res_cid := "c2@mhtml";
     res_data := []; res_mime := Some "image/png" |}.

Definition demo_library : Library := {|
  zip_open := demo_zip_open;
  unquote := fun s => Some (demo_unquote s);
  guess_type := demo_guess_type;
  uuid4_hex := demo_uuid4_hex;
  decode := demo_decode;
  mime_text_error := demo_mime_text_error;
  flatten := demo_flatten
|}.

End Demo.

(** ** Notions the properties are stated with *)

Section Layers.
Context `{Library}.

(** [b] opens as an archive that lists an entry ending in .html or .htm. *)
Definition html_layer (b : bytes) : Prop :=
  exists zf, zip_open b = Ok zf /\ has_html (layer_names zf) = true.

(** [layer] is nested [depth] archives deep in [root], each step through
    an entry whose name ends in .zip. *)
Inductive nested_at : nat -> bytes -> bytes -> Prop :=
  | nested_here (b : bytes) : nested_at 0 b b
  | nested_child (d : nat) (b child layer : bytes) (zf : ZipFile)
      (n : string) :
      zip_open b = Ok zf ->
      n ∈ layer_names zf ->
      is_zip_name n = true ->
      read zf n = Ok child ->
      nested_at d child layer ->
      nested_at (S d) b layer.

End Layers.

(** The components of a normalized path: none is empty or a single dot,
    and the double dots form a leading run, which is empty after an
    initial slash. *)
Definition collapsed (initial_slashes : nat) (comps : list string) : Prop :=
  (EmptyString ∉ comps)
  /\ ("." ∉ comps)
  /\ exists k rest,
       comps = (replicate k ".." ++ rest)%list
       /\ (".." ∉ rest)
       /\ (initial_slashes <> 0 -> k = 0).

(** The path of [initial_slashes] slashes and the components [comps]
    joined by slashes, a single dot when that is empty. *)
Definition render (initial_slashes : nat) (comps : list string) : string :=
  let p := PyStr.repeat PosixPath.sep initial_slashes ++ PyStr.join "/" comps in
  if PyStr.nonempty p then p else ".".


(** [s] is empty or begins with a character outside the class [p]. *)
Definition not_starting_with (p : ascii -> bool) (s : string) : Prop :=
  match s with
  | String c _ => p c = false
  | EmptyString => True
  end.


(** [s] begins with a charset declaration whose token is [tok]: the
    keyword in any case, an optional quote, and the longest run of token
    characters, which is not empty. *)
Definition charset_declaration (s tok : string) : Prop :=
  exists kw q rest,
    s = kw ++ q ++ tok ++ rest
    /\ PyStr.lower kw = "charset="
    /\ (q = EmptyString \/ q = PyStr.chr double_quote
        \/ q = PyStr.chr single_quote)
    /\ PyStr.nonempty tok = true
    /\ PyStr.all is_token_char tok = true
    /\ not_starting_with is_token_char rest.

(** A byte that decodes as ASCII. *)
Definition is_ascii_byte (x : Init.Byte.byte) : bool :=
  (Strings.Byte.to_nat x <? 128)%nat.

(** The head text of a buffer, in the words of the specification: of the
    first 8192 bytes, the ones that decode as ASCII, in their order, each
    as the character of its code. *)
Definition head_text (html_bytes : bytes) : string :=
  string_of_list_ascii
    (map ascii_of_byte
       (List.filter is_ascii_byte (take (Z.to_nat 8192) html_bytes))).

(** No byte-order mark at the start. *)
Definition no_bom (html_bytes : bytes) : Prop :=
  bytes_startswith BOM_UTF8 html_bytes = false
  /\ bytes_startswith BOM_UTF16_LE html_bytes = false
  /\ bytes_startswith BOM_UTF16_BE html_bytes = false.

(** The characters of a lower-cased token. *)
Definition is_name_char (c : ascii) : bool :=
  is_lower c || is_digit c || Ascii.eqb c "_"%char || Ascii.eqb c "-"%char.

Section Resolution.
Context `{Library}.
Variable html_name : string.
Variable name_set : gset string.

(** The first candidate path, resolved, that is an entry of the archive. *)
Fixpoint first_resolved (cands : list string) : option string :=
  match cands with
  | [] => None
  | cand :: cands' =>
      let rel := resolve_rel_path html_name cand in
      if bool_decide (rel ∈ name_set) then Some rel
      else first_resolved cands'
  end.

(** The canonical archive path an image reference resolves to: none for
    an external reference and when no candidate is an entry. *)
Definition resolves_to (m : img_match) : option string :=
  let path_core := path_core_of (m_path m) in
  if external_scheme_re_match path_core then None
  else first_resolved (candidates_of path_core).

End Resolution.

(** The dictionary [cid_map] and the list [resources] agree: a path has
    an identifier in the dictionary exactly when a resource of that path
    with that identifier is in the list, and no two resources have the
    same path. *)
Definition consistent (st : rewriter_state) : Prop :=
  (forall rel cid,
     cid_map st !! rel = Some cid <->
     exists r, r ∈ resources st /\ res_name r = Some rel /\ res_cid r = cid)
  /\ NoDup (map res_name (resources st))
  /\ map res_name (resources st) = map Some (inlined st).


Section Traversal.
Context `{Library}.

(** [b] opens as an archive that lists an HTML entry, as a test. *)
Definition html_layerb (b : bytes) : bool :=
  match zip_open b with
  | Ok zf => has_html (layer_names zf)
  | Err _ => false
  end.

(** What a call returns when it raised [e], or nothing. *)
Definition result_of (e : option exn) : result (option bytes) :=
  match e with
  | Some ex => Err ex
  | None => Ok None
  end.

(** The complete depth-first traversal of the nested archives, which does
    not stop at a layer with an HTML entry: the archives opened, in the
    order they are opened, the exception that ended the traversal if one
    did, and the set of pairs visited.  A nested archive is not entered
    when its pair (name, length) has been visited; a [BadZipFile] raised
    while reading a member ends the traversal of the layer it is in. *)
Fixpoint traverse_loop
    (rec : bytes -> seen_set -> list bytes * option exn * seen_set)
    (zf : ZipFile) (names : list string) (seen : seen_set)
    : list bytes * option exn * seen_set :=
  match names with
  | [] => ([], None, seen)
  | n :: names' =>
      if negb (is_zip_name n) then traverse_loop rec zf names' seen
      else
        match read zf n with
        | Err KeyError => traverse_loop rec zf names' seen
        | Err e => ([], Some e, seen)
        | Ok child =>
            let key := (n, length child) in
            if bool_decide (key ∈ seen) then traverse_loop rec zf names' seen
            else
              match rec child ({[key]} ∪ seen) with
              | (ls, Some e, seen1) => (ls, Some e, seen1)
              | (ls, None, seen1) =>
                  let '(ls', e', seen2) :=
                    traverse_loop rec zf names' seen1 in
                  ((ls ++ ls')%list, e', seen2)
              end
        end
  end.

Fixpoint traverse (room : nat) (b : bytes) (seen : seen_set)
    : list bytes * option exn * seen_set :=
  match room with
  | O => ([], None, seen)
  | S room' =>
      match zip_open b with
      | Err BadZipFile => ([], None, seen)
      | Err e => ([], Some e, seen)
      | Ok zf =>
          let '(ls, e, seen') :=
            traverse_loop (traverse room') zf (layer_names zf) seen in
          (b :: ls,
           match e with Some BadZipFile => None | _ => e end,
           seen')
      end
  end.

(** The archives the traversal from [root] opens within [max_depth], in
    order, and the exception that ended it. *)
Definition visit_order (root : bytes) (max_depth : Z) : list bytes :=
  (traverse (Z.to_nat (max_depth + 1)) root ∅).1.1.

Definition visit_raised (root : bytes) (max_depth : Z) : option exn :=
  (traverse (Z.to_nat (max_depth + 1)) root ∅).1.2.

(** A call of [helper] and the traversal from the same point agree: the
    call returns the first layer with an HTML entry the traversal opens,
    and when there is none it ends as the traversal does, with the same
    set of visited pairs. *)
Definition agree (h : result (option bytes) * seen_set)
    (t : list bytes * option exn * seen_set) : Prop :=
  match find html_layerb t.1.1 with
  | Some l => h.1 = Ok (Some l)
  | None => h = (result_of t.1.2, t.2)
  end.

End Traversal.

(** ** More notions of the Reference Rewriter *)

Section Bookkeeping.
Context `{Library}.
Variable zf : ZipFile.
Variable html_name : string.
Variable name_set : gset string.

(** The resource the rewriter builds for the archive entry [rel] when it
    draws its [i]-th identifier. *)
Definition resource_of_entry (i : nat) (rel : string) (r : resource) : Prop :=
  res_name r = Some rel
  /\ res_cid r = uuid4_hex i ++ "@mhtml"
  /\ read zf rel = Ok (res_data r)
  /\ res_mime r = Some (mime_of rel).

(** The lists and the counter of a state go together: one identifier was
    drawn per resource, and the resource at each position is the one built
    for the path at that position of [inlined]. *)
Definition well_formed (st : rewriter_state) : Prop :=
  uuid_calls st = length (resources st)
  /\ length (inlined st) = length (resources st)
  /\ forall i r, resources st !! i = Some r ->
       exists rel, inlined st !! i = Some rel
                   /\ rel ∈ name_set
                   /\ resource_of_entry i rel r.

(** The paths the image references of a text resolve to, in the order of
    the references. *)
Definition resolved_paths (ps : list piece) : list string :=
  omap (fun p => match p with
                 | Img m => resolves_to html_name name_set m
                 | Text _ => None
                 end) ps.

End Bookkeeping.

(** The elements of [l] that are not in [acc], each at its first
    occurrence only. *)
Fixpoint first_occurrences (acc l : list string) : list string :=
  match l with
  | [] => []
  | x :: l' =>
      if bool_decide (x ∈ acc) then first_occurrences acc l'
      else x :: first_occurrences (x :: acc) l'
  end.

(** ** More sample data *)

Module Samples.

(** A text whose only image is an external one. *)
Definition external_only : string :=
  "<p>logo <img src=" ++ Demo.dq ++ "HTTPS://x/y.png" ++ Demo.dq ++ "></p>".

(** An opened archive whose listing has an entry written with a
    backslash: its normalized name is not a member, and reading it raises
    [KeyError]. *)
Definition backslash_zf : ZipFile :=
  Demo.table [("index.html", Demo.bytes_of_string "<p></p>");
              ("img\b.png", Demo.bytes_of_string "PNG-B")].
Definition backslash_name_set : gset string :=
  list_to_set (layer_names backslash_zf).
Definition backslash_pieces : list piece :=
  scan_img_src 0 ("<img src='img/b.png'>").

(** The first image of the document of the flat archive, as written, and
    with a query and a fragment. *)
Definition img_a : img_match :=
  {| m_prefix := "<img src="; m_quote := double_quote;
     m_path := "img/a.png" |}.
Definition img_a_query : img_match :=
  {| m_prefix := "<img src="; m_quote := double_quote;
     m_path := "img/a.png?v=2#top" |}.

End Samples.

Module Samples2.

(** 8192 spaces, and a charset declaration to put after them. *)
Definition padding : bytes := replicate (Z.to_nat 8192) Init.Byte.x20.
Definition late_declaration : bytes :=
  Demo.bytes_of_string "<meta charset=gb2312>".

End Samples2.

(** A component of a canonical archive path: a name that is not empty,
    not a single or double dot, and holds no slash and no backslash. *)
Definition proper_component (c : string) : Prop :=
  PyStr.nonempty c = true
  /\ c <> "." /\ c <> ".."
  /\ PyStr.mem "/" c = false
  /\ PyStr.mem "\" c = false.

(** A component of a reference: it holds no slash and no backslash. *)
Definition plain_component (c : string) : Prop :=
  PyStr.mem "/" c = false /\ PyStr.mem "\" c = false.

(** ** Command line *)

(** [posixpath.splitext]: the loop over [filenameIndex] looks for a
    character of [p[sepIndex+1:dotIndex]] that is not a dot. *)
Fixpoint has_non_dot (s : string) : bool :=
  match s with
  | EmptyString => false
  | String c s' => if negb (Ascii.eqb c "."%char) then true
                   else has_non_dot s'
  end.

Definition splitext (p : string) : string * string :=
  let sepIndex := PyStr.rfind PosixPath.sep p in
  let dotIndex := PyStr.rfind "."%char p in
  if (sepIndex <? dotIndex)%Z
     && has_non_dot
          (PyStr.take (Z.to_nat (dotIndex - (sepIndex + 1)))
             (PyStr.drop (Z.to_nat (sepIndex + 1)) p))
  then (PyStr.take (Z.to_nat dotIndex) p, PyStr.drop (Z.to_nat dotIndex) p)
  else (p, EmptyString).

(** The namespace [parser.parse_args()] returns. *)
Record Namespace := {
  zip_path : option string;
  out_path : option string;
  html_name : option string;
  batch : bool;
  dir_path : option string
}.

(** The truth value of an optional string: [None] and the empty string are
    false. *)
Definition truthy (o : option string) : bool :=
  match o with
  | Some s => PyStr.nonempty s
  | None => false
  end.

(** What the script prints, one constructor per message. *)
Inductive message :=
  | MainHtml (html_name_res : string)
  | InlinedHeader
  | InlinedItem (p : string)
  | NothingInlined
  | Generated (out : string)
  | DirectoryMissing (scan_dir : string)
  | NoZipInDirectory (scan_dir : string)
  | BatchDirectory (scan_dir : string)
  | Processing (zip out : string)
  | ProcessingFailed (zip : string) (e : exn)
  | BatchDone (ok total : nat)
  | SingleModeNeedsZipAndOut
  | Failed (e : exn).

Inductive stream := stdout | stderr.

(** The contents of the regular files, each under the file it is (see
    [file_of]), the lines printed so far, and the number of calls of
    [process_zip] so far. *)
Record world := {
  files : gmap string bytes;
  console : list (stream * message);
  conversions : nat
}.

(** [print]; writing a line to a stream is taken to succeed. *)
Definition print (s : stream) (m : message) (w : world) : world :=
  {| files := files w; console := console w ++ [(s, m)];
     conversions := conversions w |}.

(** How [main] ends: it returns, it calls [sys.exit], or an exception
    leaves it. *)
Inductive status :=
  | Returned
  | SysExit (code : Z)
  | Uncaught (e : exn).

(** The host of the script.  [isdir] and [listdir] are asked once, before
    anything is written. *)
Class Host := {
  (** the file a path denotes, links followed: two paths that denote one
      file, through a symbolic or a hard link or as two spellings, have
      one value, and a write through either changes the file of both *)
  file_of : string -> string;
  (** [os.getcwd()] *)
  getcwd : string;
  (** [__file__] *)
  script_file : string;
  (** [os.path.isdir] *)
  isdir : string -> bool;
  (** [os.listdir] *)
  listdir : string -> result (list string);
  (** the exception of [open(path, 'rb')] on a regular file, if any *)
  open_rb_error : string -> option exn;
  (** the exception of [open(path, 'wb')], if any *)
  open_wb_error : string -> option exn;
  (** [uuid.uuid4().hex]: the n-th one drawn in the k-th call of
      [process_zip] *)
  uuid4_hex_of : nat -> nat -> string;
}.

Section CommandLine.
Context `{L : Library} `{Host}.

(** The library as the k-th call of [process_zip] finds it: the
    identifiers are the ones drawn in that call. *)
Definition library_of (k : nat) : Library := {|
  zip_open := @zip_open L;
  unquote := @unquote L;
  guess_type := @guess_type L;
  uuid4_hex := uuid4_hex_of k;
  decode := @decode L;
  mime_text_error := @mime_text_error L;
  flatten := @flatten L
|}.

(** [posixpath.abspath] *)
Definition abspath (path : string) : string :=
  PosixPath.normpath
    (if PyStr.startswith "/" path then path
     else PosixPath.join getcwd path).

(** [process_zip] with its file accesses, at its k-th call: the check of
    [zip_path], the read of its bytes and the write of the bytes of the
    message to [output_path].  [process_zip] returns a message only when
    its serialization has succeeded, so [flatten] gives its bytes here. *)
Definition process_zip_file (k : nat) (zip_path output_path : string)
    (html_name_override : option string) (fs : gmap string bytes)
    : result (string * list string) * gmap string bytes :=
  match fs !! file_of zip_path with
  | None => (Err (OtherException "FileNotFoundError"), fs)
  | Some root_bytes =>
      match open_rb_error zip_path with
      | Some e => (Err e, fs)
      | None =>
          match @process_zip (library_of k) root_bytes
                  html_name_override with
          | Err e => (Err e, fs)
          | Ok (html_name, inlined, mhtml) =>
              match flatten mhtml with
              | Err e => (Err e, fs)
              | Ok mhtml_bytes =>
                  match open_wb_error output_path with
                  | Some e => (Err e, fs)
                  | None =>
                      (Ok (html_name, inlined),
                       <[file_of output_path := mhtml_bytes]> fs)
                  end
              end
          end
      end
  end.

(** The lines [run_single] prints after [process_zip] has returned. *)
Definition report (html_name_res : string) (inlined : list string)
    (out_path : string) : list (stream * message) :=
  [(stdout, MainHtml html_name_res)]
  ++ (match inlined with
      | [] => [(stdout, NothingInlined)]
      | _ => (stdout, InlinedHeader)
             :: map (fun p => (stdout, InlinedItem p)) inlined
      end)
  ++ [(stdout, Generated out_path)].

(** [run_single] *)
Definition run_single (zip_path out_path : string)
    (html_name : option string) (w : world) : result unit * world :=
  match process_zip_file (conversions w) zip_path out_path html_name
          (files w) with
  | (Err e, fs) =>
      (Err e, {| files := fs; console := console w;
                 conversions := S (conversions w) |})
  | (Ok (html_name_res, inlined), fs) =>
      (Ok tt, {| files := fs;
                 console := console w
                            ++ report html_name_res inlined out_path;
                 conversions := S (conversions w) |})
  end.

(** The output path of the batch for the entry [fn]. *)
Definition batch_out_path (scan_dir fn : string) : string :=
  PosixPath.join scan_dir (fst (splitext fn) ++ ".mhtml").

(** The loop [for fn in zip_files] with its counter [ok]. *)
Fixpoint batch_loop (scan_dir : string) (zip_files : list string)
    (ok : nat) (w : world) : nat * world :=
  match zip_files with
  | [] => (ok, w)
  | fn :: zip_files' =>
      let zip_path := PosixPath.join scan_dir fn in
      let out_path := batch_out_path scan_dir fn in
      let w1 := print stdout (Processing zip_path out_path) w in
      match run_single zip_path out_path None w1 with
      | (Ok _, w2) => batch_loop scan_dir zip_files' (ok + 1) w2
      | (Err e, w2) =>
          batch_loop scan_dir zip_files' ok
            (print stderr (ProcessingFailed zip_path e) w2)
      end
  end.

(** [[fn for fn in os.listdir(scan_dir) if fn.lower().endswith('.zip')]] *)
Definition zip_entries (entries : list string) : list string :=
  List.filter is_zip_name entries.

Definition batch_mode (args : Namespace) : bool :=
  batch args || (negb (truthy (zip_path args))
                 && negb (truthy (out_path args))).

Definition scan_dir_of (args : Namespace) : string :=
  match dir_path args with
  | Some d => if PyStr.nonempty d then abspath d
              else PosixPath.dirname (abspath script_file)
  | None => PosixPath.dirname (abspath script_file)
  end.

(** [main] after [parser.parse_args()], started with the files [fs] and an
    empty console. *)
Definition main (args : Namespace) (fs : gmap string bytes)
    : status * world :=
  let w := {| files := fs; console := []; conversions := 0 |} in
  if batch_mode args then
    let scan_dir := scan_dir_of args in
    if negb (isdir scan_dir) then
      (SysExit 1, print stderr (DirectoryMissing scan_dir) w)
    else
      match listdir scan_dir with
      | Err e => (Uncaught e, w)
      | Ok entries =>
          let zip_files := zip_entries entries in
          match zip_files with
          | [] => (SysExit 0, print stdout (NoZipInDirectory scan_dir) w)
          | _ =>
              let w1 := print stdout (BatchDirectory scan_dir) w in
              let total := length zip_files in
              let '(ok, w2) := batch_loop scan_dir zip_files 0 w1 in
              let w3 := print stdout (BatchDone ok total) w2 in
              (SysExit (if (0 <? ok)%nat then 0 else 1), w3)
          end
      end
  else
    match zip_path args, out_path args with
    | Some z, Some o =>
        if PyStr.nonempty z && PyStr.nonempty o then
          match run_single z o (html_name args) w with
          | (Ok _, w1) => (Returned, w1)
          | (Err e, w1) => (SysExit 1, print stderr (Failed e) w1)
          end
        else (SysExit 1, print stderr SingleModeNeedsZipAndOut w)
    | _, _ => (SysExit 1, print stderr SingleModeNeedsZipAndOut w)
    end.

End CommandLine.

(** ** Readings of a run of the command line *)

Section BatchReadings.
Context `{L : Library} `{Host}.

(** The file the batch writes for the entry [fn] of [scan_dir], converted
    by the k-th call of [process_zip] from the files [fs]: the file and its
    bytes, if the conversion succeeds. *)
Definition batch_product (fs : gmap string bytes) (scan_dir : string)
    (k : nat) (fn : string) : option (string * bytes) :=
  match fs !! file_of (PosixPath.join scan_dir fn) with
  | None => None
  | Some root_bytes =>
      match open_rb_error (PosixPath.join scan_dir fn) with
      | Some _ => None
      | None =>
          match @process_zip (library_of k) root_bytes None with
          | Err _ => None
          | Ok (_, _, mhtml) =>
              match flatten mhtml with
              | Err _ => None
              | Ok mhtml_bytes =>
                  match open_wb_error (batch_out_path scan_dir fn) with
                  | Some _ => None
                  | None =>
                      Some (file_of (batch_out_path scan_dir fn), mhtml_bytes)
                  end
              end
          end
      end
  end.

(** The files of a batch over [zip_files], the first of them converted by
    the k-th call. *)
Fixpoint batch_products (fs : gmap string bytes) (scan_dir : string)
    (k : nat) (zip_files : list string) : list (string * bytes) :=
  match zip_files with
  | [] => []
  | fn :: zip_files' =>
      match batch_product fs scan_dir k fn with
      | Some pb => pb :: batch_products fs scan_dir (S k) zip_files'
      | None => batch_products fs scan_dir (S k) zip_files'
      end
  end.

Definition write_all (fs : gmap string bytes)
    (products : list (string * bytes)) : gmap string bytes :=
  fold_left (fun acc pb => <[pb.1 := pb.2]> acc) products fs.

End BatchReadings.

(** The [Processing] lines of a console, in order. *)
Definition processing_lines (c : list (stream * message))
    : list (string * string) :=
  omap (fun l => match l with
                 | (stdout, Processing z o) => Some (z, o)
                 | _ => None
                 end) c.

(** The number of lines of a console that satisfy [p]. *)
Definition count_lines (p : stream * message -> bool)
    (c : list (stream * message)) : nat :=
  length (List.filter p c).

Definition is_generated (l : stream * message) : bool :=
  match l with (stdout, Generated _) => true | _ => false end.

Definition is_processing_failed (l : stream * message) : bool :=
  match l with (stderr, ProcessingFailed _ _) => true | _ => false end.

(** ** A host for the examples *)

Module DemoHost.

(** The directory [/work/in] holds two archives with a document, one file
    that is no archive though named as one, and a text file. *)
Definition demo_listdir (d : string) : result (list string) :=
  if String.eqb d "/work/in"
  then Ok ["flat.zip"; "notes.txt"; "broken.ZIP"; "outer.zip"]
  else if String.eqb d "/opt/tool" then Ok ["mhtml_from_zip.py"]
  else Err (OtherException "FileNotFoundError").

Definition demo_files : gmap string bytes :=
  <["/work/in/flat.zip" := Demo.flat_zip]>
  (<["/work/in/notes.txt" := Demo.bytes_of_string "notes"]>
  (<["/work/in/broken.ZIP" := Demo.bytes_of_string "no archive"]>
  (<["/work/in/outer.zip" := Demo.outer_zip]> ∅))).

Definition demo_uuid4_hex_of (k n : nat) : string :=
  nth k ["1a"; "2b"; "3c"; "4d"] "5e"
  ++ "2b8c1e9d4a4f6e8b7a1c2d3e4f5a"
  ++ nth n ["01"; "02"; "03"] "04".

(** [/work/in/latest.mhtml] is a symbolic link to [/work/in/flat.mhtml];
    every other path denotes a file of its own. *)
Definition demo_file_of (p : string) : string :=
  if String.eqb p "/work/in/latest.mhtml" then "/work/in/flat.mhtml" else p.

Definition demo_host : Host := {|
  file_of := demo_file_of;
  getcwd := "/work";
  script_file := "/opt/tool/mhtml_from_zip.py";
  isdir := fun d => String.eqb d "/work/in" || String.eqb d "/opt/tool";
  listdir := demo_listdir;
  open_rb_error := fun _ => None;
  open_wb_error := fun _ => None;
  uuid4_hex_of := demo_uuid4_hex_of
|}.

(** The same directory where [/work/in/flat.mhtml] is a symbolic link to
    the archive [/work/in/outer.zip]. *)
Definition linked_file_of (p : string) : string :=
  if String.eqb p "/work/in/flat.mhtml" then "/work/in/outer.zip" else p.

Definition linked_host : Host := {|
  file_of := linked_file_of;
  getcwd := "/work";
  script_file := "/opt/tool/mhtml_from_zip.py";
  isdir := fun d => String.eqb d "/work/in" || String.eqb d "/opt/tool";
  listdir := demo_listdir;
  open_rb_error := fun _ => None;
  open_wb_error := fun _ => None;
  uuid4_hex_of := demo_uuid4_hex_of
|}.

(** [--batch --dir in --html other.html] *)
Definition batch_args : Namespace :=
  {| zip_path := None; out_path := None; html_name := Some "other.html";
     batch := true; dir_path := Some "in" |}.



End DemoHost.

(** ** The shape of a quoted value *)

(** The value between the quotes of a match: one character, whatever it is
    but a newline, then characters that are neither the quote nor a
    newline. *)
Definition value_shape (q : ascii) (v : string) : Prop :=
  is_quote q = true
  /\ PyStr.mem newline v = false
  /\ exists c v', v = String c v' /\ PyStr.mem q v' = false.

(** An image tag with a no-break space (code point 160) between the
    attribute name and the equals sign, and one whose value holds a
    carriage return (code point 13). *)
Definition img_no_break_space : string :=
  "<img src" ++ String (ascii_of_nat 160) "='img/a.png'>".

Definition img_carriage_return : string :=
  "<img src='img/" ++ String (ascii_of_nat 13) "a.png'>".

(** * Properties *)

(** ** Tactics *)

(** Closes a decidable closed goal by evaluating its decision. *)
Ltac by_decide :=
  lazymatch goal with
  | |- ?P => apply (@bool_decide_unpack P _); vm_compute; exact I
  end.

(** Closes the goals that an element is not in a list built from lists
    known not to hold it. *)
Ltac solve_notin :=
  repeat (rewrite not_elem_of_app || rewrite not_elem_of_cons);
  repeat split; try assumption; try apply not_elem_of_nil;
  try congruence; try discriminate.
(** ** Properties of the string operations *)

Module PyStrFacts.
Import PyStr.

Lemma eqb_ascii_true (a b : ascii) : Ascii.eqb a b = true <-> a = b.
Proof. apply Ascii.eqb_eq. Qed.


Lemma split_nonempty (sep : ascii) (s : string) : split sep s <> [].
Proof.
  destruct s as [|c s]; simpl; [discriminate|].
  destruct (Ascii.eqb c sep); [discriminate|].
  destruct (split sep s); discriminate.
Qed.

(** No component produced by [split] contains the separator. *)
Lemma split_sep_free (sep : ascii) (s : string) :
  Forall (fun c => mem sep c = false) (split sep s).
Proof.
  induction s as [|c s IH]; simpl.
  - repeat constructor.
  - destruct (Ascii.eqb c sep) eqn:Hc.
    + constructor; [reflexivity | exact IH].
    + destruct (split sep s) as [|h t]; inversion IH; subst.
      * repeat constructor. simpl. rewrite Hc. reflexivity.
      * constructor; [simpl; rewrite Hc; simpl; assumption | assumption].
Qed.

Lemma startswith_app (p s : string) : startswith p (p ++ s) = true.
Proof.
  induction p as [|a p IH]; simpl; [reflexivity|].
  rewrite Ascii.eqb_refl. exact IH.
Qed.

Lemma startswith_spec (p s : string) :
  startswith p s = true <-> exists r, s = p ++ r.
Proof.
  split.
  - revert s. induction p as [|a p IH]; intros s H; simpl in *.
    + exists s. reflexivity.
    + destruct s as [|b s]; [discriminate|].
      apply andb_true_iff in H as [Hab Hp].
      apply Ascii.eqb_eq in Hab. subst b.
      destruct (IH _ Hp) as [r ->]. exists r. reflexivity.
  - intros [r ->]. apply startswith_app.
Qed.

Lemma endswith_eq (suf s : string) :
  endswith suf s =
  if String.eqb s suf then true
  else match s with
       | EmptyString => false
       | String _ s' => endswith suf s'
       end.
Proof. destruct s; reflexivity. Qed.

Lemma endswith_spec (suf s : string) :
  endswith suf s = true <-> exists pre, s = pre ++ suf.
Proof.
  split.
  - induction s as [|c s IH]; rewrite endswith_eq.
    + destruct (String.eqb_spec EmptyString suf) as [<-|]; [|discriminate].
      intros _. exists EmptyString. reflexivity.
    + destruct (String.eqb_spec (String c s) suf) as [<-|Hne].
      * intros _. exists EmptyString. reflexivity.
      * intros H. destruct (IH H) as [pre ->].
        exists (String c pre). reflexivity.
  - intros [pre ->]. induction pre as [|c pre IH].
    + change (EmptyString ++ suf) with suf.
      rewrite endswith_eq, String.eqb_refl. reflexivity.
    + change (String c pre ++ suf) with (String c (pre ++ suf)).
      rewrite endswith_eq.
      destruct (String.eqb (String c (pre ++ suf)) suf); [reflexivity|].
      exact IH.
Qed.

Lemma append_nil_l (s : string) : EmptyString ++ s = s.
Proof. reflexivity. Qed.

Lemma append_cons (c : ascii) (a b : string) :
  String c a ++ b = String c (a ++ b).
Proof. reflexivity. Qed.

Lemma append_nil_r (s : string) : s ++ EmptyString = s.
Proof.
  induction s as [|c s IH]; [reflexivity|].
  rewrite append_cons, IH. reflexivity.
Qed.

Lemma append_assoc (a b c : string) : (a ++ b) ++ c = a ++ (b ++ c).
Proof.
  induction a as [|x a IH]; [reflexivity|].
  rewrite !append_cons, IH. reflexivity.
Qed.

Lemma length_append (a b : string) :
  String.length (a ++ b) = String.length a + String.length b.
Proof.
  induction a as [|x a IH]; [reflexivity|].
  rewrite append_cons. simpl. rewrite IH. reflexivity.
Qed.

Lemma lower_length (s : string) : String.length (lower s) = String.length s.
Proof. induction s as [|c s IH]; simpl; congruence. Qed.

Lemma span_app (p : ascii -> bool) (s a b : string) :
  span p s = (a, b) ->
  s = a ++ b /\ all p a = true /\ not_starting_with p b.
Proof.
  revert a b. induction s as [|c s IH]; intros a b Hs; simpl in Hs.
  - injection Hs as <- <-. repeat split.
  - destruct (p c) eqn:Hc.
    + destruct (span p s) as [a' b'] eqn:Hs'. injection Hs as <- <-.
      destruct (IH _ _ eq_refl) as (-> & Ha & Hb).
      rewrite append_cons. simpl. rewrite Hc. auto.
    + injection Hs as <- <-. repeat split. exact Hc.
Qed.

Lemma span_intro (p : ascii -> bool) (a b : string) :
  all p a = true -> not_starting_with p b -> span p (a ++ b) = (a, b).
Proof.
  intros Ha Hb. induction a as [|c a IH].
  - rewrite append_nil_l. destruct b as [|c b]; [reflexivity|].
    simpl in *. rewrite Hb. reflexivity.
  - rewrite append_cons. simpl in *.
    apply andb_true_iff in Ha as [Hc Ha]. rewrite Hc, (IH Ha). reflexivity.
Qed.

End PyStrFacts.

(** ** MIME Packager *)

Section PackagerFacts.
Context `{Library}.
Import PyStr.

Lemma split1_no_sep (sep : ascii) (s : string) :
  mem sep s = false -> split1 sep s = [s].
Proof.
  induction s as [|c s IH]; simpl; [reflexivity|].
  intros Hm. apply orb_false_iff in Hm as [Hc Hs].
  rewrite Hc, (IH Hs). reflexivity.
Qed.

Lemma split1_shape (sep : ascii) (s : string) :
  (exists a, split1 sep s = [a]) \/ (exists a b, split1 sep s = [a; b]).
Proof.
  induction s as [|c s IH]; simpl.
  - left. eexists. reflexivity.
  - destruct (Ascii.eqb c sep).
    + right. do 2 eexists. reflexivity.
    + destruct IH as [[a ->]|[a [b ->]]]; [left|right]; repeat eexists.
Qed.

(** The unpacking never fails. *)
Lemma split_mime_total (mime : string) :
  exists maintype subtype, split_mime mime = Ok (maintype, subtype).
Proof.
  unfold split_mime.
  destruct (split1_shape "/"%char mime) as [[a ->]|[a [b ->]]];
    simpl; repeat eexists.
Qed.

Lemma split_mime_no_slash (mime : string) :
  mem "/"%char mime = false -> split_mime mime = Ok (mime, "octet-stream").
Proof.
  intros Hm. unfold split_mime. rewrite (split1_no_sep _ _ Hm). reflexivity.
Qed.

Lemma resource_part_total (res : resource) :
  exists part, resource_part res = Ok part.
Proof.
  unfold resource_part.
  destruct (split_mime_total (default "application/octet-stream"
                                (res_mime res))) as (a & b & ->).
  eexists. reflexivity.
Qed.

Lemma resource_parts_lookup (rs : list resource) :
  exists parts, resource_parts rs = Ok parts
    /\ forall i res, rs !! i = Some res ->
         exists part, resource_part res = Ok part /\ parts !! i = Some part.
Proof.
  induction rs as [|r rs (parts & Hparts & IH)]; simpl.
  - exists []. split; [reflexivity|]. intros i res Hi. discriminate.
  - destruct (resource_part_total r) as [part Hpart].
    rewrite Hpart, Hparts. exists (part :: parts). split; [reflexivity|].
    intros [|i] res Hi; simpl in *.
    + injection Hi as <-. exists part. split; [assumption | reflexivity].
    + apply IH. assumption.
Qed.

(** The outcomes of [build_mhtml]: the exception of [MIMEText], the
    exception of the serialization, or the message. *)
Lemma build_mhtml_cases (html_text html_name : string)
    (rs : list resource) (charset : string) :
  exists parts,
    resource_parts rs = Ok parts
    /\ build_mhtml html_text html_name rs charset
       = match mime_text_error html_text charset with
         | Some e => Err e
         | None =>
             match flatten (root_message html_text html_name charset parts)
             with
             | Err e => Err e
             | Ok _ => Ok (root_message html_text html_name charset parts)
             end
         end.
Proof.
  destruct (resource_parts_lookup rs) as (parts & Hparts & _).
  exists parts. split; [exact Hparts|]. unfold build_mhtml.
  rewrite Hparts. reflexivity.
Qed.

(** A message [build_mhtml] returns: the document part was built, the
    serialization succeeded, and part [i + 1] is the part of resource
    [i]. *)
Lemma build_mhtml_parts (html_text html_name : string)
    (rs : list resource) (charset : string) (msg : mime_multipart) :
  build_mhtml html_text html_name rs charset = Ok msg ->
  mime_text_error html_text charset = None
  /\ (exists mhtml_bytes, flatten msg = Ok mhtml_bytes)
  /\ forall i res, rs !! i = Some res ->
        exists part, resource_part res = Ok part
                     /\ mp_parts msg !! (S i) = Some part.
Proof.
  unfold build_mhtml.
  destruct (mime_text_error html_text charset) as [e|]; [discriminate|].
  destruct (resource_parts_lookup rs) as (parts & -> & Hl).
  match goal with
  | |- match flatten ?root with _ => _ end = _ -> _ =>
      destruct (flatten root) as [mhtml_bytes|e] eqn:Hflat; [|discriminate]
  end.
  intros [= <-]. split; [reflexivity|]. split; [eauto|]. exact Hl.
Qed.

(** C7, as amended: a resource whose MIME string has no [/] is emitted
    with the whole string as maintype and [octet-stream] as subtype: its
    part is built so, and so it stands in every message [build_mhtml]
    returns for a list with that resource. *)
Theorem build_mhtml_mime_without_slash (res : resource) (mime : string) :
  res_mime res = Some mime ->
  mem "/"%char mime = false ->
  (exists part,
     resource_part res = Ok part
     /\ part_maintype part = mime
     /\ part_subtype part = "octet-stream")
  /\ forall html_text html_name charset rs i msg,
       rs !! i = Some res ->
       build_mhtml html_text html_name rs charset = Ok msg ->
       exists part,
         mp_parts msg !! (S i) = Some part
         /\ part_maintype part = mime
         /\ part_subtype part = "octet-stream".
Proof.
  intros Hmime Hslash.
  assert (Hpart : forall part, resource_part res = Ok part ->
            part_maintype part = mime
            /\ part_subtype part = "octet-stream").
  { intros part Hp. unfold resource_part in Hp. rewrite Hmime in Hp.
    simpl in Hp. rewrite (split_mime_no_slash mime Hslash) in Hp.
    injection Hp as <-. split; reflexivity. }
  split.
  - destruct (resource_part_total res) as [part Hp].
    exists part. split; [exact Hp | apply Hpart, Hp].
  - intros html_text html_name charset rs i msg Hi Hmsg.
    destruct (build_mhtml_parts _ _ _ _ _ Hmsg) as (_ & _ & Hparts).
    destruct (Hparts i res Hi) as (part & Hp & Hlook).
    exists part. split; [exact Hlook | apply Hpart, Hp].
Qed.

End PackagerFacts.

Section PackagerRuns.
#[local] Existing Instance Demo.demo_library.
Import PyStr.

Lemma build_mhtml_mime_without_slash_witness :
  res_mime Demo.odd_resource = Some "image"
  /\ mem "/"%char "image" = false
  /\ exists msg part,
       build_mhtml "<p></p>" "index.html" [Demo.odd_resource] "utf-8" = Ok msg
       /\ mp_parts msg !! 1 = Some part
       /\ part_maintype part = "image"
       /\ part_subtype part = "octet-stream".
Proof.
  repeat (split; [reflexivity|]).
  destruct (build_mhtml "<p></p>" "index.html" [Demo.odd_resource] "utf-8")
    as [msg|e] eqn:Hmsg; [|vm_compute in Hmsg; discriminate].
  exists msg.
  destruct (build_mhtml_mime_without_slash Demo.odd_resource "image"
              eq_refl eq_refl) as (_ & Hin).
  destruct (Hin "<p></p>" "index.html" "utf-8" [Demo.odd_resource] 0 msg
              eq_refl Hmsg) as (part & Hp).
  exists part. split; [reflexivity | exact Hp].
Defined.

(** C7, as stated, fails: the MIME string [image] has no [/], and its
    part has maintype [image], not [application]. *)
Lemma build_mhtml_malformed_mime_counterexample :
  mem "/"%char "image" = false
  /\ exists msg part,
       build_mhtml "<p></p>" "index.html" [Demo.odd_resource] "utf-8" = Ok msg
       /\ mp_parts msg !! 1 = Some part
       /\ part_maintype part = "image"
       /\ part_maintype part <> "application".
Proof.
  split; [reflexivity|].
  do 2 eexists. split; [vm_compute; reflexivity|]. split; [reflexivity|].
  split; [reflexivity | discriminate].
Qed.

End PackagerRuns.

(** ** HTML Selector *)

Section SelectorFacts.
Import PyStr PyStrFacts.

Lemma endswith_nonempty (suf s : string) :
  nonempty suf = true -> endswith suf s = true -> nonempty s = true.
Proof.
  intros Hsuf Hs. apply endswith_spec in Hs as [pre ->].
  destruct pre; [exact Hsuf | reflexivity].
Qed.

Lemma lower_nonempty (s : string) : nonempty (lower s) = nonempty s.
Proof. destruct s; reflexivity. Qed.

(** A name that ends in .html or .htm is not empty, so it is true in
    [if not html_name]. *)
Lemma is_html_name_nonempty (n : string) :
  is_html_name n = true -> nonempty n = true.
Proof.
  unfold is_html_name. intros Hn. rewrite <- lower_nonempty.
  apply orb_true_iff in Hn as [Hn|Hn];
    eapply endswith_nonempty; try exact Hn; reflexivity.
Qed.

(** [pick_main_html] returns the first name, in listing order, that ends
    in .html or .htm. *)
Lemma pick_main_html_first (pre post : list string) (n : string) :
  Forall (fun x => is_html_name x = false) pre ->
  is_html_name n = true ->
  pick_main_html (pre ++ n :: post) = n.
Proof.
  intros Hpre Hn. induction Hpre as [|x pre Hx _ IH]; simpl.
  - rewrite Hn. reflexivity.
  - rewrite Hx. exact IH.
Qed.

Lemma pick_main_html_none (names : list string) :
  Forall (fun x => is_html_name x = false) names ->
  pick_main_html names = EmptyString.
Proof.
  intros Hall. induction Hall as [|x l Hx _ IH]; simpl; [reflexivity|].
  rewrite Hx. exact IH.
Qed.

Lemma has_html_split (names : list string) :
  has_html names = true ->
  exists pre n post,
    names = (pre ++ n :: post)%list
    /\ Forall (fun x => is_html_name x = false) pre
    /\ is_html_name n = true.
Proof.
  unfold has_html.
  induction names as [|x l IH]; simpl; [discriminate|].
  destruct (is_html_name x) eqn:Hx; simpl.
  - intros _. exists [], x, l. repeat split; [constructor | assumption].
  - intros Hl. destruct (IH Hl) as (pre & n & post & -> & Hpre & Hn).
    exists (x :: pre), n, post. repeat split; [|assumption].
    constructor; assumption.
Qed.

Lemma select_main_html_first (names pre post : list string) (n : string) :
  names = (pre ++ n :: post)%list ->
  Forall (fun x => is_html_name x = false) pre ->
  is_html_name n = true ->
  select_main_html names None = Ok n.
Proof.
  intros -> Hpre Hn. unfold select_main_html.
  rewrite (pick_main_html_first _ _ _ Hpre Hn).
  rewrite (is_html_name_nonempty _ Hn). reflexivity.
Qed.

Lemma select_main_html_no_html (names : list string) :
  Forall (fun x => is_html_name x = false) names ->
  select_main_html names None = Err (RuntimeError NoHtmlFound).
Proof.
  intros Hall. unfold select_main_html.
  rewrite (pick_main_html_none _ Hall). reflexivity.
Qed.

(** The empty override is no override. *)
Lemma select_main_html_empty_override (names : list string) :
  select_main_html names (Some EmptyString) = select_main_html names None.
Proof. reflexivity. Qed.

(** C9, as amended: a non-empty override selects the entry equal to it and
    fails with HtmlOverrideNotFound when no entry equals it; no override,
    or the empty override, selects the first entry whose name ends in
    .html or .htm, and fails with NoHtmlFound when there is none. *)
Theorem select_main_html_spec (names : list string) :
  (forall o, o <> EmptyString -> o ∈ names ->
     select_main_html names (Some o) = Ok o)
  /\ (forall o, o <> EmptyString -> o ∉ names ->
        select_main_html names (Some o)
        = Err (RuntimeError HtmlOverrideNotFound))
  /\ (forall ov pre n post,
        ov = None \/ ov = Some EmptyString ->
        names = (pre ++ n :: post)%list ->
        Forall (fun x => is_html_name x = false) pre ->
        is_html_name n = true ->
        select_main_html names ov = Ok n)
  /\ (forall ov,
        ov = None \/ ov = Some EmptyString ->
        Forall (fun x => is_html_name x = false) names ->
        select_main_html names ov = Err (RuntimeError NoHtmlFound)).
Proof.
  repeat split.
  - intros o Ho Hin. unfold select_main_html.
    destruct o as [|c o]; [congruence|]. simpl.
    rewrite bool_decide_eq_true_2 by assumption. reflexivity.
  - intros o Ho Hin. unfold select_main_html.
    destruct o as [|c o]; [congruence|]. simpl.
    rewrite bool_decide_eq_false_2 by assumption. reflexivity.
  - intros ov pre n post Hov Hnames Hpre Hn.
    destruct Hov as [->| ->]; rewrite ?select_main_html_empty_override;
      eapply select_main_html_first; eassumption.
  - intros ov Hov Hall.
    destruct Hov as [->| ->]; rewrite ?select_main_html_empty_override;
      apply select_main_html_no_html; assumption.
Qed.

Lemma select_main_html_spec_witness :
  select_main_html ["a.html"; "b.html"] (Some "b.html") = Ok "b.html"
  /\ select_main_html ["a.html"; "b.html"] (Some "c.html")
     = Err (RuntimeError HtmlOverrideNotFound)
  /\ select_main_html ["a.txt"; "B.HTM"; "c.html"] None = Ok "B.HTM"
  /\ select_main_html ["a.txt"] None = Err (RuntimeError NoHtmlFound).
Proof.
  split; [|split; [|split]].
  - destruct (select_main_html_spec ["a.html"; "b.html"]) as (Hsel & _).
    apply Hsel; [discriminate | by_decide].
  - destruct (select_main_html_spec ["a.html"; "b.html"]) as (_ & Hno & _).
    apply Hno; [discriminate | by_decide].
  - destruct (select_main_html_spec ["a.txt"; "B.HTM"; "c.html"])
      as (_ & _ & Hfirst & _).
    apply (Hfirst None ["a.txt"] "B.HTM" ["c.html"]);
      [left; reflexivity | reflexivity | repeat constructor | reflexivity].
  - destruct (select_main_html_spec ["a.txt"]) as (_ & _ & _ & Hnone).
    apply Hnone; [left; reflexivity | repeat constructor].
Defined.

(** C9, as stated, fails for the empty override: no entry equals it, and
    the selection does not fail but returns the first HTML entry. *)
Lemma select_main_html_empty_override_counterexample :
  (EmptyString ∉ ["a.html"; "b.html"])
  /\ select_main_html ["a.html"; "b.html"] (Some EmptyString) = Ok "a.html"
  /\ select_main_html ["a.html"; "b.html"] (Some EmptyString)
     <> Err (RuntimeError HtmlOverrideNotFound).
Proof.
  split; [by_decide|].
  split; [reflexivity | discriminate].
Qed.

End SelectorFacts.

(** ** Archive Navigator *)

Section NavigatorFacts.
Context `{Library}.


Lemma helper_eq (fuel : nat) (max_depth : Z) (b : bytes) (depth : Z)
    (seen : seen_set) :
  helper fuel max_depth b depth seen =
  if (max_depth <? depth)%Z then (Ok None, seen)
  else
    match fuel with
    | O => (Ok None, seen)
    | S fuel' =>
        except_BadZipFile
          (helper_body (fun child => helper fuel' max_depth child (depth + 1))
             b seen)
    end.
Proof. destruct fuel; reflexivity. Qed.



Lemma except_BadZipFile_some {S : Type} (r : result (option bytes) * S)
    (l : bytes) (s : S) :
  except_BadZipFile r = (Ok (Some l), s) -> r = (Ok (Some l), s).
Proof. destruct r as [[o|[]] s0]; simpl; congruence. Qed.

(** What the loop over the names returns comes from a recursive call. *)
Lemma helper_loop_some
    (rec : bytes -> seen_set -> result (option bytes) * seen_set)
    (P : bytes -> Prop) (zf : ZipFile) (names : list string) :
  (forall child s l s', rec child s = (Ok (Some l), s') -> P l) ->
  forall seen l seen',
    helper_loop rec zf names seen = (Ok (Some l), seen') -> P l.
Proof.
  intros Hrec. induction names as [|n names IH]; intros seen l seen' Hl;
    simpl in Hl; [discriminate|].
  destruct (is_zip_name n); simpl in Hl; [|eauto].
  destruct (read zf n) as [child|e].
  - destruct (bool_decide _); [eauto|].
    destruct (rec child _) as [[[r|]|e] s1] eqn:Hc.
    + injection Hl as <- <-. eauto.
    + eauto.
    + discriminate.
  - destruct e; try discriminate. eauto.
Qed.

(** A layer [helper] returns opens and lists an HTML entry. *)
Lemma helper_returns_html_layer (max_depth : Z) (fuel : nat) :
  forall b depth seen l seen',
    helper fuel max_depth b depth seen = (Ok (Some l), seen') ->
    html_layer l.
Proof.
  induction fuel as [|fuel IH]; intros b depth seen l seen' Hl;
    rewrite helper_eq in Hl;
    destruct (max_depth <? depth)%Z; try discriminate.
  apply except_BadZipFile_some in Hl. unfold helper_body in Hl.
  destruct (zip_open b) as [zf|e] eqn:Hopen; [|discriminate].
  destruct (has_html (layer_names zf)) eqn:Hhtml.
  - injection Hl as <- <-. exists zf. split; assumption.
  - eapply helper_loop_some; [|exact Hl]. intros child s. apply IH.
Qed.

Lemma find_leaf_returns_html_layer (root : bytes) (max_depth : Z)
    (leaf : bytes) :
  find_leaf_zip_with_html root max_depth = Ok (Some leaf) ->
  html_layer leaf.
Proof.
  unfold find_leaf_zip_with_html.
  destruct (helper _ max_depth root 0 ∅) as [r s] eqn:Hh. simpl. intros ->.
  eapply helper_returns_html_layer. exact Hh.
Qed.

(** The loop depends on the recursive call by its values only. *)
Lemma helper_loop_ext
    (rec1 rec2 : bytes -> seen_set -> result (option bytes) * seen_set)
    (zf : ZipFile) (names : list string) :
  (forall child seen, rec1 child seen = rec2 child seen) ->
  forall seen,
    helper_loop rec1 zf names seen = helper_loop rec2 zf names seen.
Proof.
  intros Hrec. induction names as [|n names IH]; intros seen; simpl;
    [reflexivity|].
  destruct (is_zip_name n); simpl; [|apply IH].
  destruct (read zf n) as [child|e].
  - destruct (bool_decide _); [apply IH|]. rewrite Hrec.
    destruct (rec2 child _) as [[[r|]|e] s1]; try reflexivity. apply IH.
  - destruct e; try reflexivity. apply IH.
Qed.

(** With the fuel a call needs, and with any more, [helper] returns the
    same: the fuel never ends the descent. *)
Lemma helper_fuel_enough (max_depth : Z) (fuel : nat) :
  forall fuel' b depth seen,
    Z.to_nat (max_depth - depth + 1) <= fuel ->
    Z.to_nat (max_depth - depth + 1) <= fuel' ->
    helper fuel max_depth b depth seen = helper fuel' max_depth b depth seen.
Proof.
  induction fuel as [|fuel IH]; intros fuel' b depth seen Hf Hf';
    rewrite (helper_eq _ _ _ _ _), (helper_eq fuel').
  - destruct (Z.ltb_spec max_depth depth) as [Hd|Hd]; [reflexivity|lia].
  - destruct (Z.ltb_spec max_depth depth) as [Hd|Hd]; [reflexivity|].
    destruct fuel' as [|fuel']; [lia|].
    unfold helper_body. destruct (zip_open b) as [zf|e]; [|reflexivity].
    destruct (has_html (layer_names zf)); [reflexivity|].
    f_equal. apply helper_loop_ext. intros child s. apply IH; lia.
Qed.


(** C10: on a layer [find_leaf_zip_with_html] returns, the selection
    without an override succeeds with an entry of the layer whose name
    ends in .html or .htm, and [process_zip] goes on with it; the branch
    NoHtmlFound is not taken. *)
Theorem find_leaf_then_select_succeeds (root : bytes) (max_depth : Z)
    (leaf : bytes) :
  find_leaf_zip_with_html root max_depth = Ok (Some leaf) ->
  exists zf n,
    zip_open leaf = Ok zf
    /\ select_main_html (layer_names zf) None = Ok n
    /\ n ∈ layer_names zf
    /\ is_html_name n = true
    /\ (max_depth = 10%Z ->
        process_zip root None = convert_document zf (layer_names zf) n).
Proof.
  intros Hleaf.
  destruct (find_leaf_returns_html_layer _ _ _ Hleaf) as (zf & Hopen & Hhtml).
  destruct (has_html_split _ Hhtml) as (pre & n & post & Hnames & Hpre & Hn).
  assert (Hsel : select_main_html (layer_names zf) None = Ok n)
    by (eapply select_main_html_first; eassumption).
  exists zf, n. repeat split; try assumption.
  - rewrite Hnames. apply elem_of_app. right. left.
  - intros ->. unfold process_zip. rewrite Hleaf, Hopen, Hsel. reflexivity.
Qed.

End NavigatorFacts.

Section NavigatorRuns.
#[local] Existing Instance Demo.demo_library.



Lemma find_leaf_then_select_succeeds_witness :
  find_leaf_zip_with_html Demo.outer_zip 10 = Ok (Some Demo.flat_zip)
  /\ exists zf n,
       zip_open Demo.flat_zip = Ok zf
       /\ select_main_html (layer_names zf) None = Ok n
       /\ n ∈ layer_names zf
       /\ is_html_name n = true
       /\ (10%Z = 10%Z ->
           process_zip Demo.outer_zip None
           = convert_document zf (layer_names zf) n).
Proof.
  split; [reflexivity|].
  apply (find_leaf_then_select_succeeds Demo.outer_zip 10 Demo.flat_zip).
  reflexivity.
Defined.

End NavigatorRuns.
Example resolve_rooted :
  resolve_rel_path "sub/index.html" "/img/a.png" = "img/a.png".
Proof. reflexivity. Qed.

Example resolve_relative :
  resolve_rel_path "sub/index.html" "img/a.png" = "sub/img/a.png".
Proof. reflexivity. Qed.

Example resolve_dots :
  resolve_rel_path "sub/doc/index.html" ".././img//a.png" = "sub/img/a.png".
Proof. reflexivity. Qed.

Example resolve_dot_spelling :
  resolve_rel_path "index.html" "./img/a.png"
  = resolve_rel_path "index.html" "img/a.png".
Proof. reflexivity. Qed.

Example resolve_backslash :
  resolve_rel_path "sub/index.html" "\img\a.png" = "img/a.png".
Proof. reflexivity. Qed.

Example resolve_above_root :
  resolve_rel_path "index.html" "../a.png" = "../a.png".
Proof. reflexivity. Qed.

Example resolve_empty_root :
  resolve_rel_path "sub/index.html" "/" = ".".
Proof. reflexivity. Qed.


(** ** Path Resolver *)

Section PathFacts.
Import PyStr PyStrFacts PosixPath.

Lemma elem_of_removelast {A : Type} (x : A) (l : list A) :
  x ∈ removelast l -> x ∈ l.
Proof.
  induction l as [|a l IH]; simpl; [trivial|].
  destruct l as [|b l]; [intros Hx; inversion Hx|].
  intros Hx. apply elem_of_cons in Hx as [->|Hx].
  - left.
  - right. apply IH. exact Hx.
Qed.

Lemma Forall_removelast {A : Type} (P : A -> Prop) (l : list A) :
  Forall P l -> Forall P (removelast l).
Proof.
  rewrite !Forall_forall. intros Hl x Hx. apply Hl.
  apply elem_of_removelast. exact Hx.
Qed.

Lemma last_replicate_S {A : Type} (k : nat) (x : A) :
  last (replicate (S k) x) = Some x.
Proof. rewrite replicate_S_end. apply last_snoc. Qed.

Lemma collapsed_intro (i k : nat) (rest : list string) :
  EmptyString ∉ rest -> "." ∉ rest -> ".." ∉ rest ->
  (i <> 0 -> k = 0) ->
  collapsed i (replicate k ".." ++ rest).
Proof.
  intros Hempty Hdot Hdd Hk.
  split; [|split].
  - apply not_elem_of_app. split; [|assumption].
    intros Hx. apply elem_of_replicate_inv in Hx. discriminate.
  - apply not_elem_of_app. split; [|assumption].
    intros Hx. apply elem_of_replicate_inv in Hx. discriminate.
  - exists k, rest. auto.
Qed.

Lemma collapsed_inv (i : nat) (cs : list string) :
  collapsed i cs ->
  exists k rest,
    cs = (replicate k ".." ++ rest)%list
    /\ (EmptyString ∉ rest) /\ ("." ∉ rest) /\ (".." ∉ rest)
    /\ (i <> 0 -> k = 0).
Proof.
  intros (Hempty & Hdot & k & rest & -> & Hdd & Hk).
  apply not_elem_of_app in Hempty as [_ Hempty].
  apply not_elem_of_app in Hdot as [_ Hdot].
  exists k, rest. auto.
Qed.

Lemma not_elem_of_removelast {A : Type} (x : A) (l : list A) :
  x ∉ l -> x ∉ removelast l.
Proof. intros Hx Hin. apply Hx, elem_of_removelast, Hin. Qed.

(** One step of the loop keeps the components collapsed. *)
Lemma normpath_step_collapsed (i : nat) (cs : list string) (c : string) :
  collapsed i cs -> collapsed i (normpath_step i cs c).
Proof.
  intros Hcs. pose proof Hcs as Hcs0.
  apply collapsed_inv in Hcs as (k & rest & -> & Hempty & Hdot & Hdd & Hk).
  unfold normpath_step.
  destruct (String.eqb_spec c EmptyString) as [->|Hc1]; [exact Hcs0|].
  destruct (String.eqb_spec c ".") as [->|Hc2]; [exact Hcs0|].
  cbn [orb negb].
  destruct (String.eqb_spec c "..") as [->|Hc3]; cbn [negb orb].
  - (* a double dot *)
    destruct rest as [|r rest0].
    + (* the components are double dots only *)
      rewrite app_nil_r.
      destruct k as [|k].
      * (* no component at all *)
        cbn [replicate last]. rewrite bool_decide_eq_true_2 by reflexivity.
        destruct (Nat.eqb_spec i 0) as [Hi|Hi]; cbn [andb orb].
        -- apply (collapsed_intro i 1 []); solve_notin.
        -- apply (collapsed_intro i 0 []); solve_notin.
      * (* the run grows *)
        rewrite last_replicate_S. cbn [String.eqb Ascii.eqb].
        rewrite orb_true_r.
        assert (i = 0) as -> by (destruct i; [reflexivity|]; lia).
        rewrite <- replicate_S_end, <- (app_nil_r (replicate _ _)).
        apply (collapsed_intro 0 (S (S k)) []); solve_notin.
    + (* the last component is a name: it is popped *)
      assert (Hlast : exists l, last (replicate k ".." ++ r :: rest0) = Some l
                                /\ l <> "..").
      { rewrite last_app. destruct (last (r :: rest0)) as [l|] eqn:Hl.
        - exists l. split; [reflexivity|]. intros ->.
          apply last_Some_elem_of in Hl. contradiction.
        - apply last_None in Hl. discriminate. }
      destruct Hlast as (l & -> & Hl).
      destruct (String.eqb_spec l "..") as [?|_]; [contradiction|].
      rewrite bool_decide_eq_false_2
        by (destruct k; discriminate).
      rewrite andb_false_r. cbn [orb].
      rewrite removelast_app by discriminate.
      apply collapsed_intro; auto using not_elem_of_removelast.
  - (* a name *)
    rewrite <- app_assoc.
    apply collapsed_intro; solve_notin.
Qed.

Lemma collapsed_nil (i : nat) : collapsed i [].
Proof. apply (collapsed_intro i 0 []); solve_notin. Qed.

Lemma normpath_comps_collapsed (i : nat) (comps : list string) :
  collapsed i (normpath_comps i comps).
Proof.
  unfold normpath_comps. generalize (collapsed_nil i).
  generalize (@nil string) as acc.
  induction comps as [|c comps IH]; intros acc Hacc; simpl; [assumption|].
  apply IH. apply normpath_step_collapsed. assumption.
Qed.

Lemma normpath_step_Forall (P : string -> Prop) (i : nat)
    (cs : list string) (c : string) :
  Forall P cs -> P c -> Forall P (normpath_step i cs c).
Proof.
  intros Hcs Hc. unfold normpath_step.
  repeat match goal with
         | |- context [if ?b then _ else _] => destruct b
         end; auto using Forall_removelast.
  all: apply Forall_app; split; auto.
Qed.

(** The loop keeps components of the split path only. *)
Lemma normpath_comps_Forall (P : string -> Prop) (i : nat)
    (comps : list string) :
  Forall P comps -> Forall P (normpath_comps i comps).
Proof.
  unfold normpath_comps.
  assert (Hnil : Forall P []) by constructor. revert Hnil.
  generalize (@nil string) as acc.
  induction comps as [|c comps IH]; intros acc Hacc Hall; simpl;
    [assumption|].
  inversion Hall; subst. apply IH; [|assumption].
  apply normpath_step_Forall; assumption.
Qed.

(** [normpath] returns a rendered list of collapsed components. *)
Lemma normpath_normal_form (path : string) :
  exists comps,
    normpath path = render (initial_slashes_of path) comps
    /\ collapsed (initial_slashes_of path) comps
    /\ Forall (fun c => mem sep c = false) comps.
Proof.
  unfold normpath. destruct (String.eqb_spec path EmptyString) as [->|Hne].
  - exists []. split; [reflexivity|]. split; [apply collapsed_nil|constructor].
  - exists (normpath_comps (initial_slashes_of path) (split sep path)).
    split; [reflexivity|]. split; [apply normpath_comps_collapsed|].
    apply normpath_comps_Forall, split_sep_free.
Qed.

Lemma lstrip_not_startswith (s : string) :
  startswith "/" (lstrip is_slash s) = false.
Proof.
  induction s as [|c s IH]; [reflexivity|]. cbn [lstrip].
  destruct (is_slash c) eqn:Hc; [exact IH|]. cbn [startswith].
  unfold is_slash in Hc. apply orb_false_iff in Hc as [Hc _].
  rewrite Ascii.eqb_sym, Hc. reflexivity.
Qed.

End PathFacts.

(** ** Encoding Detector *)

Section EncodingFacts.
Import PyStr PyStrFacts.

(** A literal matched without regard to case: the matched text has the
    letters of the literal. *)
Lemma match_literal_ci_some (lit s m r : string) :
  match_literal_ci lit s = Some (m, r) ->
  s = m ++ r /\ lower m = lower lit.
Proof.
  revert s m r. induction lit as [|a lit IH]; intros s m r Hm.
  - simpl in Hm. injection Hm as <- <-. split; reflexivity.
  - destruct s as [|b s]; simpl in Hm; [discriminate|].
    destruct (Ascii.eqb_spec (lower_char a) (lower_char b)) as [Hab|];
      [|discriminate].
    destruct (match_literal_ci lit s) as [[m' r']|] eqn:Hs; [|discriminate].
    injection Hm as <- <-. destruct (IH _ _ _ Hs) as (-> & Hl).
    rewrite append_cons. simpl. rewrite Hl, Hab. split; reflexivity.
Qed.

Lemma match_literal_ci_intro (lit m r : string) :
  lower m = lower lit -> match_literal_ci lit (m ++ r) = Some (m, r).
Proof.
  revert m. induction lit as [|a lit IH]; intros m Hm.
  - destruct m; [reflexivity | discriminate].
  - destruct m as [|b m]; [discriminate|]. simpl in Hm.
    injection Hm as Hb Hm. rewrite append_cons. simpl.
    rewrite Hb, Ascii.eqb_refl, (IH _ Hm). reflexivity.
Qed.

Lemma quote_not_token (c : ascii) : is_quote c = true -> is_token_char c = false.
Proof.
  unfold is_quote. intros Hq. apply orb_true_iff in Hq as [Hq|Hq];
    apply Ascii.eqb_eq in Hq; subst c; reflexivity.
Qed.

Lemma charset_token_some (s tok : string) :
  charset_token s = Some tok <->
  nonempty tok = true /\ all is_token_char tok = true
  /\ exists rest, s = tok ++ rest /\ not_starting_with is_token_char rest.
Proof.
  unfold charset_token. split.
  - destruct (span is_token_char s) as [a b] eqn:Hs. simpl.
    destruct (nonempty a) eqn:Ha; [|discriminate]. intros [= <-].
    destruct (span_app _ _ _ _ Hs) as (-> & Hall & Hb). eauto.
  - intros (Hne & Hall & rest & -> & Hrest).
    rewrite (span_intro _ _ _ Hall Hrest). simpl. rewrite Hne. reflexivity.
Qed.

Lemma charset_token_quote (q : ascii) (s : string) :
  is_quote q = true -> charset_token (String q s) = None.
Proof.
  intros Hq. unfold charset_token. simpl.
  rewrite (quote_not_token _ Hq). reflexivity.
Qed.

(** The match at one position is a charset declaration there. *)
Lemma charset_match_at_spec (s tok : string) :
  charset_match_at s = Some tok <-> charset_declaration s tok.
Proof.
  unfold charset_match_at, charset_declaration. split.
  - destruct (match_literal_ci "charset=" s) as [[kw r]|] eqn:Hkw;
      [|discriminate].
    apply match_literal_ci_some in Hkw as (-> & Hkw).
    assert (Hplain : charset_token r = Some tok ->
              exists kw0 q rest, kw ++ r = kw0 ++ q ++ tok ++ rest
                /\ lower kw0 = "charset="
                /\ (q = EmptyString \/ q = chr double_quote
                    \/ q = chr single_quote)
                /\ nonempty tok = true /\ all is_token_char tok = true
                /\ not_starting_with is_token_char rest).
    { intros Ht. apply charset_token_some in Ht
        as (Hne & Hall & rest & -> & Hrest).
      exists kw, EmptyString, rest. rewrite append_nil_l. auto 10. }
    destruct r as [|q r']; [exact Hplain|].
    destruct (is_quote q) eqn:Hq; [|exact Hplain].
    destruct (charset_token r') as [t|] eqn:Ht.
    + intros [= ->]. apply charset_token_some in Ht
        as (Hne & Hall & rest & -> & Hrest).
      exists kw, (chr q), rest. repeat split; auto.
      unfold is_quote in Hq. apply orb_true_iff in Hq as [Hq|Hq];
        apply Ascii.eqb_eq in Hq; subst q; auto.
    + rewrite (charset_token_quote _ _ Hq). discriminate.
  - intros (kw & q & rest & -> & Hkw & Hq & Hne & Hall & Hrest).
    rewrite (match_literal_ci_intro "charset=" kw _ Hkw).
    assert (Htok : charset_token (tok ++ rest) = Some tok).
    { apply charset_token_some. eauto. }
    destruct Hq as [->|Hq].
    + rewrite append_nil_l.
      destruct tok as [|c tok]; [discriminate|]. rewrite append_cons in *.
      simpl in Hall. apply andb_true_iff in Hall as [Hc _].
      destruct (is_quote c) eqn:Hqc; [|exact Htok].
      rewrite (quote_not_token _ Hqc) in Hc. discriminate.
    + assert (Hq' : exists c, q = chr c /\ is_quote c = true).
      { destruct Hq as [->| ->]; eexists; split; reflexivity. }
      destruct Hq' as (c & -> & Hc). unfold chr.
      rewrite append_cons, append_nil_l, Hc, Htok. reflexivity.
Qed.

Lemma charset_search_eq (s : string) :
  charset_search s =
  match charset_match_at s with
  | Some tok => Some tok
  | None =>
      match s with
      | EmptyString => None
      | String _ s' => charset_search s'
      end
  end.
Proof. destruct s; reflexivity. Qed.

(** [charset_search] returns the declaration at the leftmost position
    that has one. *)
Lemma charset_search_first (pre s tok : string) :
  charset_match_at s = Some tok ->
  (forall pre' s', pre ++ s = pre' ++ s' ->
     String.length pre' < String.length pre ->
     charset_match_at s' = None) ->
  charset_search (pre ++ s) = Some tok.
Proof.
  intros Hs. induction pre as [|c pre IH]; intros Hbefore.
  - rewrite append_nil_l, charset_search_eq, Hs. reflexivity.
  - rewrite append_cons, charset_search_eq.
    rewrite (Hbefore EmptyString (String c (pre ++ s)))
      by (rewrite ?append_nil_l, ?append_cons; simpl; (reflexivity || lia)).
    apply IH. intros pre' s' Heq Hlen.
    apply (Hbefore (String c pre') s').
    + rewrite !append_cons, Heq. reflexivity.
    + simpl. lia.
Qed.

Lemma charset_search_none (s : string) :
  (forall pre s', s = pre ++ s' -> charset_match_at s' = None) ->
  charset_search s = None.
Proof.
  induction s as [|c s IH]; intros Hnone; rewrite charset_search_eq.
  - rewrite (Hnone EmptyString EmptyString) by reflexivity.
    reflexivity.
  - rewrite (Hnone EmptyString (String c s)) by reflexivity.
    apply IH. intros pre s' ->. apply (Hnone (String c pre)). reflexivity.
Qed.

Lemma charset_search_some (s tok : string) :
  charset_search s = Some tok ->
  exists pre s', s = pre ++ s' /\ charset_match_at s' = Some tok.
Proof.
  induction s as [|c s IH]; rewrite charset_search_eq.
  - destruct (charset_match_at EmptyString) eqn:Hm; [|discriminate].
    intros [= ->]. exists EmptyString, EmptyString. auto.
  - destruct (charset_match_at (String c s)) eqn:Hm.
    + intros [= ->]. exists EmptyString, (String c s). auto.
    + intros Hs. destruct (IH Hs) as (pre & s' & -> & Hs').
      exists (String c pre), s'. auto.
Qed.

Lemma charset_search_found (pre s tok : string) :
  charset_match_at s = Some tok -> charset_search (pre ++ s) <> None.
Proof.
  intros Hs. induction pre as [|c pre IH].
  - rewrite append_nil_l, charset_search_eq, Hs. discriminate.
  - rewrite append_cons, charset_search_eq.
    destruct (charset_match_at (String c (pre ++ s))); [discriminate|].
    exact IH.
Qed.

(** The decoding of the code gives the head text of the specification. *)
Lemma decode_ascii_ignore_filter (b : bytes) :
  decode_ascii_ignore b
  = string_of_list_ascii (map ascii_of_byte (List.filter is_ascii_byte b)).
Proof.
  induction b as [|x b IH]; [reflexivity|]. simpl. unfold is_ascii_byte.
  destruct (Strings.Byte.to_nat x <? 128)%nat; simpl; rewrite IH;
    reflexivity.
Qed.

Lemma decode_ascii_ignore_head (html_bytes : bytes) :
  decode_ascii_ignore (firstn (Z.to_nat 8192) html_bytes)
  = head_text html_bytes.
Proof. apply decode_ascii_ignore_filter. Qed.

(** [detect_encoding] without a byte-order mark. *)
Lemma detect_encoding_no_bom (html_bytes : bytes) :
  no_bom html_bytes ->
  detect_encoding html_bytes
  = match charset_search (head_text html_bytes) with
    | Some tok => lower tok
    | None => "utf-8"
    end.
Proof.
  intros (H8 & Hle & Hbe). unfold detect_encoding.
  rewrite H8, Hle, Hbe, decode_ascii_ignore_head. reflexivity.
Qed.

(** C4: a UTF-8 byte-order mark gives utf-8 whatever follows; a UTF-16
    byte-order mark gives the UTF-16 name of its byte order; without a
    byte-order mark, the leftmost charset declaration in the head text
    gives its token in lower case; without any declaration, utf-8.  The
    head text is the one of the specification: the bytes below 128 of
    the first 8192 bytes. *)
Theorem detect_encoding_spec :
  (forall rest, detect_encoding (BOM_UTF8 ++ rest) = "utf-8")
  /\ (forall rest, detect_encoding (BOM_UTF16_LE ++ rest) = "utf-16le")
  /\ (forall rest, detect_encoding (BOM_UTF16_BE ++ rest) = "utf-16be")
  /\ (forall html_bytes pre s tok,
        no_bom html_bytes ->
        head_text html_bytes = pre ++ s ->
        charset_declaration s tok ->
        (forall pre' s' tok',
           head_text html_bytes = pre' ++ s' ->
           String.length pre' < String.length pre ->
           ~ charset_declaration s' tok') ->
        detect_encoding html_bytes = lower tok)
  /\ (forall html_bytes,
        no_bom html_bytes ->
        (forall pre s tok,
           head_text html_bytes = pre ++ s -> ~ charset_declaration s tok) ->
        detect_encoding html_bytes = "utf-8").
Proof.
  split; [|split; [|split; [|split]]].
  - intros rest. reflexivity.
  - intros rest. reflexivity.
  - intros rest. reflexivity.
  - intros html_bytes pre s tok Hbom Hhead Hdecl Hfirst.
    rewrite (detect_encoding_no_bom _ Hbom), Hhead.
    rewrite (charset_search_first pre s tok); [reflexivity| |].
    + apply charset_match_at_spec. exact Hdecl.
    + intros pre' s' Heq Hlen.
      destruct (charset_match_at s') as [tok'|] eqn:Hm; [|reflexivity].
      exfalso. apply (Hfirst pre' s' tok'); [congruence | exact Hlen |].
      apply charset_match_at_spec. exact Hm.
  - intros html_bytes Hbom Hnone.
    rewrite (detect_encoding_no_bom _ Hbom).
    rewrite charset_search_none; [reflexivity|].
    intros pre s' Heq.
    destruct (charset_match_at s') as [tok'|] eqn:Hm; [|reflexivity].
    exfalso. apply (Hnone pre s' tok' Heq).
    apply charset_match_at_spec. exact Hm.
Qed.

End EncodingFacts.

Section EncodingChecks.
Import PyStr PyStrFacts.

Lemma drop_append (pre s : string) :
  drop (String.length pre) (pre ++ s) = s.
Proof.
  induction pre as [|c pre IH]; [destruct s; reflexivity|].
  rewrite append_cons. simpl. exact IH.
Qed.

(** A check, by evaluation, that no declaration begins before position
    [n] of [text]. *)
Lemma no_declaration_before (text : string) (n : nat) :
  forallb (fun i => bool_decide (charset_match_at (drop i text) = None))
          (seq 0 n) = true ->
  forall pre s tok,
    text = pre ++ s -> String.length pre < n -> ~ charset_declaration s tok.
Proof.
  intros Hall pre s tok -> Hlen Hdecl.
  rewrite forallb_forall in Hall.
  specialize (Hall (String.length pre)).
  rewrite drop_append in Hall.
  apply charset_match_at_spec in Hdecl.
  assert (Hin : In (String.length pre) (seq 0 n)) by (apply in_seq; lia).
  apply Hall in Hin. apply bool_decide_eq_true_1 in Hin. congruence.
Qed.

Lemma token_char_lower (c : ascii) :
  is_token_char c = true -> is_name_char (lower_char c) = true.
Proof.
  destruct c as [[] [] [] [] [] [] [] []]; intros Hc;
    solve [reflexivity | discriminate Hc].
Qed.

Lemma token_lower (tok : string) :
  all is_token_char tok = true -> all is_name_char (lower tok) = true.
Proof.
  induction tok as [|c tok IH]; simpl; [reflexivity|].
  intros Hc. apply andb_true_iff in Hc as [Hc Htok].
  rewrite (token_char_lower _ Hc), (IH Htok). reflexivity.
Qed.

End EncodingChecks.

Section EncodingRuns.
Import PyStr.

Lemma detect_encoding_spec_witness :
  detect_encoding Demo.meta_gb2312 = "gb2312"
  /\ head_text Demo.meta_interrupted = "<meta charset=GBK>"
  /\ detect_encoding Demo.meta_interrupted = "gbk".
Proof.
  destruct detect_encoding_spec as (_ & _ & _ & Hdecl & _).
  split; [|split; [vm_compute; reflexivity|]].
  - apply (Hdecl Demo.meta_gb2312 "<html><meta "
             ("charset=" ++ Demo.dq ++ "GB2312" ++ Demo.dq ++ "></html>")
             "GB2312").
    + repeat split.
    + vm_compute. reflexivity.
    + exists "charset=", Demo.dq, (Demo.dq ++ "></html>").
      split; [reflexivity|]. split; [reflexivity|].
      split; [right; left; reflexivity|]. repeat split.
    + apply no_declaration_before. vm_compute. reflexivity.
  - apply (Hdecl Demo.meta_interrupted "<meta " "charset=GBK>" "GBK").
    + repeat split.
    + vm_compute. reflexivity.
    + exists "charset=", EmptyString, ">".
      split; [reflexivity|]. split; [reflexivity|].
      split; [left; reflexivity|]. repeat split.
    + apply no_declaration_before. vm_compute. reflexivity.
Defined.

End EncodingRuns.

Section DecodingFacts.
Context `{Library}.
Import PyStr PyStrFacts.

(** C8, as amended: the detector raises nothing and returns a non-empty
    name of lower-case letters, digits, underscores and hyphens: one of
    the three names of the byte-order marks and the default, or the token
    of a declaration in lower case.  Without a byte-order mark, a
    declaration is taken as soon as one token character follows the
    keyword and an optional quote, so a declaration cut short gives its
    token as far as it goes, and only a head text without any declaration
    gives the default utf-8.  The name is not checked: when decoding the
    document with it raises, the conversion ends with that exception. *)
Theorem detect_encoding_name (html_bytes : bytes) :
  let name := detect_encoding html_bytes in
  nonempty name = true
  /\ all is_name_char name = true
  /\ (name = "utf-8" \/ name = "utf-16le" \/ name = "utf-16be"
      \/ exists pre s tok,
           head_text html_bytes = pre ++ s
           /\ charset_declaration s tok
           /\ name = lower tok)
  /\ (no_bom html_bytes ->
      (exists pre s tok,
         head_text html_bytes = pre ++ s /\ charset_declaration s tok) ->
      exists pre s tok,
        head_text html_bytes = pre ++ s
        /\ charset_declaration s tok
        /\ name = lower tok)
  /\ (no_bom html_bytes ->
      (forall pre s tok,
         head_text html_bytes = pre ++ s -> ~ charset_declaration s tok) ->
      name = "utf-8")
  /\ (forall zf names html_name e,
        read zf html_name = Ok html_bytes ->
        decode name html_bytes = Err e ->
        convert_document zf names html_name = Err e).
Proof.
  intros name.
  assert (Hn : name = detect_encoding html_bytes) by reflexivity.
  clearbody name.
  assert (Hfound : forall tok,
            charset_search (head_text html_bytes) = Some tok ->
            exists pre s tok',
              head_text html_bytes = pre ++ s
              /\ charset_declaration s tok' /\ lower tok = lower tok').
  { intros tok Hs.
    apply charset_search_some in Hs as (pre & s & Hhead & Hm).
    apply charset_match_at_spec in Hm. exists pre, s, tok. auto. }
  assert (Hshape :
    name = "utf-8" \/ name = "utf-16le" \/ name = "utf-16be"
    \/ exists pre s tok,
         head_text html_bytes = pre ++ s
         /\ charset_declaration s tok /\ name = lower tok).
  { rewrite Hn. unfold detect_encoding.
    destruct (bytes_startswith BOM_UTF8 html_bytes); [auto|].
    destruct (bytes_startswith BOM_UTF16_LE html_bytes); [auto|].
    destruct (bytes_startswith BOM_UTF16_BE html_bytes); [auto|].
    rewrite decode_ascii_ignore_head.
    destruct (charset_search (head_text html_bytes)) as [tok|] eqn:Hs;
      [|auto].
    destruct (Hfound tok eq_refl) as (pre & s & tok' & Hh & Hd & Hl).
    right. right. right. exists pre, s, tok'. auto. }
  assert (Hname : nonempty name = true /\ all is_name_char name = true).
  { clear Hn Hfound.
    destruct Hshape as [->|[->|[->|(pre & s & tok & _ & Hdecl & ->)]]];
      try (split; reflexivity).
    destruct Hdecl as (kw & q & rest & _ & _ & _ & Hne & Hall & _).
    split; [rewrite lower_nonempty; exact Hne | apply token_lower, Hall]. }
  destruct Hname as [Hne Hall].
  split; [exact Hne|]. split; [exact Hall|]. split; [exact Hshape|].
  split; [|split].
  - intros Hbom (pre & s & tok & Hhead & Hdecl).
    rewrite Hn, (detect_encoding_no_bom _ Hbom).
    destruct (charset_search (head_text html_bytes)) as [tok'|] eqn:Hs.
    + destruct (Hfound tok' eq_refl) as (pre' & s' & tok2 & Hh & Hd & Hl).
      exists pre', s', tok2. auto.
    + exfalso. apply charset_match_at_spec in Hdecl.
      apply (charset_search_found pre s tok Hdecl). rewrite <- Hhead.
      exact Hs.
  - intros Hbom Hnone.
    rewrite Hn, (detect_encoding_no_bom _ Hbom).
    rewrite charset_search_none; [reflexivity|].
    intros pre s' Heq.
    destruct (charset_match_at s') as [tok'|] eqn:Hm; [|reflexivity].
    exfalso. apply (Hnone pre s' tok' Heq).
    apply charset_match_at_spec. exact Hm.
  - intros zf names html_name e Hread Hdec. unfold convert_document.
    rewrite Hread, <- Hn, Hdec. reflexivity.
Qed.

End DecodingFacts.

Section DecodingRuns.
#[local] Existing Instance Demo.demo_library.

Lemma detect_encoding_name_witness :
  no_bom Demo.meta_truncated
  /\ (forall pre s tok,
        head_text Demo.meta_truncated = pre ++ s ->
        ~ charset_declaration s tok)
  /\ detect_encoding Demo.meta_truncated = "utf-8".
Proof.
  assert (Hbom : no_bom Demo.meta_truncated) by (repeat split).
  assert (Hnone : forall pre s tok,
            head_text Demo.meta_truncated = pre ++ s ->
            ~ charset_declaration s tok).
  { intros pre s tok Hhead.
    refine (no_declaration_before (head_text Demo.meta_truncated)
              (S (String.length (head_text Demo.meta_truncated)))
              _ pre s tok Hhead _);
      [vm_compute; reflexivity|].
    rewrite Hhead, PyStrFacts.length_append. lia. }
  split; [exact Hbom|]. split; [exact Hnone|].
  apply (detect_encoding_name Demo.meta_truncated); assumption.
Defined.

(** C8, as stated, fails: the declared token is returned as it is, and
    decoding with a name that is no codec raises LookupError; and a
    declaration cut short is matched: the window of 8192 bytes ends after
    the first character of the token [gb2312], and the name is [g]. *)
Lemma detect_encoding_unknown_codec_counterexample :
  detect_encoding Demo.meta_unknown = "x-none"
  /\ decode (detect_encoding Demo.meta_unknown) Demo.meta_unknown
     = Err LookupError
  /\ no_bom Demo.cut_declaration
  /\ detect_encoding Demo.cut_declaration = "g"
  /\ detect_encoding Demo.cut_declaration <> "utf-8".
Proof.
  split; [reflexivity|]. split; [reflexivity|].
  split; [repeat split|].
  assert (Hg : detect_encoding Demo.cut_declaration = "g")
    by (vm_compute; reflexivity).
  split; [exact Hg | rewrite Hg; discriminate].
Qed.

End DecodingRuns.

(** ** The scan of the text *)

Section ScanFacts.
Import PyStr PyStrFacts.

Lemma lazy_value_text (q : ascii) (s v r : string) :
  lazy_value q s = Some (v, r) -> s = v ++ String q r.
Proof.
  revert v r. induction s as [|c s IH]; intros v r Hs; simpl in Hs;
    [discriminate|].
  destruct (Ascii.eqb_spec c q) as [->|Hcq].
  - injection Hs as <- <-. reflexivity.
  - destruct (Ascii.eqb c newline); [discriminate|].
    destruct (lazy_value q s) as [[v' r']|]; [|discriminate].
    injection Hs as <- <-. rewrite append_cons, (IH _ _ eq_refl).
    reflexivity.
Qed.

Lemma quoted_value_text (s : string) (q : ascii) (v r : string) :
  quoted_value s = Some (q, v, r) -> s = String q (v ++ String q r).
Proof.
  unfold quoted_value. destruct s as [|q0 [|c s]]; try discriminate.
  destruct (is_quote q0 && negb (Ascii.eqb c newline)); [|discriminate].
  destruct (lazy_value q0 s) as [[v' r']|] eqn:Hv; [|discriminate].
  intros [= <- <- <-]. rewrite append_cons, (lazy_value_text _ _ _ _ Hv).
  reflexivity.
Qed.

Lemma src_attr_at_text (s a : string) (q : ascii) (v r : string) :
  src_attr_at s = Some (a, q, v, r) ->
  s = a ++ String q (v ++ String q r).
Proof.
  unfold src_attr_at.
  destruct (match_literal_ci "src" s) as [[src r0]|] eqn:Hsrc;
    [|discriminate].
  apply match_literal_ci_some in Hsrc as [-> _].
  destruct (span is_space r0) as [sp1 r1] eqn:H1.
  apply span_app in H1 as (-> & _ & _).
  destruct r1 as [|c r2]; [discriminate|].
  destruct (Ascii.eqb_spec c "=") as [->|]; [|discriminate].
  destruct (span is_space r2) as [sp2 r3] eqn:H2.
  apply span_app in H2 as (-> & _ & _).
  destruct (quoted_value r3) as [[[q' v'] r']|] eqn:Hq; [|discriminate].
  intros [= <- <- <- <-]. rewrite (quoted_value_text _ _ _ _ Hq).
  rewrite !append_assoc, !append_cons, !append_nil_l. reflexivity.
Qed.

Lemma lazy_attr_text (s : string) :
  forall prev a q v r,
    lazy_attr prev s = Some (a, q, v, r) ->
    s = a ++ String q (v ++ String q r).
Proof.
  induction s as [|c s IH]; intros prev a q v r Hs.
  - simpl in Hs.
    destruct (if is_word prev then None else src_attr_at EmptyString)
      as [[[[a' q'] v'] r']|] eqn:Hhere; [|discriminate].
    injection Hs as <- <- <- <-.
    destruct (is_word prev); [discriminate|].
    apply src_attr_at_text. exact Hhere.
  - cbn [lazy_attr] in Hs.
    destruct (if is_word prev then None else src_attr_at (String c s))
      as [[[[a' q'] v'] r']|] eqn:Hhere.
    + injection Hs as <- <- <- <-.
      destruct (is_word prev); [discriminate|].
      apply src_attr_at_text. exact Hhere.
    + destruct (Ascii.eqb c ">"); [discriminate|].
      destruct (lazy_attr c s) as [[[[a' q'] v'] r']|] eqn:Hnext;
        [|discriminate].
      injection Hs as <- <- <- <-.
      rewrite append_cons, (IH _ _ _ _ _ Hnext). reflexivity.
Qed.

(** A match is a prefix of the text it was found in. *)
Lemma img_src_match_at_text (s : string) (m : img_match) (r : string) :
  img_src_match_at s = Some (m, r) -> s = group0 m ++ r.
Proof.
  unfold img_src_match_at.
  destruct (match_literal_ci "<img" s) as [[tag r0]|] eqn:Htag;
    [|discriminate].
  apply match_literal_ci_some in Htag as [-> _].
  destruct (match r0 with String c _ => is_word c | EmptyString => false end);
    [discriminate|].
  destruct (lazy_attr "g" r0) as [[[[a q] v] r']|] eqn:Hattr; [|discriminate].
  intros [= <- <-]. rewrite (lazy_attr_text _ _ _ _ _ _ Hattr).
  unfold group0, chr. simpl.
  rewrite !append_assoc, !append_cons, !append_nil_l. reflexivity.
Qed.

Lemma scan_img_src_skip (a r : string) :
  scan_img_src (String.length a) (a ++ r) = scan_img_src 0 r.
Proof.
  induction a as [|c a IH]; [destruct r; reflexivity|].
  rewrite append_cons. simpl. exact IH.
Qed.

Lemma scan_img_src_eq (c : ascii) (s : string) :
  scan_img_src 0 (String c s) =
  match img_src_match_at (String c s) with
  | Some (m, _) => Img m :: scan_img_src (String.length (group0 m) - 1) s
  | None => Text (chr c) :: scan_img_src 0 s
  end.
Proof. reflexivity. Qed.

(** The pieces of a text, put together, are the text. *)
Lemma scan_img_src_text (s : string) : pieces_text (scan_img_src 0 s) = s.
Proof.
  remember (String.length s) as n eqn:Hn. revert s Hn.
  induction n as [n IH] using lt_wf_ind. intros s Hn.
  destruct s as [|c s]; [reflexivity|].
  rewrite scan_img_src_eq.
  destruct (img_src_match_at (String c s)) as [[m r]|] eqn:Hm.
  - apply img_src_match_at_text in Hm.
    destruct (group0 m) as [|c' g] eqn:Hg.
    + unfold group0 in Hg. destruct (m_prefix m); discriminate.
    + rewrite append_cons in Hm. injection Hm as Hc ->. subst c'.
      replace (String.length (String c g) - 1) with (String.length g)
        by (simpl; lia).
      rewrite scan_img_src_skip.
      unfold pieces_text. simpl. rewrite Hg.
      fold (pieces_text (scan_img_src 0 r)).
      rewrite (IH (String.length r)); [reflexivity | | reflexivity].
      subst n. simpl. rewrite length_append. lia.
  - unfold pieces_text. simpl. fold (pieces_text (scan_img_src 0 s)).
    rewrite (IH (String.length s)); [reflexivity | | reflexivity].
    subst n. simpl. lia.
Qed.

End ScanFacts.

(** ** Reference Rewriter *)

Section RewriterFacts.
Context `{Library}.
Variable zf : ZipFile.
Variable html_name : string.
Variable name_set : gset string.

Local Abbreviation replace := (replace_img_src zf html_name name_set).
Local Abbreviation pass := (sub_pieces zf html_name name_set).
Local Abbreviation resolved := (resolves_to html_name name_set).

Lemma for_candidates_resolved (m : img_match) (cands : list string)
    (st : rewriter_state) :
  for_candidates zf html_name name_set m cands st =
  match first_resolved html_name name_set cands with
  | Some rel => inline_resource zf m rel st
  | None => Ok (group0 m, st)
  end.
Proof.
  induction cands as [|cand cands IH]; simpl; [reflexivity|].
  destruct (bool_decide _); [reflexivity | exact IH].
Qed.

(** [replace_img_src] inlines the resource the reference resolves to and
    returns the match as it is when there is none. *)
Lemma replace_img_src_resolved (m : img_match) (st : rewriter_state) :
  replace m st =
  match resolved m with
  | Some rel => inline_resource zf m rel st
  | None => Ok (group0 m, st)
  end.
Proof.
  unfold replace_img_src, resolves_to.
  destruct (external_scheme_re_match _); [reflexivity|].
  apply for_candidates_resolved.
Qed.

Lemma first_resolved_none (cands : list string) :
  (forall cand, cand ∈ cands -> resolve_rel_path html_name cand ∉ name_set) ->
  first_resolved html_name name_set cands = None.
Proof.
  induction cands as [|cand cands IH]; intros Hnone; simpl; [reflexivity|].
  rewrite bool_decide_eq_false_2 by (apply Hnone; left).
  apply IH. intros c Hc. apply Hnone. right. exact Hc.
Qed.

Lemma sub_pieces_app (ps1 ps2 : list piece) (st : rewriter_state) :
  pass (ps1 ++ ps2) st =
  match pass ps1 st with
  | Err e => Err e
  | Ok (out1, st1) =>
      match pass ps2 st1 with
      | Err e => Err e
      | Ok (out2, st2) => Ok ((out1 ++ out2)%list, st2)
      end
  end.
Proof.
  revert st. induction ps1 as [|p ps1 IH]; intros st; simpl.
  - destruct (pass ps2 st) as [[out2 st2]|e]; reflexivity.
  - destruct p as [s|m].
    + rewrite IH. destruct (pass ps1 st) as [[out1 st1]|e];
        [|reflexivity].
      destruct (pass ps2 st1) as [[out2 st2]|e]; reflexivity.
    + destruct (replace m st) as [[s st0]|e]; [|reflexivity].
      rewrite IH. destruct (pass ps1 st0) as [[out1 st1]|e];
        [|reflexivity].
      destruct (pass ps2 st1) as [[out2 st2]|e]; reflexivity.
Qed.

(** C2: a match whose path core has an external scheme, or none of whose
    candidates resolves to an entry of the archive, is returned as it is
    and leaves the resources, the dictionary and the list of inlined paths
    as they were: in the pass over the text it counts as plain text. *)
Theorem replace_img_src_leaves_unresolved (m : img_match) :
  external_scheme_re_match (path_core_of (m_path m)) = true
  \/ (forall cand,
        cand ∈ candidates_of (path_core_of (m_path m)) ->
        resolve_rel_path html_name cand ∉ name_set) ->
  (forall st,
     replace_img_src zf html_name name_set m st = Ok (group0 m, st))
  /\ (forall before after st,
        sub_pieces zf html_name name_set (before ++ Img m :: after) st
        = sub_pieces zf html_name name_set
            (before ++ Text (group0 m) :: after) st).
Proof.
  intros Hm.
  assert (Hstep : forall st, replace m st = Ok (group0 m, st)).
  { intros st. rewrite replace_img_src_resolved.
    assert (resolved m = None) as ->; [|reflexivity].
    unfold resolves_to. destruct Hm as [-> | Hnone];
      [reflexivity|].
    destruct (external_scheme_re_match _); [reflexivity|].
    apply first_resolved_none. exact Hnone. }
  split; [exact Hstep|].
  intros before after st. rewrite !sub_pieces_app.
  destruct (pass before st) as [[out1 st1]|e]; [|reflexivity].
  simpl. rewrite Hstep. reflexivity.
Qed.

Lemma sub_pieces_unresolved (ps : list piece) (st : rewriter_state) :
  (forall m, Img m ∈ ps -> resolved m = None) ->
  pass ps st = Ok (map piece_text ps, st).
Proof.
  induction ps as [|p ps IH]; intros Hnone; simpl; [reflexivity|].
  assert (Hps : pass ps st = Ok (map piece_text ps, st)).
  { apply IH. intros m Hm. apply Hnone. right. exact Hm. }
  destruct p as [t|m].
  - rewrite Hps. reflexivity.
  - rewrite replace_img_src_resolved, (Hnone m) by left.
    rewrite Hps. reflexivity.
Qed.

(** A text none of whose image references resolves, a text without image
    references among them, comes out of the pass as it went in. *)
Lemma sub_img_src_unresolved_text (html_text : string)
    (st : rewriter_state) :
  (forall m, Img m ∈ scan_img_src 0 html_text -> resolved m = None) ->
  sub_img_src zf html_name name_set html_text st = Ok (html_text, st).
Proof.
  intros Hnone. unfold sub_img_src.
  rewrite (sub_pieces_unresolved _ _ Hnone).
  fold (pieces_text (scan_img_src 0 html_text)).
  rewrite scan_img_src_text. reflexivity.
Qed.

(** The pass raises nothing when every entry of the archive can be
    read. *)
Lemma sub_pieces_succeeds (ps : list piece) :
  (forall rel, rel ∈ name_set -> exists data, read zf rel = Ok data) ->
  forall st, exists outs st', pass ps st = Ok (outs, st').
Proof.
  intros Hread. induction ps as [|p ps IH]; intros st; simpl.
  - eauto.
  - destruct p as [t|m].
    + destruct (IH st) as (outs & st' & ->). eauto.
    + assert (Hstep : exists s st1, replace m st = Ok (s, st1)).
      { rewrite replace_img_src_resolved.
        destruct (resolved m) as [rel|] eqn:Hrel; [|eauto].
        unfold inline_resource. destruct (cid_map st !! rel); [eauto|].
        assert (Hin : rel ∈ name_set).
        { unfold resolves_to in Hrel.
          destruct (external_scheme_re_match _); [discriminate|].
          revert Hrel. generalize (candidates_of (path_core_of (m_path m))).
          intros cands. induction cands as [|cand cands IHc]; simpl;
            [discriminate|].
          destruct (bool_decide_reflect
                      (resolve_rel_path html_name cand ∈ name_set));
            [|exact IHc].
          intros [= <-]. assumption. }
        destruct (Hread rel Hin) as (data & ->). eauto. }
      destruct Hstep as (s & st1 & ->).
      destruct (IH st1) as (outs & st' & ->). eauto.
Qed.

(** Inlining keeps the dictionary and the resources consistent, keeps the
    identifiers already given, and returns a reference to the identifier
    of the path. *)
Lemma inline_resource_consistent (m : img_match) (rel s : string)
    (st st1 : rewriter_state) :
  consistent st ->
  inline_resource zf m rel st = Ok (s, st1) ->
  consistent st1
  /\ cid_map st ⊆ cid_map st1
  /\ exists cid, cid_map st1 !! rel = Some cid /\ s = cid_reference m cid.
Proof.
  intros (Hmap & Hnodup & Hinl) Hrun. unfold inline_resource in Hrun.
  destruct (cid_map st !! rel) as [cid|] eqn:Hrel.
  - injection Hrun as <- <-.
    split; [exact (conj Hmap (conj Hnodup Hinl))|].
    split; [reflexivity|]. eauto.
  - destruct (read zf rel) as [data|e]; [|discriminate].
    injection Hrun as <- <-.
    set (cid := uuid4_hex (uuid_calls st) ++ "@mhtml").
    assert (Hfresh : forall r, r ∈ resources st -> res_name r <> Some rel).
    { intros r Hr Hname.
      assert (cid_map st !! rel = Some (res_cid r)) as Hc
        by (apply Hmap; eauto).
      congruence. }
    split; [|split].
    + split; [|split]; simpl.
      * intros rel' cid'. destruct (decide (rel = rel')) as [<-|Hne].
        -- rewrite lookup_insert_eq. split.
           ++ intros [= <-].
              exists {| res_name := Some rel; res_cid := cid;
                        res_data := data; res_mime := Some (mime_of rel) |}.
              split; [|split; reflexivity].
              apply elem_of_app. right. left.
           ++ intros (r & Hr & Hname & <-).
              apply elem_of_app in Hr as [Hr|Hr].
              ** exfalso. exact (Hfresh r Hr Hname).
              ** apply list_elem_of_singleton in Hr as ->. reflexivity.
        -- rewrite lookup_insert_ne by assumption. rewrite Hmap. split.
           ++ intros (r & Hr & Hname & Hcid). exists r.
              split; [apply elem_of_app; left; assumption | auto].
           ++ intros (r & Hr & Hname & Hcid).
              apply elem_of_app in Hr as [Hr|Hr]; [eauto|].
              apply list_elem_of_singleton in Hr as ->. simpl in Hname.
              congruence.
      * rewrite map_app. apply NoDup_app. split; [assumption|]. split.
        -- intros x Hx Hx'. simpl in Hx'.
           apply list_elem_of_singleton in Hx' as ->.
           apply list_elem_of_fmap in Hx as (r & Hname & Hr).
           exact (Hfresh r Hr (eq_sym Hname)).
        -- simpl. apply NoDup_singleton.
      * rewrite !map_app, Hinl. reflexivity.
    + simpl. apply insert_subseteq. exact Hrel.
    + simpl. exists cid. rewrite lookup_insert_eq. auto.
Qed.

Lemma replace_img_src_consistent (m : img_match) (s : string)
    (st st1 : rewriter_state) :
  consistent st ->
  replace m st = Ok (s, st1) ->
  consistent st1
  /\ cid_map st ⊆ cid_map st1
  /\ forall rel, resolved m = Some rel ->
       exists cid, cid_map st1 !! rel = Some cid /\ s = cid_reference m cid.
Proof.
  intros Hst. rewrite replace_img_src_resolved.
  destruct (resolved m) as [rel|].
  - intros Hrun.
    destruct (inline_resource_consistent _ _ _ _ _ Hst Hrun)
      as (Hst1 & Hsub & Hcid).
    split; [assumption|]. split; [assumption|].
    intros rel' [= <-]. exact Hcid.
  - intros [= <- <-]. split; [assumption|]. split; [reflexivity|].
    intros rel' Hrel'. discriminate.
Qed.

(** The invariant of a pass over the pieces. *)
Lemma sub_pieces_consistent (ps : list piece) :
  forall st outs st',
    consistent st ->
    pass ps st = Ok (outs, st') ->
    consistent st'
    /\ cid_map st ⊆ cid_map st'
    /\ forall i m rel,
         ps !! i = Some (Img m) ->
         resolved m = Some rel ->
         exists cid,
           cid_map st' !! rel = Some cid
           /\ outs !! i = Some (cid_reference m cid).
Proof.
  induction ps as [|p ps IH]; intros st outs st' Hst Hrun; simpl in Hrun.
  - injection Hrun as <- <-. split; [assumption|]. split; [reflexivity|].
    intros i m rel Hi. discriminate.
  - destruct p as [t|m0].
    + destruct (pass ps st) as [[out1 st1]|e] eqn:Hps; [|discriminate].
      injection Hrun as <- <-.
      destruct (IH _ _ _ Hst Hps) as (Hst' & Hsub & Hrefs).
      split; [assumption|]. split; [assumption|].
      intros [|i] m rel Hi Hrel; [discriminate|]. simpl in *. eauto.
    + destruct (replace m0 st) as [[s st0]|e] eqn:Hstep; [|discriminate].
      destruct (pass ps st0) as [[out1 st1]|e] eqn:Hps; [|discriminate].
      injection Hrun as <- <-.
      destruct (replace_img_src_consistent _ _ _ _ Hst Hstep)
        as (Hst0 & Hsub0 & Href0).
      destruct (IH _ _ _ Hst0 Hps) as (Hst' & Hsub & Hrefs).
      split; [assumption|]. split; [etrans; eassumption|].
      intros [|i] m rel Hi Hrel; simpl in *; [|eauto].
      injection Hi as <-. destruct (Href0 rel Hrel) as (cid & Hcid & ->).
      exists cid. split; [|reflexivity].
      eapply lookup_weaken; eassumption.
Qed.

Lemma consistent_initial : consistent initial_state.
Proof.
  split; [|split]; simpl.
  - intros rel cid. rewrite lookup_empty. split; [discriminate|].
    intros (r & Hr & _). inversion Hr.
  - constructor.
  - reflexivity.
Qed.



End RewriterFacts.

Section RewriterRuns.
#[local] Existing Instance Demo.demo_library.

Lemma replace_img_src_leaves_unresolved_witness :
  Img Demo.img_external ∈ Demo.index_pieces
  /\ Img Demo.img_missing ∈ Demo.index_pieces
  /\ replace_img_src Demo.flat_zf "index.html" Demo.flat_name_set
       Demo.img_external initial_state
     = Ok (group0 Demo.img_external, initial_state)
  /\ replace_img_src Demo.flat_zf "index.html" Demo.flat_name_set
       Demo.img_missing initial_state
     = Ok (group0 Demo.img_missing, initial_state).
Proof.
  split; [|split; [|split]].
  - apply list_elem_of_In. vm_compute. tauto.
  - apply list_elem_of_In. vm_compute. tauto.
  - apply (replace_img_src_leaves_unresolved Demo.flat_zf "index.html"
             Demo.flat_name_set Demo.img_external).
    left. reflexivity.
  - apply (replace_img_src_leaves_unresolved Demo.flat_zf "index.html"
             Demo.flat_name_set Demo.img_missing).
    right. intros cand Hcand.
    assert (Hc : candidates_of (path_core_of (m_path Demo.img_missing))
                 = ["missing/not-there.png"]) by (vm_compute; reflexivity).
    rewrite Hc in Hcand. apply list_elem_of_singleton in Hcand as ->.
    by_decide.
Defined.


End RewriterRuns.

(** ** The traversal order of the Archive Navigator *)

Section TraversalFacts.
Context `{Library}.

Lemma find_app {A : Type} (f : A -> bool) (l1 l2 : list A) :
  find f (l1 ++ l2) =
  match find f l1 with
  | Some x => Some x
  | None => find f l2
  end.
Proof.
  induction l1 as [|x l1 IH]; simpl; [reflexivity|].
  destruct (f x); [reflexivity | exact IH].
Qed.

Lemma helper_loop_agree
    (rec_h : bytes -> seen_set -> result (option bytes) * seen_set)
    (rec_t : bytes -> seen_set -> list bytes * option exn * seen_set)
    (zf : ZipFile) :
  (forall child seen, agree (rec_h child seen) (rec_t child seen)) ->
  forall names seen,
    agree (helper_loop rec_h zf names seen)
          (traverse_loop rec_t zf names seen).
Proof.
  intros Hrec. induction names as [|n names IH]; intros seen; simpl.
  - reflexivity.
  - destruct (is_zip_name n); simpl; [|apply IH].
    destruct (read zf n) as [child|e].
    + destruct (bool_decide _); [apply IH|].
      specialize (Hrec child ({[(n, length child)]} ∪ seen)).
      destruct (rec_t child _) as [[ls e] seen1].
      unfold agree in Hrec. simpl in Hrec.
      destruct (find html_layerb ls) as [l|] eqn:Hfind.
      * (* the child holds the first HTML layer *)
        destruct (rec_h child _) as [r s]. simpl in Hrec. subst r.
        destruct e as [ex|].
        -- unfold agree. simpl. rewrite Hfind. reflexivity.
        -- specialize (IH seen1).
           destruct (traverse_loop rec_t zf names seen1) as [[ls' e'] seen2].
           unfold agree. simpl. rewrite find_app, Hfind. reflexivity.
      * rewrite Hrec. destruct e as [ex|]; simpl.
        -- unfold agree. simpl. rewrite Hfind. reflexivity.
        -- specialize (IH seen1).
           destruct (traverse_loop rec_t zf names seen1) as [[ls' e'] seen2].
           unfold agree in *. simpl in *. rewrite find_app, Hfind. exact IH.
    + destruct e; try (unfold agree; reflexivity). apply IH.
Qed.

Lemma helper_agree (max_depth : Z) (fuel : nat) :
  forall b depth seen,
    fuel = Z.to_nat (max_depth - depth + 1) ->
    agree (helper fuel max_depth b depth seen) (traverse fuel b seen).
Proof.
  induction fuel as [|fuel IH]; intros b depth seen Hfuel;
    rewrite helper_eq.
  - destruct (max_depth <? depth)%Z; reflexivity.
  - destruct (Z.ltb_spec max_depth depth) as [Hd|Hd]; [lia|].
    simpl. unfold helper_body, agree.
    destruct (zip_open b) as [zf|e] eqn:Hopen.
    + assert (Hrec : forall child s,
                agree (helper fuel max_depth child (depth + 1) s)
                      (traverse fuel child s))
        by (intros child s; apply IH; lia).
      pose proof (helper_loop_agree
                    (fun child => helper fuel max_depth child (depth + 1))
                    (traverse fuel) zf Hrec (layer_names zf) seen)
        as Hloop.
      destruct (traverse_loop (traverse fuel) zf (layer_names zf) seen)
        as [[ls e] seen'].
      simpl. unfold html_layerb at 1. rewrite Hopen.
      destruct (has_html (layer_names zf)); [reflexivity|].
      unfold agree in Hloop. simpl in Hloop.
      destruct (find html_layerb ls) as [l|].
      * destruct (helper_loop _ zf _ seen) as [r s]. simpl in Hloop.
        subst r. reflexivity.
      * rewrite Hloop. destruct e as [[]|]; reflexivity.
    + destruct e; reflexivity.
Qed.

(** Every archive the traversal opens is nested in the starting archive,
    less deep than the room allows. *)
Lemma traverse_loop_nested
    (rec_t : bytes -> seen_set -> list bytes * option exn * seen_set)
    (P : bytes -> Prop) (zf : ZipFile) (all_names : list string) :
  (forall n child seen l,
     n ∈ all_names -> is_zip_name n = true -> read zf n = Ok child ->
     l ∈ (rec_t child seen).1.1 -> P l) ->
  forall names seen l,
    names ⊆ all_names ->
    l ∈ (traverse_loop rec_t zf names seen).1.1 -> P l.
Proof.
  intros Hrec. induction names as [|n names IH]; intros seen l Hsub Hl;
    simpl in Hl.
  - inversion Hl.
  - assert (Hn : n ∈ all_names) by (apply Hsub; left).
    assert (Hsub' : names ⊆ all_names)
      by (intros x Hx; apply Hsub; right; exact Hx).
    destruct (is_zip_name n) eqn:Hzip; simpl in Hl; [|eauto].
    destruct (read zf n) as [child|e] eqn:Hread.
    + destruct (bool_decide _); [eauto|].
      destruct (rec_t child _) as [[ls e] seen1] eqn:Hchild.
      assert (Hls : forall x, x ∈ ls -> P x).
      { intros x Hx. eapply (Hrec n child); eauto.
        rewrite Hchild. exact Hx. }
      destruct e as [ex|]; simpl in Hl; [auto|].
      specialize (IH seen1 l Hsub').
      destruct (traverse_loop rec_t zf names seen1) as [[ls' e'] seen2].
      simpl in *. apply elem_of_app in Hl as [Hl|Hl]; auto.
    + destruct e; simpl in Hl; try (inversion Hl; fail). eauto.
Qed.

Lemma traverse_nested (room : nat) :
  forall b seen l,
    l ∈ (traverse room b seen).1.1 ->
    exists d, d < room /\ nested_at d b l.
Proof.
  induction room as [|room IH]; intros b seen l Hl; simpl in Hl.
  - inversion Hl.
  - destruct (zip_open b) as [zf|e] eqn:Hopen.
    + pose proof (traverse_loop_nested (traverse room)
                    (fun l => exists d, d < S room /\ nested_at d b l
                                        /\ d <> 0)
                    zf (layer_names zf)) as Hloop.
      destruct (traverse_loop (traverse room) zf (layer_names zf) seen)
        as [[ls e] seen'] eqn:Hrun.
      simpl in Hl. apply elem_of_cons in Hl as [->|Hl].
      * exists 0. split; [lia | constructor].
      * destruct (Hloop) with (names := layer_names zf) (seen := seen)
          (l := l) as (d & Hd & Hnest & _).
        -- intros n child s x Hn Hzip Hread Hx.
           destruct (IH _ _ _ Hx) as (d & Hd & Hnest).
           exists (S d). split; [lia|]. split; [|discriminate].
           econstructor; eassumption.
        -- reflexivity.
        -- rewrite Hrun. exact Hl.
        -- eauto.
    + destruct e; inversion Hl.
Qed.

(** C5, as amended: [find_leaf_zip_with_html] returns the first layer
    with an HTML entry in the order of the depth-first traversal that does
    not enter a nested archive whose pair of name and length it has
    visited, that leaves a layer when reading one of its nested archives
    raises [BadZipFile], that passes over a nested archive whose reading
    raises [KeyError], and that ends when opening or reading an archive
    raises any other exception; when the traversal
    opens no such layer it returns not-found, or raises what ended the
    traversal; every layer of the traversal is nested at most [max_depth]
    deep, so an archive whose HTML layers all lie deeper yields no layer,
    and [process_zip] fails on it with NoHtmlLayerFound, or with what
    ended the traversal. *)
Theorem find_leaf_zip_with_html_spec (root : bytes) (max_depth : Z) :
  find_leaf_zip_with_html root max_depth
  = match find html_layerb (visit_order root max_depth) with
    | Some l => Ok (Some l)
    | None => result_of (visit_raised root max_depth)
    end
  /\ (forall l, l ∈ visit_order root max_depth ->
        exists d, (Z.of_nat d <= max_depth)%Z /\ nested_at d root l)
  /\ ((forall d l, nested_at d root l -> html_layer l ->
         (max_depth < Z.of_nat d)%Z) ->
      forall l, find_leaf_zip_with_html root max_depth <> Ok (Some l))
  /\ (forall html_name_override,
        (forall d l, nested_at d root l -> html_layer l ->
           (10 < Z.of_nat d)%Z) ->
        process_zip root html_name_override
        = match visit_raised root 10 with
          | Some e => Err e
          | None => Err (RuntimeError NoHtmlLayerFound)
          end).
Proof.
  assert (Hfirst : forall depth,
    find_leaf_zip_with_html root depth
    = match find html_layerb (visit_order root depth) with
      | Some l => Ok (Some l)
      | None => result_of (visit_raised root depth)
      end).
  { intros depth.
    unfold find_leaf_zip_with_html, visit_order, visit_raised.
    assert (Hag : agree (helper (Z.to_nat (depth + 1)) depth root 0 ∅)
                        (traverse (Z.to_nat (depth + 1)) root ∅))
      by (apply helper_agree; f_equal; lia).
    unfold agree in Hag.
    destruct (find html_layerb _) as [l|]; [exact Hag|].
    rewrite Hag. reflexivity. }
  assert (Hdepth : forall depth l, l ∈ visit_order root depth ->
            exists d, (Z.of_nat d <= depth)%Z /\ nested_at d root l).
  { intros depth l Hl. apply traverse_nested in Hl as (d & Hd & Hnest).
    exists d. split; [lia | exact Hnest]. }
  assert (Hnone : forall depth,
            (forall d l, nested_at d root l -> html_layer l ->
               (depth < Z.of_nat d)%Z) ->
            find html_layerb (visit_order root depth) = None).
  { intros depth Hdeep.
    destruct (find html_layerb (visit_order root depth)) as [l|] eqn:Hf;
      [|reflexivity].
    exfalso.
    assert (Hl : find_leaf_zip_with_html root depth = Ok (Some l))
      by (rewrite Hfirst, Hf; reflexivity).
    assert (Hhtml : html_layer l)
      by (eapply find_leaf_returns_html_layer; exact Hl).
    apply find_some in Hf as [Hin _]. apply list_elem_of_In in Hin.
    destruct (Hdepth depth l Hin) as (d & Hd & Hnest).
    specialize (Hdeep d l Hnest Hhtml). lia. }
  split; [apply Hfirst|]. split; [apply Hdepth|]. split.
  - intros Hdeep l Hl. rewrite Hfirst, (Hnone _ Hdeep) in Hl.
    destruct (visit_raised root max_depth); discriminate.
  - intros ov Hdeep. unfold process_zip.
    rewrite Hfirst, (Hnone _ Hdeep).
    destruct (visit_raised root 10); reflexivity.
Qed.

End TraversalFacts.

Section TraversalRuns.
#[local] Existing Instance Demo.demo_library.

(** The archive [x.zip] of the examples holds no HTML layer at any
    depth. *)
Lemma x_zip_no_html_layer (d : nat) (l : bytes) :
  nested_at d Demo.x_zip l -> html_layer l -> (10 < Z.of_nat d)%Z.
Proof.
  intros Hnest (zf & Hopen & Hhtml). exfalso.
  inversion Hnest as [b|d1 b child layer zf1 n Ho1 Hn1 Hz1 Hr1 Hnest1];
    subst.
  - vm_compute in Hopen. injection Hopen as <-.
    vm_compute in Hhtml. discriminate.
  - vm_compute in Ho1. injection Ho1 as <-.
    apply list_elem_of_In in Hn1. vm_compute in Hn1.
    destruct Hn1 as [<-|[]].
    vm_compute in Hr1. injection Hr1 as <-.
    inversion Hnest1 as [b|d2 b child layer zf2 n Ho2 Hn2 Hz2 Hr2 Hnest2];
      subst.
    + vm_compute in Hopen. injection Hopen as <-.
      vm_compute in Hhtml. discriminate.
    + vm_compute in Ho2. injection Ho2 as <-.
      apply list_elem_of_In in Hn2. vm_compute in Hn2.
      destruct Hn2 as [<-|[]]. vm_compute in Hz2. discriminate.
Qed.

Lemma find_leaf_zip_with_html_spec_witness :
  visit_order Demo.outer_zip 10 = [Demo.outer_zip; Demo.flat_zip]
  /\ find_leaf_zip_with_html Demo.outer_zip 10 = Ok (Some Demo.flat_zip)
  /\ (forall l, find_leaf_zip_with_html Demo.outer_zip 0 <> Ok (Some l))
  /\ process_zip Demo.x_zip None = Err (RuntimeError NoHtmlLayerFound)
  /\ find_leaf_zip_with_html Demo.missing_member_zip 10
     = Ok (Some Demo.flat_zip).
Proof.
  split; [vm_compute; reflexivity|].
  split; [|split; [|split; [|vm_compute; reflexivity]]].
  - destruct (find_leaf_zip_with_html_spec Demo.outer_zip 10) as (-> & _).
    vm_compute. reflexivity.
  - destruct (find_leaf_zip_with_html_spec Demo.outer_zip 0)
      as (_ & _ & Hdeep & _).
    apply Hdeep. intros d l Hnest (zf & Hopen & Hhtml).
    destruct d as [|d]; [|lia]. exfalso.
    inversion Hnest; subst.
    vm_compute in Hopen. injection Hopen as <-.
    vm_compute in Hhtml. discriminate.
  - destruct (find_leaf_zip_with_html_spec Demo.x_zip 10)
      as (_ & _ & _ & Hfail).
    rewrite (Hfail None x_zip_no_html_layer). vm_compute. reflexivity.
Defined.

(** C5, as stated, fails, in three ways; in each, an HTML layer lies
    within the depth limit and every buffer on the way to it is a valid
    archive.  The second [inner.zip] has the name and the length of the
    first, so it is not entered, and not-found is returned.  The archive
    [good.zip] follows a member whose reading raises [BadZipFile]: the
    layer is left, and not-found is returned.  It follows a member whose
    reading raises another exception: that exception is raised. *)
Lemma find_leaf_skips_html_layer_counterexample :
  (nested_at 2 Demo.root_zip Demo.inner_b
   /\ html_layer Demo.inner_b
   /\ find_leaf_zip_with_html Demo.root_zip 10 = Ok None)
  /\ (nested_at 1 Demo.bad_member_zip Demo.flat_zip
      /\ html_layer Demo.flat_zip
      /\ find_leaf_zip_with_html Demo.bad_member_zip 10 = Ok None)
  /\ (nested_at 1 Demo.locked_member_zip Demo.flat_zip
      /\ html_layer Demo.flat_zip
      /\ find_leaf_zip_with_html Demo.locked_member_zip 10
         = Err (OtherException "RuntimeError")).
Proof.
  assert (Hflat : html_layer Demo.flat_zip).
  { exists (Demo.table Demo.flat_entries). split; reflexivity. }
  split; [|split].
  - split; [|split].
    + apply (nested_child 1 Demo.root_zip Demo.y_zip Demo.inner_b
               (Demo.table Demo.root_entries) "y.zip");
        [reflexivity | by_decide | reflexivity | reflexivity |].
      apply (nested_child 0 Demo.y_zip Demo.inner_b Demo.inner_b
               (Demo.table Demo.y_entries) "inner.zip");
        [reflexivity | by_decide | reflexivity | reflexivity |].
      apply nested_here.
    + exists (Demo.table Demo.inner_b_entries). split; reflexivity.
    + vm_compute. reflexivity.
  - split; [|split; [exact Hflat | vm_compute; reflexivity]].
    apply (nested_child 0 Demo.bad_member_zip Demo.flat_zip Demo.flat_zip
             (Demo.faulty "broken.zip" BadZipFile) "good.zip");
      [reflexivity | by_decide | reflexivity | reflexivity |].
    apply nested_here.
  - split; [|split; [exact Hflat | vm_compute; reflexivity]].
    apply (nested_child 0 Demo.locked_member_zip Demo.flat_zip
             Demo.flat_zip
             (Demo.faulty "locked.zip" (OtherException "RuntimeError"))
             "good.zip");
      [reflexivity | by_decide | reflexivity | reflexivity |].
    apply nested_here.
Qed.

End TraversalRuns.

(** ** The bookkeeping of the Reference Rewriter *)

Section BookkeepingFacts.
Context `{Library}.
Variable zf : ZipFile.
Variable html_name : string.
Variable name_set : gset string.

Local Abbreviation replace2 := (replace_img_src zf html_name name_set).
Local Abbreviation pass2 := (sub_pieces zf html_name name_set).
Local Abbreviation resolved2 := (resolves_to html_name name_set).
Local Abbreviation wf := (well_formed zf name_set).

Lemma first_resolved_in (cands : list string) (rel : string) :
  first_resolved html_name name_set cands = Some rel -> rel ∈ name_set.
Proof.
  induction cands as [|cand cands IH]; simpl; [discriminate|].
  destruct (bool_decide_reflect (resolve_rel_path html_name cand ∈ name_set));
    [|exact IH].
  intros [= <-]. assumption.
Qed.

Lemma resolves_to_in (m : img_match) (rel : string) :
  resolved2 m = Some rel -> rel ∈ name_set.
Proof.
  unfold resolves_to. destruct (external_scheme_re_match _); [discriminate|].
  apply first_resolved_in.
Qed.

(** A path has an identifier exactly when it is in [inlined]. *)
Lemma consistent_inlined (st : rewriter_state) (rel : string) :
  consistent st -> (is_Some (cid_map st !! rel) <-> rel ∈ inlined st).
Proof.
  intros (Hmap & _ & Hinl). split.
  - intros [cid Hcid]. apply Hmap in Hcid as (r & Hr & Hname & _).
    assert (Hin : Some rel ∈ map Some (inlined st)).
    { rewrite <- Hinl, <- Hname. apply list_elem_of_fmap. eauto. }
    apply list_elem_of_fmap in Hin as (x & [= ->] & Hx). exact Hx.
  - intros Hin.
    assert (Hin' : Some rel ∈ map res_name (resources st)).
    { rewrite Hinl. apply list_elem_of_fmap. eauto. }
    apply list_elem_of_fmap in Hin' as (r & Hname & Hr).
    exists (res_cid r). apply Hmap. eauto.
Qed.

(** One step of the pass: what it returns and how the state changes. *)
Lemma replace_img_src_step (m : img_match) (s : string)
    (st st1 : rewriter_state) :
  consistent st -> wf st ->
  replace2 m st = Ok (s, st1) ->
  wf st1
  /\ inlined st1
     = (inlined st
        ++ first_occurrences (inlined st) (resolved_paths html_name name_set
                                             [Img m]))%list.
Proof.
  intros Hcons (Hcalls & Hlen & Hres).
  rewrite replace_img_src_resolved. unfold resolved_paths. simpl.
  destruct (resolved2 m) as [rel|] eqn:Hrel; simpl.
  - unfold inline_resource.
    destruct (cid_map st !! rel) as [cid|] eqn:Hcid.
    + intros [= <- <-].
      rewrite bool_decide_eq_true_2
        by (apply consistent_inlined; [assumption | eauto]).
      rewrite app_nil_r. split; [repeat split; assumption | reflexivity].
    + destruct (read zf rel) as [data|e] eqn:Hread; [|discriminate].
      intros [= <- <-].
      rewrite bool_decide_eq_false_2.
      2:{ intros Hin. apply consistent_inlined in Hin; [|assumption].
          rewrite Hcid in Hin. destruct Hin; discriminate. }
      split; [|reflexivity]. split; [|split]; simpl.
      * rewrite length_app. simpl. lia.
      * rewrite !length_app. simpl. lia.
      * intros i r Hi. apply lookup_app_Some in Hi as [Hi|[Hge Hi]].
        -- destruct (Hres i r Hi) as (rel' & Hinl & Hin & Hr).
           exists rel'. split; [|auto].
           apply lookup_app_l_Some. exact Hinl.
        -- destruct (i - length (resources st)) as [|k] eqn:Hk;
             [|discriminate].
           injection Hi as <-.
           assert (i = length (resources st)) as -> by lia.
           exists rel. split; [|split].
           ++ rewrite <- Hlen. rewrite lookup_app_r by lia.
              rewrite Nat.sub_diag. reflexivity.
           ++ eapply resolves_to_in. exact Hrel.
           ++ rewrite <- Hcalls. repeat split. exact Hread.
  - intros [= <- <-]. rewrite app_nil_r.
    split; [repeat split; assumption | reflexivity].
Qed.

Lemma first_occurrences_app (acc l1 l2 : list string) :
  first_occurrences acc (l1 ++ l2)
  = (first_occurrences acc l1
     ++ first_occurrences (reverse (first_occurrences acc l1) ++ acc) l2)%list.
Proof.
  revert acc. induction l1 as [|x l1 IH]; intros acc; simpl; [reflexivity|].
  destruct (bool_decide (x ∈ acc)); [apply IH|].
  simpl. rewrite IH. f_equal. f_equal. rewrite reverse_cons, <- app_assoc.
  reflexivity.
Qed.

(** [first_occurrences] looks at the elements of its first argument
    only. *)
Lemma first_occurrences_ext (acc acc' l : list string) :
  (forall x, x ∈ acc <-> x ∈ acc') ->
  first_occurrences acc l = first_occurrences acc' l.
Proof.
  revert acc acc'. induction l as [|x l IH]; intros acc acc' Hacc; simpl;
    [reflexivity|].
  rewrite (bool_decide_ext (x ∈ acc) (x ∈ acc')) by apply Hacc.
  destruct (bool_decide (x ∈ acc')); [apply IH; assumption|].
  f_equal. apply IH. intros y. rewrite !elem_of_cons, Hacc. reflexivity.
Qed.

Lemma resolved_paths_cons (p : piece) (ps : list piece) :
  resolved_paths html_name name_set (p :: ps)
  = (resolved_paths html_name name_set [p]
     ++ resolved_paths html_name name_set ps)%list.
Proof.
  unfold resolved_paths. simpl.
  destruct p as [t|m]; [reflexivity|].
  destruct (resolved2 m); reflexivity.
Qed.

(** The invariant of a pass: the state stays well formed, and [inlined]
    grows by the first occurrences of the paths not yet in it. *)
Lemma sub_pieces_bookkeeping (ps : list piece) :
  forall st outs st',
    consistent st -> wf st ->
    pass2 ps st = Ok (outs, st') ->
    wf st'
    /\ length outs = length ps
    /\ inlined st'
       = (inlined st
          ++ first_occurrences (inlined st)
               (resolved_paths html_name name_set ps))%list.
Proof.
  induction ps as [|p ps IH]; intros st outs st' Hcons Hwf Hrun;
    simpl in Hrun.
  - injection Hrun as <- <-. rewrite app_nil_r. auto.
  - destruct p as [t|m].
    + destruct (pass2 ps st) as [[out1 st1]|e] eqn:Hps; [|discriminate].
      injection Hrun as <- <-.
      destruct (IH _ _ _ Hcons Hwf Hps) as (Hwf' & Hlen & Hinl).
      split; [assumption|]. split; [simpl; congruence | exact Hinl].
    + destruct (replace2 m st) as [[s st0]|e] eqn:Hstep; [|discriminate].
      destruct (pass2 ps st0) as [[out1 st1]|e] eqn:Hps; [|discriminate].
      injection Hrun as <- <-.
      destruct (replace_img_src_consistent _ _ _ _ _ _ _ Hcons Hstep)
        as (Hcons0 & _ & _).
      destruct (replace_img_src_step _ _ _ _ Hcons Hwf Hstep)
        as (Hwf0 & Hinl0).
      destruct (IH _ _ _ Hcons0 Hwf0 Hps) as (Hwf' & Hlen & Hinl).
      split; [assumption|]. split; [simpl; congruence|].
      rewrite Hinl, Hinl0, (resolved_paths_cons (Img m) ps).
      rewrite first_occurrences_app, <- app_assoc. f_equal. f_equal.
      apply first_occurrences_ext. intros x.
      rewrite !elem_of_app, elem_of_reverse. tauto.
Qed.

Lemma well_formed_initial : wf initial_state.
Proof.
  split; [reflexivity|]. split; [reflexivity|].
  intros i r Hi. discriminate.
Qed.

End BookkeepingFacts.

Section RewriterProperties.
Context `{Library}.
Variable zf : ZipFile.
Variable html_name : string.
Variable name_set : gset string.
Import PyStr PyStrFacts.

Lemma unresolved_check (ps : list piece) :
  forallb (fun p => match p with
                    | Img m => bool_decide
                                 (resolves_to html_name name_set m = None)
                    | Text _ => true
                    end) ps = true ->
  forall m, Img m ∈ ps -> resolves_to html_name name_set m = None.
Proof.
  intros Hall m Hm. rewrite forallb_forall in Hall.
  apply list_elem_of_In in Hm. apply Hall in Hm.
  apply bool_decide_eq_true_1 in Hm. exact Hm.
Qed.

(** X1: a text none of whose image references resolves to an entry of the
    archive, a text without images among them, comes out of the rewriting
    unchanged, and no resource, identifier or inlined path is recorded. *)
Theorem sub_img_src_identity (html_text : string) :
  (forall m, Img m ∈ scan_img_src 0 html_text ->
             resolves_to html_name name_set m = None) ->
  sub_img_src zf html_name name_set html_text initial_state
  = Ok (html_text, initial_state).
Proof. apply sub_img_src_unresolved_text. Qed.

Lemma replace_img_src_error (m : img_match) (st : rewriter_state) (e : exn) :
  replace_img_src zf html_name name_set m st = Err e ->
  exists rel, rel ∈ name_set /\ read zf rel = Err e.
Proof.
  rewrite replace_img_src_resolved.
  destruct (resolves_to html_name name_set m) as [rel|] eqn:Hrel;
    [|discriminate].
  unfold inline_resource. destruct (cid_map st !! rel); [discriminate|].
  destruct (read zf rel) as [data|e'] eqn:Hread; [discriminate|].
  intros [= <-]. exists rel. split; [|exact Hread].
  eapply resolves_to_in. exact Hrel.
Qed.

(** X2: the only exception the rewriting lets out is one raised by
    reading an entry whose name is in the set of names. *)
Theorem sub_pieces_error_from_read (ps : list piece) (st : rewriter_state)
    (e : exn) :
  sub_pieces zf html_name name_set ps st = Err e ->
  exists rel, rel ∈ name_set /\ read zf rel = Err e.
Proof.
  revert st. induction ps as [|p ps IH]; intros st Hrun; simpl in Hrun;
    [discriminate|].
  destruct p as [t|m].
  - destruct (sub_pieces zf html_name name_set ps st) as [[o s]|e'] eqn:Hps;
      [discriminate|].
    injection Hrun as <-. eapply IH. exact Hps.
  - destruct (replace_img_src zf html_name name_set m st)
      as [[s st0]|e'] eqn:Hstep.
    + destruct (sub_pieces zf html_name name_set ps st0)
        as [[o s1]|e''] eqn:Hps; [discriminate|].
      injection Hrun as <-. eapply IH. exact Hps.
    + injection Hrun as <-. eapply replace_img_src_error. exact Hstep.
Qed.

(** X3: after a pass over the text, [inlined] lists the paths the image
    references resolve to, each once, in the order of their first
    reference, and the resource at each position is the one built for the
    path at that position: it has the bytes read from that entry, the
    type guessed from its name and the identifier drawn at that
    position. *)
Theorem sub_pieces_first_reference_order (ps : list piece)
    (outs : list string) (st' : rewriter_state) :
  sub_pieces zf html_name name_set ps initial_state = Ok (outs, st') ->
  inlined st' = first_occurrences [] (resolved_paths html_name name_set ps)
  /\ length (resources st') = length (inlined st')
  /\ uuid_calls st' = length (inlined st')
  /\ forall i rel,
       inlined st' !! i = Some rel ->
       rel ∈ name_set
       /\ exists r, resources st' !! i = Some r
                    /\ resource_of_entry zf i rel r.
Proof.
  intros Hrun.
  destruct (sub_pieces_bookkeeping zf html_name name_set ps _ _ _
              consistent_initial (well_formed_initial zf name_set) Hrun)
    as ((Hcalls & Hlen & Hres) & _ & Hinl).
  split; [exact Hinl|]. split; [congruence|]. split; [congruence|].
  intros i rel Hi.
  assert (Hlt : i < length (resources st')).
  { rewrite <- Hlen. eapply lookup_lt_Some. exact Hi. }
  apply lookup_lt_is_Some in Hlt as [r Hr].
  destruct (Hres i r Hr) as (rel' & Hi' & Hin & Hentry).
  assert (rel' = rel) as -> by congruence. eauto.
Qed.

Lemma append_same_tail (a b s : string) : a ++ s = b ++ s -> a = b.
Proof.
  revert b. induction a as [|x a IH]; intros b Heq.
  - destruct b as [|y b]; [reflexivity|]. exfalso.
    apply (f_equal String.length) in Heq.
    rewrite append_nil_l, append_cons in Heq. simpl in Heq.
    rewrite length_append in Heq. lia.
  - destruct b as [|y b].
    + exfalso. apply (f_equal String.length) in Heq.
      rewrite append_nil_l, append_cons in Heq. simpl in Heq.
      rewrite length_append in Heq. lia.
    + rewrite !append_cons in Heq. injection Heq as -> Heq.
      f_equal. apply IH. exact Heq.
Qed.

(** X4: when the identifiers drawn during the pass are different from
    one another, the resources have different content identifiers. *)
Theorem sub_pieces_distinct_cids (ps : list piece)
    (outs : list string) (st' : rewriter_state) :
  sub_pieces zf html_name name_set ps initial_state = Ok (outs, st') ->
  (forall i j, i < uuid_calls st' -> j < uuid_calls st' ->
               uuid4_hex i = uuid4_hex j -> i = j) ->
  NoDup (map res_cid (resources st')).
Proof.
  intros Hrun Hinj.
  destruct (sub_pieces_bookkeeping zf html_name name_set ps _ _ _
              consistent_initial (well_formed_initial zf name_set) Hrun)
    as ((Hcalls & Hlen & Hres) & _ & _).
  apply NoDup_alt. intros i j cid Hi Hj.
  apply list_lookup_fmap_Some in Hi as (ri & -> & Hri).
  apply list_lookup_fmap_Some in Hj as (rj & Hcid & Hrj).
  destruct (Hres i ri Hri) as (reli & _ & _ & _ & Hci & _).
  destruct (Hres j rj Hrj) as (relj & _ & _ & _ & Hcj & _).
  apply Hinj.
  - rewrite Hcalls. eapply lookup_lt_Some. exact Hri.
  - rewrite Hcalls. eapply lookup_lt_Some. exact Hrj.
  - apply (append_same_tail _ _ "@mhtml"). congruence.
Qed.

End RewriterProperties.

Section ReferenceProperties.
Context `{Library}.
Variable zf : ZipFile.
Variable html_name : string.
Variable name_set : gset string.
Import PyStr PyStrFacts.

Lemma resource_part_fields (r : resource) (part : mime_part) :
  resource_part r = Ok part ->
  part_headers part
  = [("Content-ID", "<" ++ res_cid r ++ ">");
     ("Content-Location", default EmptyString (res_name r))]
  /\ part_payload part = Base64Payload (res_data r)
  /\ split_mime (default "application/octet-stream" (res_mime r))
     = Ok (part_maintype part, part_subtype part).
Proof.
  unfold resource_part.
  destruct (split_mime _) as [[a b]|e]; [|discriminate].
  intros [= <-]. repeat split.
Qed.

(** X5: every rewritten reference points into the message: when
    [build_mhtml] returns a message for the resources of the pass, then for
    an image reference that resolves to an entry the message has a part
    whose Content-ID is the identifier the reference was rewritten to, in
    angle brackets, whose Content-Location is the path of the entry and
    whose payload is the bytes read from it; the message has one part for
    the document and one per inlined path. *)
Theorem rewritten_reference_has_part (ps : list piece)
    (outs : list string) (st' : rewriter_state)
    (html_text charset : string) (msg : mime_multipart) :
  sub_pieces zf html_name name_set ps initial_state = Ok (outs, st') ->
  build_mhtml html_text html_name (resources st') charset = Ok msg ->
  length (mp_parts msg) = S (length (inlined st'))
  /\ forall i m rel,
       ps !! i = Some (Img m) ->
       resolves_to html_name name_set m = Some rel ->
       exists k part cid data,
         inlined st' !! k = Some rel
         /\ mp_parts msg !! (S k) = Some part
         /\ outs !! i
            = Some (m_prefix m ++ PyStr.chr (m_quote m)
                    ++ "cid:" ++ cid ++ PyStr.chr (m_quote m))
         /\ part_headers part
            = [("Content-ID", "<" ++ cid ++ ">");
               ("Content-Location", rel)]
         /\ read zf rel = Ok data
         /\ part_payload part = Base64Payload data.
Proof.
  intros Hrun Hmsg.
  destruct (sub_pieces_bookkeeping zf html_name name_set ps _ _ _
              consistent_initial (well_formed_initial zf name_set) Hrun)
    as ((Hcalls & Hlen & Hres) & _ & _).
  destruct (sub_pieces_consistent zf html_name name_set ps _ _ _
              consistent_initial Hrun) as ((Hmap & _ & _) & _ & Hrefs).
  destruct (build_mhtml_cases html_text html_name (resources st') charset)
    as (parts & Hparts & Hcases).
  destruct (build_mhtml_parts _ _ _ _ _ Hmsg) as (_ & _ & Hlook).
  rewrite Hcases in Hmsg.
  destruct (mime_text_error html_text charset); [discriminate|].
  destruct (flatten (root_message html_text html_name charset parts));
    [|discriminate].
  injection Hmsg as <-. simpl. split.
  - f_equal. rewrite Hlen. clear -Hparts.
    revert parts Hparts.
    induction (resources st') as [|r rs IH]; intros parts Hparts;
      simpl in Hparts.
    + injection Hparts as <-. reflexivity.
    + destruct (resource_part r); [|discriminate].
      destruct (resource_parts rs); [|discriminate].
      injection Hparts as <-. simpl. f_equal. apply IH. reflexivity.
  - intros i m rel Hi Hrel.
    destruct (Hrefs i m rel Hi Hrel) as (cid & Hcid & Hout).
    apply Hmap in Hcid as (r & Hr & Hname & <-).
    apply list_elem_of_lookup in Hr as [k Hk].
    destruct (Hlook k r Hk) as (part & Hpart & Hpk).
    destruct (Hres k r Hk) as (rel' & Hik & _ & Hname' & _ & Hread & _).
    assert (rel' = rel) as -> by congruence.
    apply resource_part_fields in Hpart as (Hhead & Hpay & _).
    exists k, part, (res_cid r), (res_data r).
    rewrite Hhead, Hname. simpl in Hpk. auto 10.
Qed.

Lemma before_first_app (sep : ascii) (a b : string) :
  mem sep a = false ->
  before_first sep (a ++ b) = a ++ before_first sep b.
Proof.
  induction a as [|c a IH]; intros Ha; [reflexivity|].
  simpl in Ha. apply orb_false_iff in Ha as [Hc Ha].
  rewrite !append_cons. simpl. rewrite Hc, (IH Ha). reflexivity.
Qed.

Lemma before_first_none (sep : ascii) (a : string) :
  mem sep a = false -> before_first sep a = a.
Proof.
  intros Ha. rewrite <- (append_nil_r a) at 1.
  rewrite (before_first_app _ _ _ Ha). simpl. apply append_nil_r.
Qed.

Lemma before_first_sep (sep : ascii) (a b : string) :
  mem sep a = false -> before_first sep (a ++ String sep b) = a.
Proof.
  intros Ha. rewrite (before_first_app _ _ _ Ha). simpl.
  rewrite Ascii.eqb_refl. apply append_nil_r.
Qed.

Lemma before_first_idem (sep : ascii) (s : string) :
  mem sep (before_first sep s) = false.
Proof.
  induction s as [|c s IH]; simpl; [reflexivity|].
  destruct (Ascii.eqb c sep) eqn:Hc; [reflexivity|].
  simpl. rewrite Hc. exact IH.
Qed.

(** The path core of a value that continues with a query or a
    fragment. *)
Lemma path_core_of_suffix (p suffix : string) (c : ascii) :
  mem "#" p = false -> mem "?" p = false ->
  c = "#"%char \/ c = "?"%char ->
  path_core_of (p ++ String c suffix) = p.
Proof.
  intros Hh Hq [->| ->]; unfold path_core_of.
  - rewrite (before_first_sep _ _ _ Hh). apply before_first_none, Hq.
  - rewrite (before_first_app _ _ _ Hh). simpl.
    apply before_first_sep, Hq.
Qed.

Lemma path_core_of_plain (p : string) :
  mem "#" p = false -> mem "?" p = false -> path_core_of p = p.
Proof.
  intros Hh Hq. unfold path_core_of.
  rewrite (before_first_none _ _ Hh). apply before_first_none, Hq.
Qed.

(** X6: a query string and a fragment do not count: a value that
    continues a path with [?] or [#] resolves to what the path resolves
    to, and when that is an entry of the archive the reference is
    rewritten as the reference with the plain path is, so the query and
    the fragment are dropped from the rewritten value. *)
Theorem query_and_fragment_ignored (prefix : string) (quote : ascii)
    (p suffix : string) (c : ascii) (rel : string) :
  mem "#" p = false -> mem "?" p = false ->
  c = "#"%char \/ c = "?"%char ->
  let plain := {| m_prefix := prefix; m_quote := quote; m_path := p |} in
  let longer := {| m_prefix := prefix; m_quote := quote;
                   m_path := p ++ String c suffix |} in
  resolves_to html_name name_set longer = resolves_to html_name name_set plain
  /\ (resolves_to html_name name_set plain = Some rel ->
      forall st,
        replace_img_src zf html_name name_set longer st
        = replace_img_src zf html_name name_set plain st).
Proof.
  intros Hh Hq Hc plain longer.
  assert (Hres : resolves_to html_name name_set longer
                 = resolves_to html_name name_set plain).
  { unfold resolves_to, longer, plain. simpl.
    rewrite (path_core_of_suffix _ _ _ Hh Hq Hc).
    rewrite (path_core_of_plain _ Hh Hq). reflexivity. }
  split; [exact Hres|].
  intros Hrel st. rewrite !replace_img_src_resolved, Hres, Hrel.
  reflexivity.
Qed.

Lemma path_core_of_cid (cid : string) :
  external_scheme_re_match (path_core_of ("cid:" ++ cid)) = true.
Proof.
  unfold path_core_of.
  change ("cid:" ++ cid) with (String "c" (String "i" (String "d"
                                 (String ":" cid)))).
  simpl. reflexivity.
Qed.

(** X7: a rewritten reference is not rewritten again: the value written
    for a resolved reference begins with the scheme [cid:], which is an
    external scheme, so a match with that value is returned as it is and
    the state is not changed. *)
Theorem rewritten_reference_is_stable (m : img_match) (cid : string)
    (st : rewriter_state) :
  let again := {| m_prefix := m_prefix m; m_quote := m_quote m;
                  m_path := "cid:" ++ cid |} in
  group0 again = cid_reference m cid
  /\ replace_img_src zf html_name name_set again st
     = Ok (cid_reference m cid, st).
Proof.
  intros again.
  assert (Hg : group0 again = cid_reference m cid).
  { unfold group0, cid_reference, again. simpl.
    rewrite !append_assoc. reflexivity. }
  split; [exact Hg|].
  unfold replace_img_src. change (m_path again) with ("cid:" ++ cid).
  rewrite path_core_of_cid, Hg. reflexivity.
Qed.

End ReferenceProperties.

Section RewriterPropertyRuns.
#[local] Existing Instance Demo.demo_library.

Lemma sub_img_src_identity_witness :
  (exists m, Img m ∈ scan_img_src 0 Samples.external_only)
  /\ sub_img_src Demo.flat_zf "index.html" Demo.flat_name_set
       Samples.external_only initial_state
     = Ok (Samples.external_only, initial_state).
Proof.
  split.
  - eexists. apply list_elem_of_In. vm_compute. do 8 right. left.
    reflexivity.
  - apply (sub_img_src_identity Demo.flat_zf "index.html"
             Demo.flat_name_set Samples.external_only).
    apply unresolved_check. vm_compute. reflexivity.
Defined.

Lemma sub_pieces_error_from_read_witness :
  sub_pieces Samples.backslash_zf "index.html" Samples.backslash_name_set
    Samples.backslash_pieces initial_state = Err KeyError
  /\ exists rel, rel ∈ Samples.backslash_name_set
                 /\ read Samples.backslash_zf rel = Err KeyError.
Proof.
  split; [vm_compute; reflexivity|].
  apply (sub_pieces_error_from_read Samples.backslash_zf "index.html"
           Samples.backslash_name_set Samples.backslash_pieces
           initial_state KeyError).
  vm_compute. reflexivity.
Defined.

Lemma sub_pieces_first_reference_order_witness :
  exists outs st',
    sub_pieces Demo.flat_zf "index.html" Demo.flat_name_set
      Demo.index_pieces initial_state = Ok (outs, st')
    /\ resolved_paths "index.html" Demo.flat_name_set Demo.index_pieces
       = ["img/a.png"; "img/a.png"; "img/a b.png"]
    /\ inlined st' = ["img/a.png"; "img/a b.png"]
    /\ uuid_calls st' = 2.
Proof.
  destruct (sub_pieces Demo.flat_zf "index.html" Demo.flat_name_set
              Demo.index_pieces initial_state) as [[outs st']|e] eqn:Hrun;
    [|vm_compute in Hrun; discriminate].
  exists outs, st'. split; [reflexivity|].
  destruct (sub_pieces_first_reference_order Demo.flat_zf "index.html"
              Demo.flat_name_set Demo.index_pieces outs st' Hrun)
    as (Hinl & _ & Hcalls & _).
  split; [vm_compute; reflexivity|].
  split; [rewrite Hinl; vm_compute; reflexivity|].
  rewrite Hcalls, Hinl. vm_compute. reflexivity.
Defined.

Lemma sub_pieces_distinct_cids_witness :
  exists outs st',
    sub_pieces Demo.flat_zf "index.html" Demo.flat_name_set
      Demo.index_pieces initial_state = Ok (outs, st')
    /\ NoDup (map res_cid (resources st')).
Proof.
  destruct (sub_pieces Demo.flat_zf "index.html" Demo.flat_name_set
              Demo.index_pieces initial_state) as [[outs st']|e] eqn:Hrun;
    [|vm_compute in Hrun; discriminate].
  exists outs, st'. split; [reflexivity|].
  apply (sub_pieces_distinct_cids Demo.flat_zf "index.html"
           Demo.flat_name_set Demo.index_pieces outs st' Hrun).
  assert (Hcalls : uuid_calls st' = 2).
  { vm_compute in Hrun. injection Hrun as _ <-. reflexivity. }
  rewrite Hcalls. intros i j Hi Hj.
  destruct i as [|[|i]]; destruct j as [|[|j]]; try lia;
    first [reflexivity | vm_compute; discriminate].
Defined.

Lemma rewritten_reference_has_part_witness :
  exists outs st' msg,
    sub_pieces Demo.flat_zf "index.html" Demo.flat_name_set
      Demo.index_pieces initial_state = Ok (outs, st')
    /\ build_mhtml (concat_strings outs) "index.html" (resources st') "utf-8"
       = Ok msg
    /\ length (mp_parts msg) = S (length (inlined st')).
Proof.
  destruct (sub_pieces Demo.flat_zf "index.html" Demo.flat_name_set
              Demo.index_pieces initial_state) as [[outs st']|e] eqn:Hrun;
    [|vm_compute in Hrun; discriminate].
  destruct (build_mhtml (concat_strings outs) "index.html" (resources st')
              "utf-8") as [msg|e] eqn:Hmsg.
  - destruct (rewritten_reference_has_part Demo.flat_zf "index.html"
                Demo.flat_name_set Demo.index_pieces outs st'
                (concat_strings outs) "utf-8" msg Hrun Hmsg) as (Hlen & _).
    exists outs, st', msg. auto.
  - exfalso. vm_compute in Hrun. injection Hrun as <- <-.
    vm_compute in Hmsg. discriminate.
Defined.

Lemma query_and_fragment_ignored_witness :
  resolves_to "index.html" Demo.flat_name_set Samples.img_a
  = Some "img/a.png"
  /\ resolves_to "index.html" Demo.flat_name_set Samples.img_a_query
     = resolves_to "index.html" Demo.flat_name_set Samples.img_a
  /\ replace_img_src Demo.flat_zf "index.html" Demo.flat_name_set
       Samples.img_a_query initial_state
     = replace_img_src Demo.flat_zf "index.html" Demo.flat_name_set
         Samples.img_a initial_state.
Proof.
  split; [vm_compute; reflexivity|].
  destruct (query_and_fragment_ignored Demo.flat_zf "index.html"
              Demo.flat_name_set "<img src=" double_quote "img/a.png"
              "v=2#top" "?"%char "img/a.png")
    as (Hres & Hrep); [reflexivity | reflexivity | right; reflexivity |].
  split; [exact Hres|]. apply Hrep. vm_compute. reflexivity.
Defined.

End RewriterPropertyRuns.

(** ** The Archive Navigator and the Conversion Orchestrator together *)

Section OrchestratorFacts.
Context `{Library}.
Import PyStr PyStrFacts.

(** X8: a negative [max_depth] gives not-found for every input; with a
    [max_depth] that is not negative, an archive that itself lists an HTML
    entry is returned as it is, whatever archives are nested in it. *)
Theorem find_leaf_zip_with_html_root (root : bytes) (max_depth : Z) :
  ((max_depth < 0)%Z -> find_leaf_zip_with_html root max_depth = Ok None)
  /\ ((0 <= max_depth)%Z -> html_layer root ->
      find_leaf_zip_with_html root max_depth = Ok (Some root)).
Proof.
  unfold find_leaf_zip_with_html. split.
  - intros Hneg. rewrite helper_eq.
    destruct (Z.ltb_spec max_depth 0); [reflexivity | lia].
  - intros Hpos (zf & Hopen & Hhtml). rewrite helper_eq.
    destruct (Z.ltb_spec max_depth 0); [lia|].
    destruct (Z.to_nat (max_depth + 1)) as [|fuel] eqn:Hfuel; [lia|].
    unfold helper_body. rewrite Hopen, Hhtml. reflexivity.
Qed.

(** The layer [find_leaf_zip_with_html] returns is nested in the input,
    at most [max_depth] deep. *)
Lemma find_leaf_returns_nested (root : bytes) (max_depth : Z)
    (leaf : bytes) :
  find_leaf_zip_with_html root max_depth = Ok (Some leaf) ->
  exists d, (Z.of_nat d <= max_depth)%Z /\ nested_at d root leaf.
Proof.
  unfold find_leaf_zip_with_html. intros Hleaf.
  assert (Hag : agree (helper (Z.to_nat (max_depth + 1)) max_depth root 0 ∅)
                      (traverse (Z.to_nat (max_depth + 1)) root ∅))
    by (apply helper_agree; f_equal; lia).
  unfold agree in Hag.
  destruct (find html_layerb (traverse _ root ∅).1.1) as [l|] eqn:Hfind.
  - rewrite Hag in Hleaf. injection Hleaf as ->.
    apply find_some in Hfind as [Hin _]. apply list_elem_of_In in Hin.
    apply traverse_nested in Hin as (d & Hd & Hnest).
    exists d. split; [lia | exact Hnest].
  - rewrite Hag in Hleaf. simpl in Hleaf.
    destruct ((traverse _ root ∅).1.2); discriminate.
Qed.

(** X9: an override does not make up for a missing HTML name: when no
    archive nested in the input at most ten deep lists an entry ending in
    .html or .htm, [process_zip] fails for every override, an override
    that names an entry of the archive among them, with the error for a
    missing HTML layer or with the exception that ended the search. *)
Theorem process_zip_needs_html_name (root : bytes) :
  (forall d l, (Z.of_nat d <= 10)%Z -> nested_at d root l ->
               ~ html_layer l) ->
  forall html_name_override,
    process_zip root html_name_override
    = Err (RuntimeError NoHtmlLayerFound)
    \/ exists e, find_leaf_zip_with_html root 10 = Err e
                 /\ process_zip root html_name_override = Err e.
Proof.
  intros Hnone ov. unfold process_zip.
  destruct (find_leaf_zip_with_html root 10) as [[leaf|]|e] eqn:Hleaf.
  - exfalso.
    destruct (find_leaf_returns_nested _ _ _ Hleaf) as (d & Hd & Hnest).
    apply (Hnone d leaf Hd Hnest).
    eapply find_leaf_returns_html_layer. exact Hleaf.
  - left. reflexivity.
  - right. eauto.
Qed.

Lemma pick_main_html_in (names : list string) :
  nonempty (pick_main_html names) = true -> pick_main_html names ∈ names.
Proof.
  induction names as [|n names IH]; simpl; [discriminate|].
  destruct (is_html_name n); [left|]. intros Hne. right. apply IH, Hne.
Qed.

(** What the selection returns is a name of the listing. *)
Lemma select_main_html_in (names : list string) (ov : option string)
    (n : string) :
  select_main_html names ov = Ok n -> n ∈ names.
Proof.
  unfold select_main_html.
  assert (Hpick : (if nonempty (pick_main_html names)
                   then Ok (pick_main_html names)
                   else Err (RuntimeError NoHtmlFound)) = Ok n ->
                  n ∈ names).
  { destruct (nonempty (pick_main_html names)) eqn:Hne; [|discriminate].
    intros [= <-]. apply pick_main_html_in, Hne. }
  destruct ov as [o|]; [|exact Hpick].
  destruct (nonempty o); [|exact Hpick].
  destruct (bool_decide_reflect (o ∈ names)); [|discriminate].
  intros [= <-]. assumption.
Qed.

(** X10: what a successful conversion returns: the main HTML is an entry
    of the layer found, which lists an HTML entry and is nested at most
    ten deep; the inlined paths are entries of that layer, each listed
    once; the message has the document as its first part, of type
    text/html with the detected charset, and after it one part per
    inlined path, in the same order, with that path as its
    Content-Location. *)
Theorem process_zip_returns (root : bytes) (ov : option string)
    (html_name : string) (paths : list string) (msg : mime_multipart) :
  process_zip root ov = Ok (html_name, paths, msg) ->
  exists leaf zf d html_bytes,
    (Z.of_nat d <= 10)%Z
    /\ nested_at d root leaf
    /\ zip_open leaf = Ok zf
    /\ has_html (layer_names zf) = true
    /\ html_name ∈ layer_names zf
    /\ read zf html_name = Ok html_bytes
    /\ NoDup paths
    /\ (forall rel, rel ∈ paths -> rel ∈ layer_names zf)
    /\ length (mp_parts msg) = S (length paths)
    /\ (exists part text,
          mp_parts msg !! 0 = Some part
          /\ part_maintype part = "text" /\ part_subtype part = "html"
          /\ part_payload part
             = TextPayload text (detect_encoding html_bytes))
    /\ (forall k rel,
          paths !! k = Some rel ->
          exists part cid data,
            mp_parts msg !! (S k) = Some part
            /\ part_headers part
               = [("Content-ID", "<" ++ cid ++ ">");
                  ("Content-Location", rel)]
            /\ read zf rel = Ok data
            /\ part_payload part = Base64Payload data).
Proof.
  unfold process_zip. intros Hrun.
  destruct (find_leaf_zip_with_html root 10) as [[leaf|]|e] eqn:Hleaf;
    try discriminate.
  destruct (find_leaf_returns_nested _ _ _ Hleaf) as (d & Hd & Hnest).
  destruct (find_leaf_returns_html_layer _ _ _ Hleaf)
    as (zf & Hopen & Hhtml).
  rewrite Hopen in Hrun.
  destruct (select_main_html (layer_names zf) ov) as [n|e] eqn:Hsel;
    [|discriminate].
  apply select_main_html_in in Hsel.
  unfold convert_document in Hrun.
  destruct (read zf n) as [html_bytes|e] eqn:Hread; [|discriminate].
  destruct (decode _ html_bytes) as [html_text|e]; [|discriminate].
  unfold sub_img_src in Hrun.
  destruct (sub_pieces zf n (list_to_set (layer_names zf))
              (scan_img_src 0 html_text) initial_state)
    as [[outs st]|e] eqn:Hpass; [|discriminate].
  destruct (sub_pieces_bookkeeping zf n _ _ _ _ _
              consistent_initial (well_formed_initial zf _) Hpass)
    as ((Hcalls & Hlen & Hres) & _ & _).
  destruct (sub_pieces_consistent zf n _ _ _ _ _ consistent_initial Hpass)
    as ((Hmap & Hnodup & Hinl) & _ & _).
  unfold build_mhtml in Hrun.
  destruct (mime_text_error (concat_strings outs)
              (detect_encoding html_bytes)) eqn:Hmime; [discriminate|].
  destruct (resource_parts_lookup (resources st))
    as (parts & Hparts & Hlook).
  rewrite Hparts in Hrun. cbv zeta in Hrun.
  destruct (flatten (root_message (concat_strings outs) n
                       (detect_encoding html_bytes) parts));
    [|discriminate].
  injection Hrun as <- <- <-.
  assert (Hplen : length parts = length (resources st)).
  { clear -Hparts. revert parts Hparts.
    induction (resources st) as [|r rs IH]; intros parts Hparts;
      simpl in Hparts.
    - injection Hparts as <-. reflexivity.
    - destruct (resource_part r); [|discriminate].
      destruct (resource_parts rs); [|discriminate].
      injection Hparts as <-. simpl. f_equal. apply IH. reflexivity. }
  exists leaf, zf, d, html_bytes.
  do 6 (split; [assumption|]).
  split; [|split; [|split; [|split]]].
  - rewrite Hinl in Hnodup. eapply NoDup_fmap; [|exact Hnodup].
    intros x y [= ->]. reflexivity.
  - intros rel Hrel. apply list_elem_of_lookup in Hrel as [k Hk].
    assert (Hlt : k < length (resources st))
      by (rewrite <- Hlen; eapply lookup_lt_Some; exact Hk).
    apply lookup_lt_is_Some in Hlt as [r Hr].
    destruct (Hres k r Hr) as (rel' & Hk' & Hin & _).
    assert (rel' = rel) as -> by congruence.
    apply elem_of_list_to_set in Hin. exact Hin.
  - simpl. f_equal. congruence.
  - eexists _, _. split; [reflexivity|]. repeat split.
  - intros k rel Hk.
    assert (Hlt : k < length (resources st))
      by (rewrite <- Hlen; eapply lookup_lt_Some; exact Hk).
    apply lookup_lt_is_Some in Hlt as [r Hr].
    destruct (Hres k r Hr) as (rel' & Hk' & _ & Hname & _ & Hdata & _).
    assert (rel' = rel) as -> by congruence.
    destruct (Hlook k r Hr) as (part & Hpart & Hpk).
    apply resource_part_fields in Hpart as (Hhead & Hpay & _).
    exists part, (res_cid r), (res_data r).
    rewrite Hhead, Hname. auto.
Qed.

End OrchestratorFacts.

Section OrchestratorRuns.
#[local] Existing Instance Demo.demo_library.

Lemma find_leaf_zip_with_html_root_witness :
  find_leaf_zip_with_html Demo.flat_zip (-1) = Ok None
  /\ find_leaf_zip_with_html Demo.flat_zip 0 = Ok (Some Demo.flat_zip).
Proof.
  destruct (find_leaf_zip_with_html_root Demo.flat_zip (-1)) as (Hneg & _).
  destruct (find_leaf_zip_with_html_root Demo.flat_zip 0) as (_ & Hroot).
  split; [apply Hneg; lia|].
  apply Hroot; [lia|].
  exists (Demo.table Demo.flat_entries). split; reflexivity.
Defined.

Lemma process_zip_needs_html_name_witness :
  read (Demo.table Demo.inner_a_entries) "a.txt"
  = Ok (Demo.bytes_of_string "text")
  /\ process_zip Demo.inner_a (Some "a.txt")
     = Err (RuntimeError NoHtmlLayerFound).
Proof.
  split; [reflexivity|].
  destruct (process_zip_needs_html_name Demo.inner_a) with
    (html_name_override := Some "a.txt") as [Hfail|(e & He & _)].
  - intros d l Hd Hnest (zf & Hopen & Hhtml).
    inversion Hnest as [b|d0 b child layer zf0 n Hopen0 Hn Hzip Hread Hrest];
      subst.
    + vm_compute in Hopen. injection Hopen as <-.
      vm_compute in Hhtml. discriminate.
    + vm_compute in Hopen0. injection Hopen0 as <-.
      apply list_elem_of_In in Hn. vm_compute in Hn.
      destruct Hn as [<-|[]]. vm_compute in Hzip. discriminate.
  - exact Hfail.
  - vm_compute in He. discriminate.
Defined.

Lemma process_zip_returns_witness :
  exists html_name paths msg,
    process_zip Demo.outer_zip None = Ok (html_name, paths, msg)
    /\ html_name = "index.html"
    /\ NoDup paths
    /\ length (mp_parts msg) = S (length paths).
Proof.
  destruct (process_zip Demo.outer_zip None) as [[[n paths] msg]|e]
    eqn:Hrun; [|vm_compute in Hrun; discriminate].
  exists n, paths, msg. split; [reflexivity|].
  destruct (process_zip_returns Demo.outer_zip None n paths msg Hrun)
    as (leaf & zf & d & html_bytes & _ & _ & _ & _ & _ & _ & Hnodup & _
        & Hlen & _).
  split; [|split; assumption].
  vm_compute in Hrun. injection Hrun as <- _ _. reflexivity.
Defined.

End OrchestratorRuns.

(** ** Slices at the last separator *)

Section LastSeparator.
Import PyStr PyStrFacts.

(** [rfind] returns [-1] when the character does not occur, and else the
    length of the text before its last occurrence. *)
Lemma rfind_spec (c : ascii) (s : string) :
  (rfind c s = (-1)%Z /\ mem c s = false)
  \/ exists a b,
       s = a ++ String c b
       /\ rfind c s = Z.of_nat (String.length a)
       /\ mem c b = false.
Proof.
  induction s as [|x s IH]; simpl.
  - left. split; reflexivity.
  - destruct IH as [[Hr Hm]|(a & b & -> & Hr & Hb)].
    + rewrite Hr. simpl. destruct (Ascii.eqb_spec x c) as [->|Hxc].
      * right. exists EmptyString, s. repeat split. exact Hm.
      * left. split; [reflexivity|]. simpl. exact Hm.
    + right. exists (String x a), b. rewrite Hr.
      destruct (Z.leb_spec 0 (Z.of_nat (String.length a))); [|lia].
      repeat split; [|exact Hb]. simpl String.length. lia.
Qed.

Lemma take_append (a b : string) : take (String.length a) (a ++ b) = a.
Proof.
  induction a as [|x a IH]; [destruct b; reflexivity|].
  rewrite append_cons. simpl. rewrite IH. reflexivity.
Qed.

Lemma drop_length_append (a b : string) :
  drop (String.length a) (a ++ b) = b.
Proof.
  induction a as [|x a IH]; [destruct b; reflexivity|].
  rewrite append_cons. simpl. exact IH.
Qed.

Lemma append_char (a : string) (c : ascii) (b : string) :
  a ++ String c b = (a ++ chr c) ++ b.
Proof. rewrite append_assoc. reflexivity. Qed.

Lemma length_append_char (a : string) (c : ascii) :
  String.length (a ++ chr c) = S (String.length a).
Proof. rewrite length_append. simpl. lia. Qed.

Lemma mem_append (c : ascii) (a b : string) :
  mem c (a ++ b) = mem c a || mem c b.
Proof.
  induction a as [|x a IH]; [reflexivity|].
  rewrite append_cons. simpl. rewrite IH, orb_assoc. reflexivity.
Qed.

Lemma mem_append_sep (c : ascii) (a b : string) :
  mem c (a ++ String c b) = true.
Proof.
  rewrite mem_append. simpl. rewrite Ascii.eqb_refl.
  apply orb_true_r.
Qed.

(** The cut at the last occurrence of a character is unique. *)
Lemma last_cut_unique (c : ascii) (a b a' b' : string) :
  mem c b = false -> mem c b' = false ->
  a ++ String c b = a' ++ String c b' ->
  a = a' /\ b = b'.
Proof.
  intros Hb Hb'. revert a'. induction a as [|x a IH]; intros a' Heq.
  - destruct a' as [|y a'].
    + rewrite !append_nil_l in Heq. injection Heq as ->. auto.
    + rewrite append_nil_l, append_cons in Heq. injection Heq as _ Heq.
      rewrite Heq, mem_append_sep in Hb. discriminate.
  - destruct a' as [|y a'].
    + rewrite append_nil_l, append_cons in Heq. injection Heq as _ Heq.
      rewrite <- Heq, mem_append_sep in Hb'. discriminate.
    + rewrite !append_cons in Heq. injection Heq as -> Heq.
      destruct (IH a' Heq) as [-> ->]. auto.
Qed.

(** [rfind] of an absent character, and of a last occurrence. *)
Lemma rfind_absent (c : ascii) (s : string) :
  mem c s = false -> rfind c s = (-1)%Z.
Proof.
  intros Hs. destruct (rfind_spec c s) as [[Hr _]|(a & b & -> & _ & _)];
    [exact Hr|].
  rewrite mem_append_sep in Hs. discriminate.
Qed.

Lemma rfind_last (c : ascii) (a b : string) :
  mem c b = false -> rfind c (a ++ String c b) = Z.of_nat (String.length a).
Proof.
  intros Hb.
  destruct (rfind_spec c (a ++ String c b))
    as [[_ Hm]|(a' & b' & Heq & Hr & Hb')].
  - rewrite mem_append_sep in Hm. discriminate.
  - destruct (last_cut_unique _ _ _ _ _ Hb Hb' Heq) as [<- <-]. exact Hr.
Qed.

(** [basename] is the text after the last slash. *)
Lemma basename_split (a b : string) :
  mem PosixPath.sep b = false ->
  PosixPath.basename (a ++ String PosixPath.sep b) = b.
Proof.
  intros Hb. unfold PosixPath.basename.
  destruct (rfind_spec PosixPath.sep (a ++ String PosixPath.sep b))
    as [[_ Hm]|(a' & b' & Heq & -> & Hb')].
  - rewrite mem_append_sep in Hm. discriminate.
  - destruct (last_cut_unique _ _ _ _ _ Hb Hb' Heq) as [<- <-].
    replace (Z.to_nat (Z.of_nat (String.length a) + 1))
      with (String.length (a ++ chr PosixPath.sep))
      by (rewrite length_append_char; lia).
    rewrite (append_char a), drop_length_append. reflexivity.
Qed.

Lemma basename_plain (s : string) :
  mem PosixPath.sep s = false -> PosixPath.basename s = s.
Proof.
  intros Hs. unfold PosixPath.basename.
  destruct (rfind_spec PosixPath.sep s)
    as [[-> _]|(a & b & -> & _ & _)]; [reflexivity|].
  rewrite mem_append_sep in Hs. discriminate.
Qed.

(** Every text is a plain name, or a head that ends in a slash followed
    by a plain name. *)
Lemma last_separator_split (s : string) :
  mem PosixPath.sep s = false
  \/ exists a b, s = a ++ String PosixPath.sep b
                 /\ mem PosixPath.sep b = false.
Proof.
  destruct (rfind_spec PosixPath.sep s) as [[_ Hm]|(a & b & -> & _ & Hb)];
    [left; assumption | right; eauto].
Qed.

End LastSeparator.

(** ** More of the MIME Packager *)

Section PackagerProperties.
Context `{Library}.
Import PyStr PyStrFacts.

(** The Content-Location of the document part: the text of [html_name]
    after its last slash, or [index.html] when that is empty. *)
Lemma document_location (html_text html_name charset : string) :
  exists location,
    part_headers (document_part html_text html_name charset)
    = [("Content-Location", location)]
    /\ nonempty location = true
    /\ mem "/" location = false
    /\ ((exists head, html_name = head ++ location
                      /\ (head = EmptyString \/ endswith "/" head = true))
        \/ (location = "index.html"
            /\ (html_name = EmptyString
                \/ endswith "/" html_name = true))).
Proof.
  unfold document_part. eexists. split; [reflexivity|]. cbv zeta.
  destruct (last_separator_split html_name) as [Hplain|(a & b & -> & Hb)].
  - rewrite (basename_plain _ Hplain).
    destruct html_name as [|c s]; simpl nonempty; cbv iota.
    + split; [reflexivity|]. split; [reflexivity|]. right. auto.
    + split; [reflexivity|]. split; [exact Hplain|].
      left. exists EmptyString. auto.
  - rewrite (basename_split _ _ Hb).
    destruct b as [|c s]; simpl nonempty; cbv iota.
    + split; [reflexivity|]. split; [reflexivity|]. right.
      split; [reflexivity|]. right. apply endswith_spec. eauto.
    + split; [reflexivity|]. split; [exact Hb|].
      left. exists (a ++ "/"). split.
      * rewrite append_assoc. reflexivity.
      * right. apply endswith_spec. eauto.
Qed.

(** X11: what [build_mhtml] raises and what it builds.  Whatever the
    resources, the loop over them raises nothing: an exception of
    [build_mhtml] is the one of [MIMEText] for the text and the charset,
    or the one of the serialization of the message with the parts of the
    resources, and when neither raises the message is returned.  The message is multipart/related with the
    parameter type text/html; its first part is the document, of type
    text/html, whose Content-Location is the text of [html_name] after
    its last slash, or [index.html] when that is empty: the location is
    never empty and holds no slash. *)
Theorem build_mhtml_document_part (html_text html_name : string)
    (rs : list resource) (charset : string) :
  (forall e,
     build_mhtml html_text html_name rs charset = Err e ->
     mime_text_error html_text charset = Some e
     \/ exists parts,
          resource_parts rs = Ok parts
          /\ flatten (root_message html_text html_name charset parts)
             = Err e)
  /\ (mime_text_error html_text charset = None ->
      (forall parts e,
         flatten (root_message html_text html_name charset parts)
         <> Err e) ->
      exists msg, build_mhtml html_text html_name rs charset = Ok msg)
  /\ (forall msg,
        build_mhtml html_text html_name rs charset = Ok msg ->
        mime_text_error html_text charset = None
        /\ (exists mhtml_bytes, flatten msg = Ok mhtml_bytes)
        /\ mp_subtype msg = "related"
        /\ mp_headers msg = [("MIME-Version", "1.0")]
        /\ mp_params msg = [("type", "text/html")]
        /\ length (mp_parts msg) = S (length rs)
        /\ exists part location,
             mp_parts msg !! 0 = Some part
             /\ part_maintype part = "text" /\ part_subtype part = "html"
             /\ part_payload part = TextPayload html_text charset
             /\ part_headers part = [("Content-Location", location)]
             /\ nonempty location = true
             /\ mem "/" location = false
             /\ ((exists head, html_name = head ++ location
                               /\ (head = EmptyString
                                   \/ endswith "/" head = true))
                 \/ (location = "index.html"
                     /\ (html_name = EmptyString
                         \/ endswith "/" html_name = true)))).
Proof.
  destruct (build_mhtml_cases html_text html_name rs charset)
    as (parts & Hparts & ->).
  assert (Hlen : length parts = length rs).
  { clear -Hparts. revert parts Hparts.
    induction rs as [|r rs IH]; intros parts Hparts; simpl in Hparts.
    - injection Hparts as <-. reflexivity.
    - destruct (resource_part r); [|discriminate].
      destruct (resource_parts rs); [|discriminate].
      injection Hparts as <-. simpl. f_equal. apply IH. reflexivity. }
  split; [|split].
  - intros e He.
    destruct (mime_text_error html_text charset) as [e'|];
      [left; congruence|].
    destruct (flatten (root_message html_text html_name charset parts))
      as [b|e'] eqn:Hflat; [discriminate|].
    right. exists parts. split; [exact Hparts | congruence].
  - intros -> Hflat.
    destruct (flatten (root_message html_text html_name charset parts))
      as [b|e'] eqn:Hf; [eauto|].
    exfalso. eapply Hflat. exact Hf.
  - intros msg Hmsg.
    destruct (mime_text_error html_text charset) as [e'|]; [discriminate|].
    destruct (flatten (root_message html_text html_name charset parts))
      as [b|e'] eqn:Hflat; [|discriminate].
    injection Hmsg as <-. split; [reflexivity|]. split; [eauto|].
    do 3 (split; [reflexivity|]).
    split; [simpl; rewrite Hlen; reflexivity|].
    destruct (document_location html_text html_name charset)
      as (location & Hhead & Hloc).
    exists (document_part html_text html_name charset), location.
    split; [reflexivity|]. do 3 (split; [reflexivity|]).
    split; [exact Hhead | exact Hloc].
Qed.

Lemma split1_at_first (sep : ascii) (a b : string) :
  mem sep a = false -> split1 sep (a ++ String sep b) = [a; b].
Proof.
  induction a as [|c a IH]; intros Ha.
  - rewrite append_nil_l. simpl. rewrite Ascii.eqb_refl. reflexivity.
  - simpl in Ha. apply orb_false_iff in Ha as [Hc Ha].
    rewrite append_cons. simpl. rewrite Hc, (IH Ha). reflexivity.
Qed.

(** X12: the type of a resource part: a MIME string is cut at its first
    slash into maintype and subtype, and a resource without a MIME string
    is emitted as application/octet-stream; a resource without a name
    gets the empty Content-Location. *)
Theorem resource_part_types (res : resource) :
  (forall a b,
     res_mime res = Some (a ++ String "/" b) -> mem "/" a = false ->
     exists part, resource_part res = Ok part
                  /\ part_maintype part = a /\ part_subtype part = b)
  /\ (res_mime res = None ->
      exists part, resource_part res = Ok part
                   /\ part_maintype part = "application"
                   /\ part_subtype part = "octet-stream")
  /\ (res_name res = None ->
      exists part, resource_part res = Ok part
                   /\ part_headers part
                      = [("Content-ID", "<" ++ res_cid res ++ ">");
                         ("Content-Location", EmptyString)]).
Proof.
  split; [|split].
  - intros a b Hmime Ha. unfold resource_part. rewrite Hmime. simpl.
    unfold split_mime. rewrite (split1_at_first _ _ _ Ha). simpl.
    eexists. repeat split.
  - intros Hmime. unfold resource_part. rewrite Hmime. simpl.
    eexists. repeat split.
  - intros Hname. destruct (resource_part_total res) as [part Hpart].
    exists part. split; [exact Hpart|].
    apply resource_part_fields in Hpart as (-> & _). rewrite Hname.
    reflexivity.
Qed.

Lemma resource_part_types_witness :
  exists part,
    resource_part {| res_name := None; res_cid := "c@mhtml";
                     res_data := []; res_mime := Some "image/svg+xml/x" |}
    = Ok part
    /\ part_maintype part = "image" /\ part_subtype part = "svg+xml/x".
Proof.
  destruct (resource_part_types
              {| res_name := None; res_cid := "c@mhtml";
                 res_data := []; res_mime := Some "image/svg+xml/x" |})
    as (Hcut & _).
  apply (Hcut "image" "svg+xml/x"); reflexivity.
Defined.

End PackagerProperties.

Section PackagerPropertyRuns.
#[local] Existing Instance Demo.demo_library.

Lemma build_mhtml_document_part_witness :
  (exists msg,
     build_mhtml "<p></p>" "sub/index.html" [Demo.odd_resource] "utf-8"
     = Ok msg
     /\ length (mp_parts msg) = 2)
  /\ mime_text_error (PyStr.chr (ascii_of_nat 233)) "ascii"
     = Some (OtherException "UnicodeEncodeError")
  /\ build_mhtml (PyStr.chr (ascii_of_nat 233)) "index.html" [] "ascii"
     = Err (OtherException "UnicodeEncodeError")
  /\ build_mhtml "<p></p>" "index.html" [Demo.accented_resource] "utf-8"
     = Err (OtherException "UnicodeEncodeError").
Proof.
  split; [|split; [reflexivity|split; [|vm_compute; reflexivity]]].
  - destruct (build_mhtml "<p></p>" "sub/index.html" [Demo.odd_resource]
                "utf-8") as [msg|e] eqn:Hmsg;
      [|vm_compute in Hmsg; discriminate].
    destruct (build_mhtml_document_part "<p></p>" "sub/index.html"
                [Demo.odd_resource] "utf-8") as (_ & _ & Hok).
    destruct (Hok msg Hmsg) as (_ & _ & _ & _ & _ & Hlen & _).
    exists msg. split; [reflexivity | exact Hlen].
  - destruct (build_mhtml (PyStr.chr (ascii_of_nat 233)) "index.html" []
                "ascii") as [msg|e] eqn:Hmsg;
      [vm_compute in Hmsg; discriminate|].
    destruct (build_mhtml_document_part (PyStr.chr (ascii_of_nat 233))
                "index.html" [] "ascii") as (Herr & _).
    destruct (Herr e Hmsg) as [Hm|(parts & _ & Hroot)].
    + vm_compute in Hm. congruence.
    + vm_compute in Hmsg. congruence.
Defined.

End PackagerPropertyRuns.

(** ** The window of the Encoding Detector *)

Section EncodingWindow.

Lemma bytes_startswith_take (p b : bytes) (n : nat) :
  length p <= n -> bytes_startswith p (take n b) = bytes_startswith p b.
Proof.
  revert b n. induction p as [|x p IH]; intros b n Hn; [reflexivity|].
  destruct n as [|n]; [simpl in Hn; lia|].
  destruct b as [|y b]; [reflexivity|]. simpl.
  rewrite IH by (simpl in Hn; lia). reflexivity.
Qed.

Lemma detect_encoding_take (b : bytes) :
  detect_encoding (take (Z.to_nat 8192) b) = detect_encoding b.
Proof.
  unfold detect_encoding.
  assert (Hn : 3 <= Z.to_nat 8192) by lia.
  generalize dependent (Z.to_nat 8192). intros n Hn.
  rewrite !bytes_startswith_take by (simpl; lia).
  rewrite take_take, Nat.min_id. reflexivity.
Qed.

(** X13: only the first 8192 bytes count: two buffers with the same
    first 8192 bytes get the same encoding, so what follows 8192 bytes, a
    charset declaration for one, changes nothing. *)
Theorem detect_encoding_window (head tail : bytes) :
  length head = Z.to_nat 8192 ->
  detect_encoding (head ++ tail) = detect_encoding head.
Proof.
  intros Hlen.
  rewrite <- (detect_encoding_take (head ++ tail)).
  rewrite take_app_length' by (symmetry; exact Hlen). reflexivity.
Qed.

Lemma detect_encoding_window_witness :
  detect_encoding Samples2.late_declaration = "gb2312"
  /\ detect_encoding (Samples2.padding ++ Samples2.late_declaration)
     = detect_encoding Samples2.padding.
Proof.
  split; [vm_compute; reflexivity|].
  apply (detect_encoding_window Samples2.padding Samples2.late_declaration).
  apply length_replicate.
Defined.

End EncodingWindow.

(** ** Resolution by components *)

Section ComponentFacts.
Import PyStr PyStrFacts PosixPath.

Lemma join_cons (x y : string) (l : list string) :
  PyStr.join "/" (x :: y :: l) = x ++ String sep (PyStr.join "/" (y :: l)).
Proof. reflexivity. Qed.

Lemma join_app (l1 l2 : list string) :
  l1 <> [] -> l2 <> [] ->
  PyStr.join "/" (l1 ++ l2)
  = PyStr.join "/" l1 ++ String sep (PyStr.join "/" l2).
Proof.
  intros H1 H2. induction l1 as [|x l1 IH]; [contradiction|].
  destruct l1 as [|y l1].
  - destruct l2 as [|z l2]; [contradiction|]. reflexivity.
  - change ((x :: y :: l1) ++ l2)%list with (x :: (y :: l1) ++ l2)%list.
    change ((y :: l1) ++ l2)%list with (y :: l1 ++ l2)%list.
    rewrite join_cons.
    change (y :: l1 ++ l2)%list with ((y :: l1) ++ l2)%list.
    rewrite IH by discriminate. rewrite join_cons.
    rewrite append_assoc, append_cons. reflexivity.
Qed.

Lemma split_plain (s : string) :
  mem sep s = false -> split sep s = [s].
Proof.
  induction s as [|c s IH]; intros Hs; [reflexivity|].
  simpl in Hs. apply orb_false_iff in Hs as [Hc Hs].
  simpl. rewrite Hc, (IH Hs). reflexivity.
Qed.

Lemma split_at_sep (a b : string) :
  mem sep a = false -> split sep (a ++ String sep b) = a :: split sep b.
Proof.
  induction a as [|c a IH]; intros Ha.
  - rewrite append_nil_l. simpl. reflexivity.
  - simpl in Ha. apply orb_false_iff in Ha as [Hc Ha].
    rewrite append_cons. simpl. rewrite Hc, (IH Ha). reflexivity.
Qed.

(** Splitting a joined list of components gives the components back. *)
Lemma split_join (l : list string) :
  l <> [] -> Forall (fun c => mem sep c = false) l ->
  split sep (PyStr.join "/" l) = l.
Proof.
  intros Hne Hall. induction Hall as [|x l Hx Hall IH]; [contradiction|].
  destruct l as [|y l].
  - apply split_plain. exact Hx.
  - rewrite join_cons, (split_at_sep _ _ Hx), IH by discriminate.
    reflexivity.
Qed.

Lemma mem_cons (c a : ascii) (s : string) :
  mem c (String a s) = Ascii.eqb a c || mem c s.
Proof. reflexivity. Qed.

Lemma mem_join (c : ascii) (l : list string) :
  c <> sep -> Forall (fun x => mem c x = false) l ->
  mem c (PyStr.join "/" l) = false.
Proof.
  intros Hc Hall. induction Hall as [|x l Hx Hall IH]; [reflexivity|].
  destruct l as [|y l]; [exact Hx|].
  rewrite join_cons, mem_append, Hx, mem_cons, IH.
  apply Ascii.eqb_neq in Hc. rewrite Ascii.eqb_sym, Hc. reflexivity.
Qed.

Lemma replace_absent (a b : ascii) (s : string) :
  mem a s = false -> replace a b s = s.
Proof.
  induction s as [|c s IH]; intros Hs; [reflexivity|].
  simpl in Hs. apply orb_false_iff in Hs as [Hc Hs].
  simpl. rewrite Hc, (IH Hs). reflexivity.
Qed.

(** The first character of a joined list is the first character of its
    first component. *)
Lemma join_first_char (c : ascii) (x : string) (l : list string) :
  exists t, PyStr.join "/" (String c x :: l) = String c t.
Proof.
  destruct l as [|y l]; [exists x; reflexivity|].
  rewrite join_cons, append_cons. eauto.
Qed.

Lemma nonempty_last_char (s : string) :
  nonempty s = true -> exists s0 x, s = s0 ++ chr x.
Proof.
  induction s as [|c s IH]; [discriminate|]. intros _.
  destruct s as [|d s].
  - exists EmptyString, c. reflexivity.
  - destruct (IH eq_refl) as (s0 & x & Hs). exists (String c s0), x.
    rewrite append_cons, <- Hs. reflexivity.
Qed.


Lemma rstrip_drop_last (p : ascii -> bool) (a : string) (x y : ascii) :
  p x = false -> p y = true ->
  rstrip p ((a ++ chr x) ++ chr y) = a ++ chr x.
Proof.
  intros Hx Hy. induction a as [|c a IH].
  - rewrite append_nil_l. simpl. rewrite Hy, Hx. reflexivity.
  - rewrite !append_cons. simpl. rewrite IH.
    destruct (a ++ chr x) eqn:Ha; [|reflexivity].
    destruct a; discriminate.
Qed.

(** A joined list of proper components ends with a character that is not
    a slash. *)
Lemma join_last_char (l : list string) :
  l <> [] -> Forall proper_component l ->
  exists s0 x, PyStr.join "/" l = s0 ++ chr x /\ is_sep x = false.
Proof.
  intros Hne Hall. induction Hall as [|c l Hc Hall IH]; [contradiction|].
  destruct l as [|y l].
  - destruct Hc as (Hn & _ & _ & Hs & _).
    destruct (nonempty_last_char _ Hn) as (s0 & x & ->).
    exists s0, x. split; [reflexivity|].
    rewrite mem_append in Hs. apply orb_false_iff in Hs as [_ Hs].
    simpl in Hs. rewrite orb_false_r in Hs. exact Hs.
  - destruct IH as (s0 & x & Hj & Hx); [discriminate|].
    exists (c ++ String sep s0), x. split; [|exact Hx].
    rewrite join_cons, Hj, append_assoc, append_cons. reflexivity.
Qed.

Lemma join_first_not_slash (l : list string) (x : string) :
  nonempty x = true -> plain_component x ->
  exists c t, PyStr.join "/" (x :: l) = String c t /\ is_slash c = false.
Proof.
  intros Hn (Hs & Hb). destruct x as [|c x]; [discriminate|].
  destruct (join_first_char c x l) as (t & Ht).
  exists c, t. split; [exact Ht|].
  simpl in Hs, Hb. apply orb_false_iff in Hs as [Hs _].
  apply orb_false_iff in Hb as [Hb _].
  unfold is_slash. rewrite Hs, Hb. reflexivity.
Qed.

(** [dirname] of a file in a directory of proper components is the
    directory. *)
Lemma dirname_join (dirs : list string) (file : string) :
  Forall proper_component dirs -> mem sep file = false ->
  dirname (PyStr.join "/" (dirs ++ [file])) = PyStr.join "/" dirs.
Proof.
  intros Hdirs Hfile. unfold dirname.
  destruct dirs as [|d dirs].
  - simpl PyStr.join.
    destruct (rfind_spec sep file) as [[-> _]|(a & b & -> & _ & _)];
      [reflexivity|].
    rewrite mem_append_sep in Hfile. discriminate.
  - rewrite join_app by discriminate. simpl (PyStr.join "/" [file]).
    set (dir := PyStr.join "/" (d :: dirs)).
    destruct (rfind_spec sep (dir ++ String sep file))
      as [[_ Hm]|(a & b & Heq & -> & Hb)].
    { rewrite mem_append_sep in Hm. discriminate. }
    destruct (last_cut_unique _ _ _ _ _ Hfile Hb Heq) as [<- <-].
    replace (Z.to_nat (Z.of_nat (String.length dir) + 1))
      with (String.length (dir ++ chr sep))
      by (rewrite length_append_char; lia).
    rewrite (append_char dir), take_append.
    destruct (join_last_char (d :: dirs)) as (s0 & x & Hj & Hx);
      [discriminate | assumption |].
    fold dir in Hj.
    assert (Hfirst : exists c t, dir = String c t /\ is_slash c = false).
    { inversion Hdirs as [|? ? (Hn & _ & _ & Hs & Hb') _]; subst.
      apply join_first_not_slash; [exact Hn | split; assumption]. }
    destruct Hfirst as (c & t & Hdir & Hc).
    assert (Hnot : String.eqb (dir ++ chr sep)
                     (repeat sep (String.length (dir ++ chr sep))) = false).
    { rewrite Hdir, append_cons. simpl.
      unfold is_slash in Hc. apply orb_false_iff in Hc as [Hc _].
      unfold sep. rewrite Hc. reflexivity. }
    assert (Hne : nonempty (dir ++ chr sep) = true)
      by (rewrite Hdir, append_cons; reflexivity).
    rewrite Hnot, Hne. cbn [andb negb]. rewrite Hj.
    apply rstrip_drop_last; [exact Hx | reflexivity].
Qed.

Lemma fold_normpath_proper (acc l : list string) :
  Forall proper_component l ->
  fold_left (normpath_step 0) l acc = (acc ++ l)%list.
Proof.
  intros Hl. revert acc. induction Hl as [|c l Hc Hl IH]; intros acc; simpl.
  - rewrite app_nil_r. reflexivity.
  - destruct Hc as (Hn & Hd & Hdd & _).
    assert (Hstep : normpath_step 0 acc c = (acc ++ [c])%list).
    { unfold normpath_step.
      destruct (String.eqb_spec c EmptyString) as [->|_]; [discriminate|].
      destruct (String.eqb_spec c ".") as [?|_]; [contradiction|].
      destruct (String.eqb_spec c "..") as [?|_]; [contradiction|].
      reflexivity. }
    rewrite Hstep, IH, <- app_assoc. reflexivity.
Qed.

End ComponentFacts.

Section ResolutionByComponents.
Import PyStr PyStrFacts PosixPath.

Lemma proper_is_plain (c : string) : proper_component c -> plain_component c.
Proof. intros (_ & _ & _ & Hs & Hb). split; assumption. Qed.

Lemma append_last_char (a b : string) (x y : ascii) :
  a ++ chr x = b ++ chr y -> x = y.
Proof.
  revert b. induction a as [|c a IH]; intros b Heq.
  - destruct b as [|d b]; [injection Heq as ->; reflexivity|].
    rewrite append_nil_l, append_cons in Heq. injection Heq as _ Heq.
    destruct b; discriminate.
  - destruct b as [|d b].
    + rewrite append_nil_l, append_cons in Heq. injection Heq as _ Heq.
      destruct a; discriminate.
    + rewrite !append_cons in Heq. injection Heq as _ Heq. eauto.
Qed.

Lemma startswith_char (a c : ascii) (t : string) :
  startswith (String a EmptyString) (String c t) = Ascii.eqb a c.
Proof. simpl. destruct (Ascii.eqb a c); reflexivity. Qed.

Lemma not_slash_first (c : ascii) (t : string) :
  is_slash c = false ->
  startswith "/" (String c t) = false /\ startswith "\" (String c t) = false.
Proof.
  unfold is_slash. intros Hc. apply orb_false_iff in Hc as [Hc1 Hc2].
  rewrite !startswith_char, (Ascii.eqb_sym _ c), Hc1,
    (Ascii.eqb_sym _ c), Hc2.
  split; reflexivity.
Qed.

Lemma posix_join_components (dirs rcomps : list string) (r0 : string)
    (rest : list string) :
  Forall proper_component dirs ->
  rcomps = r0 :: rest -> nonempty r0 = true -> plain_component r0 ->
  PosixPath.join (PyStr.join "/" dirs) (PyStr.join "/" rcomps)
  = PyStr.join "/" (dirs ++ rcomps).
Proof.
  intros Hdirs -> Hn Hr0. unfold PosixPath.join.
  destruct (join_first_not_slash rest r0 Hn Hr0) as (c & t & Href & Hc).
  assert (Hstart : startswith "/" (PyStr.join "/" (r0 :: rest)) = false).
  { rewrite Href. apply not_slash_first, Hc. }
  rewrite Hstart. destruct dirs as [|d dirs]; [reflexivity|].
  destruct (join_last_char (d :: dirs)) as (s0 & x & Hj & Hx);
    [discriminate | assumption |].
  assert (Hne : nonempty (PyStr.join "/" (d :: dirs)) = true).
  { rewrite Hj. destruct s0; reflexivity. }
  assert (Hend : endswith "/" (PyStr.join "/" (d :: dirs)) = false).
  { destruct (endswith "/" _) eqn:He; [|reflexivity].
    apply endswith_spec in He as [pre Hpre]. rewrite Hj in Hpre.
    apply append_last_char in Hpre. subst x. discriminate. }
  rewrite Hne, Hend. simpl negb. cbv iota. simpl orb. cbv iota.
  rewrite join_app by discriminate. reflexivity.
Qed.

(** A reference of plain components, the first of them not empty, is
    resolved by collapsing the components of the directory of the
    document followed by its own. *)
Lemma resolve_by_components (dirs : list string) (file r0 : string)
    (rest : list string) :
  Forall proper_component dirs -> mem sep file = false ->
  nonempty r0 = true -> Forall plain_component (r0 :: rest) ->
  resolve_rel_path (PyStr.join "/" (dirs ++ [file]))
                   (PyStr.join "/" (r0 :: rest))
  = render 0 (normpath_comps 0 (dirs ++ r0 :: rest)).
Proof.
  intros Hdirs Hfile Hn Hplain.
  assert (Hr0 : plain_component r0) by (inversion Hplain; assumption).
  unfold resolve_rel_path.
  destruct (join_first_not_slash rest r0 Hn Hr0) as (c & t & Href & Hc).
  assert (Hstart : starts_with_slash (PyStr.join "/" (r0 :: rest)) = false).
  { rewrite Href. unfold starts_with_slash.
    destruct (not_slash_first c t Hc) as [-> ->]. reflexivity. }
  rewrite Hstart, (dirname_join _ _ Hdirs Hfile).
  rewrite (posix_join_components dirs _ r0 rest Hdirs eq_refl Hn Hr0).
  set (l := (dirs ++ r0 :: rest)%list).
  assert (Hall : Forall plain_component l).
  { apply Forall_app. split; [|assumption].
    eapply Forall_impl; [exact Hdirs | apply proper_is_plain]. }
  assert (Hfirst : exists c' t', PyStr.join "/" l = String c' t'
                                 /\ is_slash c' = false).
  { unfold l. destruct dirs as [|d dirs].
    - exists c, t. auto.
    - inversion Hdirs as [|? ? Hd _]; subst.
      apply join_first_not_slash; [apply Hd | apply proper_is_plain, Hd]. }
  destruct Hfirst as (c' & t' & Hl & Hc').
  assert (Hnorm : normpath (PyStr.join "/" l)
                  = render 0 (normpath_comps 0 l)).
  { unfold normpath.
    destruct (String.eqb_spec (PyStr.join "/" l) EmptyString) as [He|_];
      [rewrite Hl in He; discriminate|].
    assert (Hi : initial_slashes_of (PyStr.join "/" l) = 0).
    { rewrite Hl. unfold initial_slashes_of.
      destruct (not_slash_first c' t' Hc') as [-> _]. reflexivity. }
    cbv zeta. rewrite Hi, split_join; [reflexivity | |].
    - unfold l. destruct dirs; discriminate.
    - eapply Forall_impl; [exact Hall|]. intros x [Hx _]. exact Hx. }
  rewrite Hnorm. unfold normalize_zip_path. apply replace_absent.
  assert (Hback : Forall (fun x => mem "\" x = false) (normpath_comps 0 l)).
  { apply normpath_comps_Forall.
    eapply Forall_impl; [exact Hall|]. intros x [_ Hx]. exact Hx. }
  unfold render. simpl PyStr.repeat. rewrite append_nil_l.
  destruct (nonempty (PyStr.join "/" (normpath_comps 0 l)));
    [|reflexivity].
  apply mem_join; [discriminate | exact Hback].
Qed.

Lemma render_proper (l : list string) :
  l <> [] -> Forall proper_component l -> render 0 l = PyStr.join "/" l.
Proof.
  intros Hne Hall. unfold render. simpl PyStr.repeat. rewrite append_nil_l.
  destruct l as [|x l]; [contradiction|].
  inversion Hall as [|? ? (Hn & _) _]; subst.
  destruct x as [|c x]; [discriminate|].
  destruct (join_first_char c x l) as (t & ->). reflexivity.
Qed.

(** X14: a reference spelled as a canonical path resolves to that path
    under the directory of the document: from a document in the directory
    of components [dirs], the reference of proper components [comps]
    resolves to the path of components [dirs ++ comps]; a document at the
    root of the archive resolves it to itself. *)
Theorem resolve_rel_path_canonical (dirs comps : list string)
    (file : string) :
  Forall proper_component dirs ->
  Forall proper_component comps -> comps <> [] ->
  mem "/" file = false ->
  resolve_rel_path (PyStr.join "/" (dirs ++ [file])) (PyStr.join "/" comps)
  = PyStr.join "/" (dirs ++ comps).
Proof.
  intros Hdirs Hcomps Hne Hfile.
  destruct comps as [|r0 rest]; [contradiction|].
  rewrite resolve_by_components; try assumption.
  - unfold normpath_comps.
    rewrite (fold_normpath_proper [] (dirs ++ r0 :: rest))
      by (apply Forall_app; auto).
    apply render_proper; [destruct dirs; discriminate|].
    apply Forall_app; auto.
  - inversion Hcomps as [|? ? (Hn & _) _]. exact Hn.
  - eapply Forall_impl; [exact Hcomps | apply proper_is_plain].
Qed.

Lemma fold_normpath_cons (x : string) (l acc : list string) :
  fold_left (normpath_step 0) (x :: l) acc
  = fold_left (normpath_step 0) l (normpath_step 0 acc x).
Proof. reflexivity. Qed.

Lemma dot_is_plain : plain_component ".".
Proof. split; reflexivity. Qed.

Lemma dotdot_is_plain : plain_component "..".
Proof. split; reflexivity. Qed.

(** X15: the spelling with dot segments: from a document in the
    directory of components [dirs], a reference [./] followed by a
    canonical path resolves as the canonical path does, and from a
    document one directory deeper, in the directory [d] of it, a reference
    [../] followed by the canonical path resolves to the same: the
    double dot takes the directory [d] off. *)
Theorem resolve_rel_path_dot_segments (dirs comps : list string)
    (d file : string) :
  Forall proper_component dirs -> proper_component d ->
  Forall proper_component comps -> comps <> [] ->
  mem "/" file = false ->
  resolve_rel_path (PyStr.join "/" (dirs ++ [file]))
                   ("./" ++ PyStr.join "/" comps)
  = PyStr.join "/" (dirs ++ comps)
  /\ resolve_rel_path (PyStr.join "/" ((dirs ++ [d]) ++ [file]))
                      ("../" ++ PyStr.join "/" comps)
     = PyStr.join "/" (dirs ++ comps).
Proof.
  intros Hdirs Hd Hcomps Hne Hfile.
  destruct comps as [|r0 rest]; [contradiction|].
  assert (Hplain : Forall plain_component (r0 :: rest))
    by (eapply Forall_impl; [exact Hcomps | apply proper_is_plain]).
  assert (Hall : Forall proper_component (dirs ++ r0 :: rest))
    by (apply Forall_app; auto).
  assert (Hrender : render 0 (dirs ++ r0 :: rest)
                    = PyStr.join "/" (dirs ++ r0 :: rest))
    by (apply render_proper; [destruct dirs; discriminate | exact Hall]).
  split.
  - change ("./" ++ PyStr.join "/" (r0 :: rest))
      with (PyStr.join "/" ("." :: r0 :: rest)).
    rewrite resolve_by_components; try assumption; try reflexivity.
    + unfold normpath_comps. rewrite fold_left_app.
      rewrite (fold_normpath_proper [] dirs Hdirs), fold_normpath_cons.
      change (normpath_step 0 ([] ++ dirs) ".") with ([] ++ dirs)%list.
      rewrite (fold_normpath_proper _ (r0 :: rest) Hcomps).
      exact Hrender.
    + constructor; [apply dot_is_plain | exact Hplain].
  - change ("../" ++ PyStr.join "/" (r0 :: rest))
      with (PyStr.join "/" (".." :: r0 :: rest)).
    assert (Hdirs' : Forall proper_component (dirs ++ [d]))
      by (apply Forall_app; auto).
    rewrite resolve_by_components; try assumption; try reflexivity.
    + unfold normpath_comps. rewrite fold_left_app.
      rewrite (fold_normpath_proper [] (dirs ++ [d]) Hdirs').
      rewrite fold_normpath_cons.
      assert (Hpop : normpath_step 0 ([] ++ dirs ++ [d]) ".." = dirs).
      { unfold normpath_step. simpl String.eqb. simpl negb.
        rewrite app_nil_l, last_snoc.
        destruct Hd as (_ & _ & Hdd & _).
        destruct (String.eqb_spec d "..") as [?|_]; [contradiction|].
        rewrite bool_decide_eq_false_2 by (destruct dirs; discriminate).
        simpl. apply removelast_last. }
      rewrite Hpop, (fold_normpath_proper _ (r0 :: rest) Hcomps).
      exact Hrender.
    + constructor; [apply dotdot_is_plain | exact Hplain].
Qed.

Lemma resolve_rel_path_canonical_witness :
  resolve_rel_path "sub/doc/index.html" "img/a b.png"
  = "sub/doc/img/a b.png".
Proof.
  apply (resolve_rel_path_canonical ["sub"; "doc"] ["img"; "a b.png"]
           "index.html").
  - repeat constructor; discriminate.
  - repeat constructor; discriminate.
  - discriminate.
  - reflexivity.
Defined.

Lemma resolve_rel_path_dot_segments_witness :
  resolve_rel_path "sub/index.html" "./img/a.png" = "sub/img/a.png"
  /\ resolve_rel_path "sub/doc/index.html" "../img/a.png" = "sub/img/a.png".
Proof.
  apply (resolve_rel_path_dot_segments ["sub"] ["img"; "a.png"]
           "doc" "index.html").
  - repeat constructor; discriminate.
  - repeat constructor; discriminate.
  - repeat constructor; discriminate.
  - discriminate.
  - reflexivity.
Defined.

End ResolutionByComponents.

(** ** Path Resolver: the returned path *)

Section ResolverFacts.
Import PyStr PyStrFacts PosixPath.































End ResolverFacts.

(** ** Command line *)

Section OutputNames.
Import PyStr PyStrFacts.

Lemma lower_append (a b : string) : lower (a ++ b) = lower a ++ lower b.
Proof.
  induction a as [|c a IH]; [reflexivity|].
  rewrite append_cons. simpl. rewrite IH, append_cons. reflexivity.
Qed.

Lemma lower_char_dot (c : ascii) : lower_char c = "."%char -> c = "."%char.
Proof.
  destruct c as [[] [] [] [] [] [] [] []]; vm_compute; intros Hc;
    first [reflexivity | discriminate].
Qed.

Lemma endswith_append (suf a : string) : endswith suf (a ++ suf) = true.
Proof. apply endswith_spec. eauto. Qed.

Lemma join_suffix (d x : string) : exists pre, PosixPath.join d x = pre ++ x.
Proof.
  unfold PosixPath.join.
  destruct (startswith "/" x); [exists EmptyString; reflexivity|].
  destruct (negb (nonempty d) || endswith "/" d).
  - exists d. reflexivity.
  - exists (d ++ "/"). rewrite append_assoc. reflexivity.
Qed.

Lemma join_endswith (d x suf : string) :
  endswith suf x = true -> endswith suf (PosixPath.join d x) = true.
Proof.
  intros Hx. apply endswith_spec in Hx as [q ->].
  destruct (join_suffix d (q ++ suf)) as [pre ->].
  rewrite <- append_assoc. apply endswith_append.
Qed.

(** A name ending in [.zip], in any case, does not end in [.mhtml]. *)
Lemma zip_not_mhtml (p : string) :
  is_zip_name p = true -> endswith ".mhtml" p = false.
Proof.
  intros Hz. destruct (endswith ".mhtml" p) eqn:E; [|reflexivity].
  apply endswith_spec in E as [pre ->].
  unfold is_zip_name in Hz. rewrite lower_append in Hz.
  apply endswith_spec in Hz as [q Hq].
  assert (Hl : (lower pre ++ ".mhtm") ++ chr "l" = (q ++ ".zi") ++ chr "p").
  { rewrite !append_assoc. exact Hq. }
  apply append_last_char in Hl. discriminate.
Qed.

Lemma join_zip_name (d fn : string) :
  is_zip_name fn = true -> is_zip_name (PosixPath.join d fn) = true.
Proof.
  intros Hz. destruct (join_suffix d fn) as [pre ->].
  unfold is_zip_name in *. rewrite lower_append.
  apply endswith_spec in Hz as [q ->]. rewrite <- append_assoc.
  apply endswith_append.
Qed.

Lemma batch_out_path_mhtml (d fn : string) :
  endswith ".mhtml" (batch_out_path d fn) = true.
Proof. apply join_endswith, endswith_append. Qed.

(** An extension that reads [.zip] in lower case is a dot followed by
    three characters that are neither dots nor slashes. *)
Lemma zip_ext_shape (ext : string) :
  lower ext = ".zip" ->
  exists b, ext = String "."%char b
            /\ mem "."%char b = false /\ mem "/"%char b = false.
Proof.
  destruct ext as [|c0 [|c1 [|c2 [|c3 [|c4 ext]]]]]; try discriminate.
  simpl. intros Hl. injection Hl as H0 H1 H2 H3.
  apply lower_char_dot in H0 as ->.
  exists (String c1 (String c2 (String c3 EmptyString))).
  split; [reflexivity|].
  split; simpl;
    repeat match goal with
    | |- context [Ascii.eqb ?c ?d] =>
        destruct (Ascii.eqb_spec c d) as [->|_]; [discriminate|]
    end; reflexivity.
Qed.

(** X16: the output name of the batch.  For a directory entry made of a
    stem without slash and an extension that reads [.zip] in lower case,
    the entry is taken as an archive, and the name of its output is the
    stem followed by [.mhtml]; when the stem is empty or made of dots only,
    nothing is cut off and the output name is the whole entry followed by
    [.mhtml]. *)
Theorem batch_output_name (stem ext : string) :
  lower ext = ".zip" -> mem "/"%char stem = false ->
  is_zip_name (stem ++ ext) = true
  /\ fst (splitext (stem ++ ext)) ++ ".mhtml"
     = (if has_non_dot stem then stem else stem ++ ext) ++ ".mhtml"
  /\ (forall d, endswith ".mhtml" (batch_out_path d (stem ++ ext)) = true
                /\ is_zip_name (batch_out_path d (stem ++ ext)) = false).
Proof.
  intros Hext Hstem.
  assert (Hz : is_zip_name (stem ++ ext) = true).
  { unfold is_zip_name. rewrite lower_append, Hext. apply endswith_append. }
  split; [exact Hz|].
  destruct (zip_ext_shape ext Hext) as (b & -> & Hdot & Hslash).
  split.
  - unfold splitext.
    rewrite (rfind_absent PosixPath.sep)
      by (unfold PosixPath.sep; rewrite mem_append, Hstem; simpl;
          exact Hslash).
    rewrite (rfind_last "."%char stem b Hdot).
    replace (Z.to_nat (Z.of_nat (String.length stem) - (-1 + 1)))
      with (String.length stem) by lia.
    replace (Z.to_nat (-1 + 1)) with 0%nat by lia.
    replace (drop 0 (stem ++ String "."%char b))
      with (stem ++ String "."%char b) by (destruct (stem ++ _); reflexivity).
    rewrite take_append, Nat2Z.id, take_append.
    destruct (Z.ltb_spec (-1) (Z.of_nat (String.length stem))); [|lia].
    simpl andb. destruct (has_non_dot stem); reflexivity.
  - intros d. split; [apply batch_out_path_mhtml|].
    destruct (is_zip_name (batch_out_path d (stem ++ String "."%char b)))
      eqn:E; [|reflexivity].
    apply zip_not_mhtml in E. rewrite batch_out_path_mhtml in E.
    discriminate.
Qed.

Lemma batch_output_name_witness :
  is_zip_name "Report.ZIP" = true
  /\ fst (splitext "Report.ZIP") ++ ".mhtml" = "Report.mhtml"
  /\ fst (splitext "..zip") ++ ".mhtml" = "..zip.mhtml".
Proof.
  destruct (batch_output_name "Report" ".ZIP" eq_refl eq_refl)
    as (H1 & H2 & _).
  destruct (batch_output_name "." ".zip" eq_refl eq_refl) as (_ & H3 & _).
  split; [exact H1|]. split; [exact H2 | exact H3].
Defined.

End OutputNames.

Section ConsoleFacts.

Lemma processing_lines_app (a b : list (stream * message)) :
  processing_lines (a ++ b) = (processing_lines a ++ processing_lines b)%list.
Proof. unfold processing_lines. apply omap_app. Qed.

Lemma count_lines_app (p : stream * message -> bool)
    (a b : list (stream * message)) :
  count_lines p (a ++ b) = (count_lines p a + count_lines p b)%nat.
Proof.
  unfold count_lines. rewrite List.filter_app, length_app. reflexivity.
Qed.

Lemma report_lines (html_name_res : string) (inlined : list string)
    (out : string) :
  processing_lines (report html_name_res inlined out) = []
  /\ count_lines is_generated (report html_name_res inlined out) = 1%nat
  /\ count_lines is_processing_failed (report html_name_res inlined out)
     = 0%nat.
Proof.
  unfold report.
  assert (Hitems :
    processing_lines (map (fun p => (stdout, InlinedItem p)) inlined) = []
    /\ count_lines is_generated
         (map (fun p => (stdout, InlinedItem p)) inlined) = 0%nat
    /\ count_lines is_processing_failed
         (map (fun p => (stdout, InlinedItem p)) inlined) = 0%nat).
  { induction inlined as [|p l IH]; [repeat split|].
    destruct IH as (IH1 & IH2 & IH3). repeat split; assumption. }
  destruct Hitems as (H1 & H2 & H3).
  rewrite !processing_lines_app, !count_lines_app.
  destruct inlined as [|p l].
  - repeat split.
  - change (processing_lines
              ((stdout, InlinedHeader)
               :: map (fun p => (stdout, InlinedItem p)) (p :: l)))
      with (processing_lines
              (map (fun p => (stdout, InlinedItem p)) (p :: l))).
    change (count_lines is_generated
              ((stdout, InlinedHeader)
               :: map (fun p => (stdout, InlinedItem p)) (p :: l)))
      with (count_lines is_generated
              (map (fun p => (stdout, InlinedItem p)) (p :: l))).
    change (count_lines is_processing_failed
              ((stdout, InlinedHeader)
               :: map (fun p => (stdout, InlinedItem p)) (p :: l)))
      with (count_lines is_processing_failed
              (map (fun p => (stdout, InlinedItem p)) (p :: l))).
    rewrite H1, H2, H3. repeat split.
Qed.

Lemma processing_line_counts (z o : string) :
  count_lines is_generated [(stdout, Processing z o)] = 0%nat
  /\ count_lines is_processing_failed [(stdout, Processing z o)] = 0%nat
  /\ processing_lines [(stdout, Processing z o)] = [(z, o)].
Proof. repeat split. Qed.

Lemma failed_line_counts (z : string) (e : exn) :
  count_lines is_generated [(stderr, ProcessingFailed z e)] = 0%nat
  /\ count_lines is_processing_failed [(stderr, ProcessingFailed z e)]
     = 1%nat
  /\ processing_lines [(stderr, ProcessingFailed z e)] = [].
Proof. repeat split. Qed.

End ConsoleFacts.

Section BatchFacts.
Context `{L : Library} `{Host}.
Import PyStr PyStrFacts.

Lemma write_all_other (products : list (string * bytes))
    (fs : gmap string bytes) (f : string) :
  Forall (fun pb => pb.1 <> f) products ->
  write_all fs products !! f = fs !! f.
Proof.
  intros Hall. revert fs. induction Hall as [|pb l Hpb Hall IH]; intros fs;
    [reflexivity|].
  unfold write_all in *. simpl. rewrite IH.
  apply lookup_insert_ne. exact Hpb.
Qed.

(** The two outcomes of a call of [process_zip]: one file written, or an
    exception and no file changed. *)
Lemma process_zip_file_outcome (k : nat) (z o : string)
    (ov : option string) (fs : gmap string bytes) :
  (exists html_name_res inlined mhtml_bytes,
     process_zip_file k z o ov fs
     = (Ok (html_name_res, inlined), <[file_of o := mhtml_bytes]> fs))
  \/ exists e, process_zip_file k z o ov fs = (Err e, fs).
Proof.
  unfold process_zip_file.
  destruct (fs !! file_of z) as [root_bytes|]; [|eauto].
  destruct (open_rb_error z); [eauto|].
  destruct (@process_zip (library_of k) root_bytes ov)
    as [[[html_name_res inlined] mhtml]|e]; [|eauto].
  destruct (flatten mhtml) as [mhtml_bytes|e]; [|eauto].
  destruct (open_wb_error o); [eauto|]. left. eauto.
Qed.


(** The loop of the batch: what it prints, what it counts and which
    files it can change. *)
Lemma batch_loop_run (d : string) (zs : list string) :
  forall (ok : nat) (w : world),
    exists ok' w',
      batch_loop d zs ok w = (ok', w')
      /\ processing_lines (console w')
         = (processing_lines (console w)
            ++ map (fun fn => (PosixPath.join d fn, batch_out_path d fn)) zs)
           %list
      /\ (count_lines is_generated (console w') + ok
          = count_lines is_generated (console w) + ok')%nat
      /\ (count_lines is_generated (console w')
          + count_lines is_processing_failed (console w'))%nat
         = (count_lines is_generated (console w)
            + count_lines is_processing_failed (console w)
            + length zs)%nat
      /\ forall f,
           (forall fn, fn ∈ zs -> file_of (batch_out_path d fn) <> f) ->
           files w' !! f = files w !! f.
Proof.
  induction zs as [|fn zs IH]; intros ok w.
  - exists ok, w. simpl. rewrite app_nil_r. repeat split; lia.
  - simpl batch_loop. unfold run_single.
    change (files (print stdout
              (Processing (PosixPath.join d fn) (batch_out_path d fn)) w))
      with (files w).
    change (conversions (print stdout
              (Processing (PosixPath.join d fn) (batch_out_path d fn)) w))
      with (conversions w).
    change (console (print stdout
              (Processing (PosixPath.join d fn) (batch_out_path d fn)) w))
      with (console w
            ++ [(stdout,
                 Processing (PosixPath.join d fn) (batch_out_path d fn))])
           %list.
    destruct (processing_line_counts (PosixPath.join d fn)
                (batch_out_path d fn)) as (P1 & P2 & P3).
    destruct (process_zip_file_outcome (conversions w)
                (PosixPath.join d fn) (batch_out_path d fn) None (files w))
      as [(html_name_res & inlined & mhtml_bytes & ->)|(e & ->)].
    + destruct (report_lines html_name_res inlined (batch_out_path d fn))
        as (R1 & R2 & R3).
      match goal with
      | |- context [batch_loop d zs (ok + 1) ?w2] =>
          destruct (IH (ok + 1)%nat w2) as (ok' & w' & Hl & Hpl & Hg & Hc
                                            & Hf)
      end.
      exists ok', w'. simpl in Hpl, Hg, Hc, Hf.
      rewrite !processing_lines_app, R1, P3 in Hpl.
      rewrite !count_lines_app, R2, P1 in Hg.
      rewrite !count_lines_app, R2, R3, P1, P2 in Hc.
      split; [exact Hl|].
      split; [rewrite Hpl, app_nil_r, <- app_assoc; reflexivity|].
      split; [lia|]. split; [rewrite Hc; simpl; lia|].
      intros f Hout. rewrite Hf.
      * apply lookup_insert_ne. apply Hout. left.
      * intros fn' Hin. apply Hout. right. exact Hin.
    + destruct (failed_line_counts (PosixPath.join d fn) e)
        as (F1 & F2 & F3).
      match goal with
      | |- context [batch_loop d zs ok ?w2] =>
          destruct (IH ok w2) as (ok' & w' & Hl & Hpl & Hg & Hc & Hf)
      end.
      exists ok', w'. simpl in Hpl, Hg, Hc, Hf.
      rewrite !processing_lines_app, P3, F3 in Hpl.
      rewrite !count_lines_app, P1, F1 in Hg.
      rewrite !count_lines_app, P1, P2, F1, F2 in Hc.
      split; [exact Hl|].
      split; [rewrite Hpl, app_nil_r, <- app_assoc; reflexivity|].
      split; [lia|]. split; [rewrite Hc; simpl; lia|].
      intros f Hout. apply Hf. intros fn' Hin. apply Hout. right.
      exact Hin.
Qed.


End BatchFacts.

Section MainFacts.
Context `{L : Library} `{Host}.
Import PyStr PyStrFacts.

(** The batch over a listing with at least one archive name. *)
Lemma main_batch_run (args : Namespace) (fs : gmap string bytes)
    (entries : list string) :
  batch_mode args = true ->
  isdir (scan_dir_of args) = true ->
  listdir (scan_dir_of args) = Ok entries ->
  zip_entries entries <> [] ->
  exists ok w2,
    batch_loop (scan_dir_of args) (zip_entries entries) 0
      (print stdout (BatchDirectory (scan_dir_of args))
         {| files := fs; console := []; conversions := 0 |})
    = (ok, w2)
    /\ main args fs
       = (SysExit (if (0 <? ok)%nat then 0 else 1),
          print stdout (BatchDone ok (length (zip_entries entries))) w2).
Proof.
  intros Hmode Hdir Hlist Hne. unfold main. rewrite Hmode, Hdir, Hlist.
  simpl negb. cbv iota.
  destruct (zip_entries entries) as [|fn zs] eqn:Hzs; [contradiction|].
  destruct (batch_loop (scan_dir_of args) (fn :: zs) 0
              (print stdout (BatchDirectory (scan_dir_of args))
                 {| files := fs; console := []; conversions := 0 |}))
    as [ok w2] eqn:Hloop.
  exists ok, w2. split; reflexivity.
Qed.

Lemma main_batch_empty (args : Namespace) (fs : gmap string bytes)
    (entries : list string) :
  batch_mode args = true ->
  isdir (scan_dir_of args) = true ->
  listdir (scan_dir_of args) = Ok entries ->
  zip_entries entries = [] ->
  main args fs
  = (SysExit 0,
     print stdout (NoZipInDirectory (scan_dir_of args))
       {| files := fs; console := []; conversions := 0 |}).
Proof.
  intros Hmode Hdir Hlist Hnil. unfold main.
  rewrite Hmode, Hdir, Hlist, Hnil. reflexivity.
Qed.



(** X19: what the batch can change.  In batch mode, a file whose content
    differs after the run is the file that the output path of a listed
    archive denotes; that path ends in [.mhtml] and is no archive name.
    So when no output path denotes the file of a listed archive, no input
    of the batch is overwritten. *)
Theorem batch_writes_only_mhtml (args : Namespace)
    (fs : gmap string bytes) :
  batch_mode args = true ->
  (forall f,
     files (main args fs).2 !! f <> fs !! f ->
     exists entries fn,
       listdir (scan_dir_of args) = Ok entries
       /\ fn ∈ zip_entries entries
       /\ f = file_of (batch_out_path (scan_dir_of args) fn)
       /\ endswith ".mhtml" (batch_out_path (scan_dir_of args) fn) = true
       /\ is_zip_name (batch_out_path (scan_dir_of args) fn) = false)
  /\ (forall entries,
        listdir (scan_dir_of args) = Ok entries ->
        (forall fn fn',
           fn ∈ zip_entries entries -> fn' ∈ zip_entries entries ->
           file_of (batch_out_path (scan_dir_of args) fn)
           <> file_of (PosixPath.join (scan_dir_of args) fn')) ->
        forall fn',
          fn' ∈ zip_entries entries ->
          files (main args fs).2
            !! file_of (PosixPath.join (scan_dir_of args) fn')
          = fs !! file_of (PosixPath.join (scan_dir_of args) fn')).
Proof.
  intros Hmode.
  assert (Hkept : forall f,
    (forall entries fn,
       listdir (scan_dir_of args) = Ok entries ->
       fn ∈ zip_entries entries ->
       file_of (batch_out_path (scan_dir_of args) fn) <> f) ->
    files (main args fs).2 !! f = fs !! f).
  { intros f Hno.
    destruct (isdir (scan_dir_of args)) eqn:Hdir;
      [|unfold main; rewrite Hmode, Hdir; reflexivity].
    destruct (listdir (scan_dir_of args)) as [entries|e] eqn:Hlist;
      [|unfold main; rewrite Hmode, Hdir, Hlist; reflexivity].
    destruct (decide (zip_entries entries = [])) as [Hnil|Hne].
    { rewrite (main_batch_empty args fs entries Hmode Hdir Hlist Hnil).
      reflexivity. }
    destruct (main_batch_run args fs entries Hmode Hdir Hlist Hne)
      as (ok & w2 & Hloop & ->).
    destruct (batch_loop_run (scan_dir_of args) (zip_entries entries) 0
                (print stdout (BatchDirectory (scan_dir_of args))
                   {| files := fs; console := []; conversions := 0 |}))
      as (ok' & w' & Hl & _ & _ & _ & Hf).
    rewrite Hloop in Hl. injection Hl as <- <-.
    simpl. rewrite Hf; [reflexivity|].
    intros fn Hin. apply (Hno entries fn eq_refl Hin). }
  split.
  - intros f Hdiff.
    destruct (listdir (scan_dir_of args)) as [entries|e] eqn:Hlist;
      [|exfalso; apply Hdiff, Hkept; intros ? ? [=]].
    destruct (decide (Exists
                (fun fn => file_of (batch_out_path (scan_dir_of args) fn)
                           = f)
                (zip_entries entries))) as [Hex|Hno].
    + apply Exists_exists in Hex as (fn & Hin & Heq).
      exists entries, fn. split; [reflexivity|]. split; [exact Hin|].
      split; [symmetry; exact Heq|].
      split; [apply batch_out_path_mhtml|].
      destruct (is_zip_name (batch_out_path (scan_dir_of args) fn)) eqn:E;
        [|reflexivity].
      apply zip_not_mhtml in E. rewrite batch_out_path_mhtml in E.
      discriminate.
    + exfalso. apply Hdiff, Hkept. intros entries' fn [= <-] Hin Heq.
      apply Hno. apply Exists_exists. eauto.
  - intros entries Hlist Hsep fn' Hin'. apply Hkept.
    intros entries' fn Hlist' Hin.
    assert (entries' = entries) as -> by congruence.
    apply Hsep; assumption.
Qed.


(** X21: the options of the single conversion do nothing in batch mode.
    When [--batch] is given, or neither [--zip] nor [--out] is, the run is
    the run of [--batch] with the same [--dir]: [--zip], [--out] and
    [--html] are not looked at. *)
Theorem main_batch_ignores_single_options (args : Namespace)
    (fs : gmap string bytes) :
  batch_mode args = true ->
  main args fs
  = main {| zip_path := None; out_path := None; html_name := None;
            batch := true; dir_path := dir_path args |} fs.
Proof. intros Hmode. unfold main. rewrite Hmode. reflexivity. Qed.

End MainFacts.

Section CommandLineRuns.
#[local] Existing Instance Demo.demo_library.
#[local] Existing Instance DemoHost.demo_host.

Lemma demo_scan_dir : scan_dir_of DemoHost.batch_args = "/work/in".
Proof. vm_compute. reflexivity. Qed.

Lemma demo_zip_entries :
  zip_entries ["flat.zip"; "notes.txt"; "broken.ZIP"; "outer.zip"]
  = ["flat.zip"; "broken.ZIP"; "outer.zip"].
Proof. vm_compute. reflexivity. Qed.

(** In the directory of the examples no output path denotes the file of
    an archive. *)
Lemma demo_no_alias (fn fn' : string) :
  fn ∈ zip_entries ["flat.zip"; "notes.txt"; "broken.ZIP"; "outer.zip"] ->
  fn' ∈ zip_entries ["flat.zip"; "notes.txt"; "broken.ZIP"; "outer.zip"] ->
  file_of (batch_out_path (scan_dir_of DemoHost.batch_args) fn)
  <> file_of (PosixPath.join (scan_dir_of DemoHost.batch_args) fn').
Proof.
  rewrite demo_zip_entries, demo_scan_dir. intros Hfn Hfn'.
  apply list_elem_of_In in Hfn. apply list_elem_of_In in Hfn'.
  simpl in Hfn, Hfn'.
  destruct Hfn as [<-|[<-|[<-|[]]]]; destruct Hfn' as [<-|[<-|[<-|[]]]];
    vm_compute; discriminate.
Qed.



Lemma batch_writes_only_mhtml_witness :
  files (main DemoHost.batch_args DemoHost.demo_files).2
    !! "/work/in/flat.zip"
  = Some Demo.flat_zip.
Proof.
  destruct (batch_writes_only_mhtml DemoHost.batch_args DemoHost.demo_files
              eq_refl) as [_ Hkeep].
  assert (Hlist : listdir (scan_dir_of DemoHost.batch_args)
                  = Ok ["flat.zip"; "notes.txt"; "broken.ZIP"; "outer.zip"])
    by (vm_compute; reflexivity).
  assert (Hin : "flat.zip" ∈ zip_entries
                  ["flat.zip"; "notes.txt"; "broken.ZIP"; "outer.zip"])
    by (rewrite demo_zip_entries; by_decide).
  pose proof (Hkeep _ Hlist demo_no_alias "flat.zip" Hin) as Hsame.
  rewrite demo_scan_dir in Hsame.
  change (file_of (PosixPath.join "/work/in" "flat.zip"))
    with "/work/in/flat.zip" in Hsame.
  rewrite Hsame. reflexivity.
Defined.


Lemma main_batch_ignores_single_options_witness :
  main DemoHost.batch_args DemoHost.demo_files
  = main {| zip_path := None; out_path := None; html_name := None;
            batch := true; dir_path := Some "in" |} DemoHost.demo_files.
Proof.
  exact (main_batch_ignores_single_options DemoHost.batch_args
           DemoHost.demo_files eq_refl).
Defined.

(** A single conversion whose [--out] path is a link writes the file the
    link denotes. *)
Lemma single_run_writes_through_link :
  let args := {| zip_path := Some "/work/in/flat.zip";
                 out_path := Some "/work/in/latest.mhtml";
                 html_name := None; batch := false; dir_path := None |} in
  (main args DemoHost.demo_files).1 = Returned
  /\ DemoHost.demo_files !! "/work/in/flat.mhtml" = None
  /\ is_Some (files (main args DemoHost.demo_files).2
                !! "/work/in/flat.mhtml")
  /\ files (main args DemoHost.demo_files).2 !! "/work/in/latest.mhtml"
     = None.
Proof.
  intros args. split; [vm_compute; reflexivity|].
  split; [vm_compute; reflexivity|].
  split; [|vm_compute; reflexivity].
  destruct (files (main args DemoHost.demo_files).2 !! "/work/in/flat.mhtml")
    as [b|] eqn:E; [eauto|].
  vm_compute in E. discriminate.
Qed.

End CommandLineRuns.

Section LinkedRuns.
#[local] Existing Instance Demo.demo_library.
#[local] Existing Instance DemoHost.linked_host.

(** Where the output path of one archive denotes the file of a later
    archive of the listing, the later archive is read after it was
    overwritten: the batch over the linked directory generates one output
    and fails on two archives, and the file of [outer.zip] no longer holds
    the archive. *)
Lemma batch_linked_output_overwrites_archive :
  file_of (batch_out_path "/work/in" "flat.zip")
  = file_of (PosixPath.join "/work/in" "outer.zip")
  /\ count_lines is_generated
       (console (main DemoHost.batch_args DemoHost.demo_files).2) = 1%nat
  /\ count_lines is_processing_failed
       (console (main DemoHost.batch_args DemoHost.demo_files).2) = 2%nat
  /\ files (main DemoHost.batch_args DemoHost.demo_files).2
       !! "/work/in/outer.zip" <> Some Demo.outer_zip
  /\ length (batch_products DemoHost.demo_files "/work/in" 0
               ["flat.zip"; "broken.ZIP"; "outer.zip"]) = 2%nat.
Proof.
  split; [vm_compute; reflexivity|].
  split; [vm_compute; reflexivity|].
  split; [vm_compute; reflexivity|].
  split; [|vm_compute; reflexivity].
  vm_compute. discriminate.
Qed.

End LinkedRuns.

(** ** The patterns *)

Section PatternFacts.
Import PyStr PyStrFacts.

Lemma startswith_cons (a b : ascii) (p s : string) :
  startswith (String a p) (String b s) = Ascii.eqb a b && startswith p s.
Proof. reflexivity. Qed.

Lemma startswith_same_prefix (p a b : string) :
  startswith (p ++ a) (p ++ b) = startswith a b.
Proof.
  induction p as [|c p IH]; [reflexivity|].
  rewrite !append_cons, startswith_cons, Ascii.eqb_refl. exact IH.
Qed.

(** A literal matches without regard to case exactly when its lower-case
    form begins the lower-case form of the text. *)
Lemma match_literal_ci_startswith (lit s : string) :
  match match_literal_ci lit s with
  | Some (m, r) =>
      s = m ++ r /\ lower m = lower lit
      /\ startswith (lower lit) (lower s) = true
  | None => startswith (lower lit) (lower s) = false
  end.
Proof.
  revert s. induction lit as [|a lit IH]; intros s.
  - simpl. repeat split.
  - destruct s as [|b s]; [reflexivity|].
    simpl match_literal_ci. simpl lower. rewrite startswith_cons.
    destruct (Ascii.eqb (lower_char a) (lower_char b)) eqn:Hab;
      [|reflexivity].
    specialize (IH s).
    destruct (match_literal_ci lit s) as [[m r]|]; [|exact IH].
    destruct IH as (-> & Hm & Hs). simpl. rewrite Hm.
    apply Ascii.eqb_eq in Hab. rewrite Hab. repeat split. exact Hs.
Qed.

Lemma match_literal_ci_bool (lit s : string) :
  bool_decide (is_Some (match_literal_ci lit s))
  = startswith (lower lit) (lower s).
Proof.
  pose proof (match_literal_ci_startswith lit s) as Hm.
  destruct (match_literal_ci lit s) as [[m r]|].
  - destruct Hm as (_ & _ & ->). apply bool_decide_eq_true_2. eauto.
  - rewrite Hm. apply bool_decide_eq_false_2. intros [x Hx]. discriminate.
Qed.

Lemma lower_char_colon (c : ascii) :
  Ascii.eqb ":"%char (lower_char c) = Ascii.eqb ":"%char c.
Proof. destruct c as [[] [] [] [] [] [] [] []]; reflexivity. Qed.

Lemma startswith_colon_lower (r : string) :
  startswith ":" (lower r) = startswith ":" r.
Proof.
  destruct r as [|c r]; [reflexivity|].
  simpl lower. rewrite !startswith_cons, lower_char_colon. reflexivity.
Qed.

Lemma lower_char_slash (c : ascii) :
  Ascii.eqb "/"%char (lower_char c) = Ascii.eqb "/"%char c.
Proof. destruct c as [[] [] [] [] [] [] [] []]; reflexivity. Qed.

Lemma startswith_slashes_lower (s : string) :
  startswith "//" (lower s) = startswith "//" s.
Proof.
  destruct s as [|c [|c' s]]; simpl lower;
    rewrite ?startswith_cons, ?lower_char_slash; reflexivity.
Qed.

(** X22: the references that are left alone as external.  The pattern
    [external_scheme_re] accepts exactly the texts that begin, in any case,
    with [http:], [https:], [data:] or [cid:], and the texts that begin
    with two slashes. *)
Theorem external_scheme_re_match_spec (s : string) :
  external_scheme_re_match s
  = startswith "http:" (lower s) || startswith "https:" (lower s)
    || startswith "data:" (lower s) || startswith "cid:" (lower s)
    || startswith "//" (lower s).
Proof.
  unfold external_scheme_re_match.
  rewrite !match_literal_ci_bool, startswith_slashes_lower.
  change (lower "data:") with "data:". change (lower "cid:") with "cid:".
  f_equal. f_equal. f_equal.
  pose proof (match_literal_ci_startswith "http" s) as Hh.
  destruct (match_literal_ci "http" s) as [[m r]|].
  - destruct Hh as (-> & Hm & _). rewrite lower_append, Hm.
    change (lower "http") with "http".
    change "http:" with ("http" ++ ":"). change "https:" with ("http" ++ "s:").
    rewrite !startswith_same_prefix, startswith_colon_lower.
    pose proof (match_literal_ci_startswith "s" r) as Hs.
    destruct (match_literal_ci "s" r) as [[m' r']|].
    + destruct Hs as (-> & Hm' & _). rewrite lower_append, Hm'.
      change (lower "s") with "s". change "s:" with ("s" ++ ":").
      rewrite startswith_same_prefix, startswith_colon_lower.
      apply orb_comm.
    + change (lower "s") with "s" in Hs.
      destruct (lower r) as [|c t]; [rewrite orb_false_r; reflexivity|].
      change (startswith "s" (String c t))
        with (Ascii.eqb "s" c && true) in Hs.
      rewrite andb_true_r in Hs.
      rewrite (startswith_cons "s" c ":" t), Hs, orb_false_r.
      reflexivity.
  - change (lower "http") with "http" in Hh.
    assert (H5 : forall t, startswith ("http" ++ t) (lower s) = false).
    { intros t. destruct (startswith ("http" ++ t) (lower s)) eqn:E;
        [|reflexivity].
      apply startswith_spec in E as [x E]. rewrite E, append_assoc in Hh.
      change "http" with ("http" ++ EmptyString) in Hh at 1.
      rewrite startswith_same_prefix in Hh. discriminate. }
    pose proof (H5 ":") as Ha. pose proof (H5 "s:") as Hb.
    change ("http" ++ ":") with "http:" in Ha.
    change ("http" ++ "s:") with "https:" in Hb.
    rewrite Ha, Hb. reflexivity.
Qed.

Lemma lazy_value_shape (q : ascii) (s v r : string) :
  lazy_value q s = Some (v, r) ->
  mem q v = false /\ mem newline v = false.
Proof.
  revert v r. induction s as [|c s IH]; intros v r Hs; simpl in Hs;
    [discriminate|].
  destruct (Ascii.eqb c q) eqn:Hcq.
  - injection Hs as <- <-. split; reflexivity.
  - destruct (Ascii.eqb c newline) eqn:Hcn; [discriminate|].
    destruct (lazy_value q s) as [[v' r']|]; [|discriminate].
    injection Hs as <- <-. destruct (IH _ _ eq_refl) as [Hq Hn].
    simpl. rewrite Hcq, Hcn, Hq, Hn. split; reflexivity.
Qed.

Lemma quoted_value_shape (s : string) (q : ascii) (v r : string) :
  quoted_value s = Some (q, v, r) -> value_shape q v.
Proof.
  unfold quoted_value. destruct s as [|q0 [|c s]]; try discriminate.
  destruct (is_quote q0) eqn:Hq0; [|discriminate].
  destruct (Ascii.eqb c newline) eqn:Hcn; [discriminate|]. simpl.
  destruct (lazy_value q0 s) as [[v' r']|] eqn:Hv; [|discriminate].
  intros [= <- <- <-]. destruct (lazy_value_shape _ _ _ _ Hv) as [Hq Hn].
  split; [exact Hq0|]. split; [simpl; rewrite Hcn; exact Hn|]. eauto.
Qed.

Lemma all_space_no_gt (sp : string) :
  all is_space sp = true -> mem ">"%char sp = false.
Proof.
  induction sp as [|c sp IH]; [reflexivity|]. simpl.
  intros Hall. apply andb_true_iff in Hall as [Hc Hall].
  rewrite (IH Hall), orb_false_r.
  destruct (Ascii.eqb_spec c ">"%char) as [->|]; [discriminate|reflexivity].
Qed.

Lemma literal_no_gt (lit m : string) :
  lower m = lit -> mem ">"%char lit = false -> mem ">"%char m = false.
Proof.
  intros <-. induction m as [|c m IH]; [reflexivity|]. simpl.
  intros Hm. apply orb_false_iff in Hm as [Hc Hm]. rewrite (IH Hm).
  destruct (Ascii.eqb_spec c ">"%char) as [->|]; [discriminate|reflexivity].
Qed.

Lemma src_attr_at_shape (s a : string) (q : ascii) (v r : string) :
  src_attr_at s = Some (a, q, v, r) ->
  mem ">"%char a = false /\ value_shape q v.
Proof.
  unfold src_attr_at.
  destruct (match_literal_ci "src" s) as [[src r0]|] eqn:Hsrc;
    [|discriminate].
  apply match_literal_ci_some in Hsrc as [-> Hl].
  destruct (span is_space r0) as [sp1 r1] eqn:H1.
  apply span_app in H1 as (-> & Hsp1 & _).
  destruct r1 as [|c r2]; [discriminate|].
  destruct (Ascii.eqb_spec c "=") as [->|]; [|discriminate].
  destruct (span is_space r2) as [sp2 r3] eqn:H2.
  apply span_app in H2 as (-> & Hsp2 & _).
  destruct (quoted_value r3) as [[[q' v'] r']|] eqn:Hq; [|discriminate].
  intros [= <- <- <- <-]. split; [|eapply quoted_value_shape; exact Hq].
  rewrite !mem_append, (literal_no_gt "src" src Hl eq_refl),
    (all_space_no_gt _ Hsp1), (all_space_no_gt _ Hsp2).
  reflexivity.
Qed.

Lemma lazy_attr_shape (s : string) :
  forall prev a q v r,
    lazy_attr prev s = Some (a, q, v, r) ->
    mem ">"%char a = false /\ value_shape q v.
Proof.
  induction s as [|c s IH]; intros prev a q v r Hs.
  - simpl in Hs.
    destruct (if is_word prev then None else src_attr_at EmptyString)
      as [[[[a' q'] v'] r']|] eqn:Hhere; [|discriminate].
    injection Hs as <- <- <- <-.
    destruct (is_word prev); [discriminate|].
    eapply src_attr_at_shape. exact Hhere.
  - cbn [lazy_attr] in Hs.
    destruct (if is_word prev then None else src_attr_at (String c s))
      as [[[[a' q'] v'] r']|] eqn:Hhere.
    + injection Hs as <- <- <- <-.
      destruct (is_word prev); [discriminate|].
      eapply src_attr_at_shape. exact Hhere.
    + destruct (Ascii.eqb c ">") eqn:Hc; [discriminate|].
      destruct (lazy_attr c s) as [[[[a' q'] v'] r']|] eqn:Hnext;
        [|discriminate].
      injection Hs as <- <- <- <-.
      destruct (IH _ _ _ _ _ Hnext) as [Ha Hv].
      split; [simpl; rewrite Hc, Ha; reflexivity | exact Hv].
Qed.

Lemma img_src_match_at_shape (s : string) (m : img_match) (r : string) :
  img_src_match_at s = Some (m, r) ->
  lower (take 4 (m_prefix m)) = "<img"
  /\ mem ">"%char (m_prefix m) = false
  /\ value_shape (m_quote m) (m_path m).
Proof.
  unfold img_src_match_at.
  destruct (match_literal_ci "<img" s) as [[tag r0]|] eqn:Htag;
    [|discriminate].
  apply match_literal_ci_some in Htag as [-> Hl].
  destruct (match r0 with String c _ => is_word c | EmptyString => false end);
    [discriminate|].
  destruct (lazy_attr "g" r0) as [[[[a q] v] r']|] eqn:Hattr; [|discriminate].
  intros [= <- <-]. cbn [m_prefix m_quote m_path].
  destruct (lazy_attr_shape _ _ _ _ _ _ Hattr) as [Ha Hv].
  split; [|split; [|exact Hv]].
  - assert (Hlen : String.length tag = 4%nat).
    { rewrite <- (lower_length tag), Hl. reflexivity. }
    rewrite <- Hlen, take_append. exact Hl.
  - rewrite mem_append, (literal_no_gt "<img" tag Hl eq_refl), Ha.
    reflexivity.
Qed.

Lemma scan_img_src_matches (s : string) :
  forall skip m,
    Img m ∈ scan_img_src skip s ->
    exists s' r, img_src_match_at s' = Some (m, r).
Proof.
  induction s as [|c s IH]; intros skip m Hin; simpl in Hin.
  - apply elem_of_nil in Hin. contradiction.
  - destruct skip as [|k]; [|eapply IH; exact Hin].
    destruct (img_src_match_at (String c s)) as [[m' r]|] eqn:Hm.
    + apply elem_of_cons in Hin as [Heq|Hin]; [|eapply IH; exact Hin].
      injection Heq as ->. eauto.
    + apply elem_of_cons in Hin as [Heq|Hin]; [discriminate|].
      eapply IH; exact Hin.
Qed.

(** X23: what the pattern of the image references takes.  Every match in
    a text begins with [<img] in any case and stays inside one tag, its
    text before the quote holding no [>]; the value is enclosed in double
    or single quotes, is not empty, holds no line feed (code point 10; a
    carriage return is a character like any other), and after its first
    character does not hold the quote that encloses it.  So a [src]
    without quotes, an empty one, or one with a line feed in its value is
    never rewritten. *)
Theorem scan_img_src_match_shape (s : string) (m : img_match) :
  Img m ∈ scan_img_src 0 s ->
  lower (take 4 (m_prefix m)) = "<img"
  /\ mem ">"%char (m_prefix m) = false
  /\ is_quote (m_quote m) = true
  /\ mem newline (m_path m) = false
  /\ exists c v, m_path m = String c v /\ mem (m_quote m) v = false.
Proof.
  intros Hin. apply scan_img_src_matches in Hin as (s' & r & Hm).
  destruct (img_src_match_at_shape _ _ _ Hm) as (Ht & Hg & Hq & Hn & Hv).
  auto.
Qed.

Lemma scan_img_src_match_shape_witness :
  let m := {| m_prefix := "<img alt='same' src=";
              m_quote := single_quote;
              m_path := "./img/a.png" |} in
  Img m ∈ scan_img_src 0 Demo.index_html
  /\ lower (take 4 (m_prefix m)) = "<img"
  /\ mem ">"%char (m_prefix m) = false
  /\ is_quote (m_quote m) = true
  /\ mem newline (m_path m) = false
  /\ exists c v, m_path m = String c v /\ mem (m_quote m) v = false.
Proof.
  intros m.
  assert (Hin : Img m ∈ scan_img_src 0 Demo.index_html).
  { apply list_elem_of_In. vm_compute. do 14 right. left. reflexivity. }
  split; [exact Hin|].
  exact (scan_img_src_match_shape Demo.index_html m Hin).
Defined.

(** White space in the sense of the pattern takes in the no-break space,
    and a carriage return inside the value does not end the match. *)
Lemma scan_img_src_latin1 :
  scan_img_src 0 img_no_break_space
  = [Img {| m_prefix := "<img src" ++ String (ascii_of_nat 160) "=";
            m_quote := single_quote;
            m_path := "img/a.png" |};
     Text ">"]
  /\ scan_img_src 0 img_carriage_return
     = [Img {| m_prefix := "<img src=";
               m_quote := single_quote;
               m_path := "img/" ++ String (ascii_of_nat 13) "a.png" |};
        Text ">"].
Proof. split; vm_compute; reflexivity. Qed.

End PatternFacts.
